(** * SMA crossover backtest: the simulation core of [run_strategy.py]

    A shallow embedding of [run_sma_crossover]: the two rolling means, the
    crossover masks, the one-bar lag, the long/flat loop that fills at the
    next bar's open, the post-loop flush and the final sort of the ledger.

    Modelling conventions.
    - The data frame is the list of its rows after line 122 (lower-cased
      columns, parsed dates, sorted by date); reading the configuration and
      the CSV, and writing the spreadsheet, are outside.
    - Prices are finite doubles in the source; they are embedded as exact
      rationals [Q].  [NaN] only ever appears as a missing value and is
      embedded as [None].
    - A [datetime.date] is embedded as its ordinal in [Z].  The ledger keeps
      ISO strings ["YYYY-MM-DD"], whose lexicographic order is the order of
      the ordinals, and [""] (embedded as [None]) sorts before every date.
    - Python exceptions are the [Err] results of a small error monad. *)

From Stdlib Require Import List ZArith QArith Lia Bool Arith.
From Stdlib Require Import Sorting.Permutation Sorting.Sorted.
From Stdlib Require Strings.String Strings.Ascii.
Import ListNotations.
Import String.StringSyntax Ascii.AsciiSyntax.

Delimit Scope string_scope with string.
Delimit Scope char_scope with char.

(** ** Errors *)

Inductive error : Type :=
| InvalidParameter   (* ValueError("SMA window lengths must be positive.") *)
| TypeError          (* float(None) *)
| IndexError.        (* .iloc[] out of bounds *)

Inductive result (A : Type) : Type :=
| Ok (a : A)
| Err (e : error).

Arguments Ok {A} a.
Arguments Err {A} e.

Definition bind {A B : Type} (r : result A) (k : A -> result B) : result B :=
  match r with
  | Ok a => k a
  | Err e => Err e
  end.

Notation "x <- r ;; k" := (bind r (fun x => k))
  (at level 61, r at next level, right associativity).

(** ** Data model *)

Record Bar : Type := mkBar
  { date : Z; open : Q; high : Q; low : Q; close : Q }.

(** One row of the orders frame.  [""] and [np.nan] are [None]. *)
Record Order : Type := mkOrder
  { entry_dt : option Z;
    entry_price : option Q;
    qty : Z;
    exit_dt : option Z;
    exit_price : option Q;
    pnl : option Q;
    bars_held : option Z }.

(** The signal codes produced by the nested [np.where]. *)
Definition enter_long : Z := 1.
Definition exit_long : Z := -1.
Definition none : Z := 0.

(** [s.iloc[i]]: positional access, [IndexError] out of bounds. *)
Definition iloc {A : Type} (s : list A) (i : nat) : result A :=
  match nth_error s i with
  | Some a => Ok a
  | None => Err IndexError
  end.

(** ** Indicator engine: [Series.rolling(window, min_periods).mean()] *)

Definition Qsum (l : list Q) : Q := fold_right Qplus 0%Q l.

Definition mean (l : list Q) : Q :=
  (Qsum l / inject_Z (Z.of_nat (length l)))%Q.

(** The observations of the window that ends at row [i]:
    rows [max(0, i + 1 - window) .. i]. *)
Definition window_at (window i : nat) (xs : list Q) : list Q :=
  let start := (i + 1 - window)%nat in
  firstn (i + 1 - start) (skipn start xs).

(** A value is produced once the window holds [min_periods] observations,
    [NaN] before that. *)
Definition rolling_mean (window min_periods : nat) (xs : list Q)
  : list (option Q) :=
  map (fun i =>
         let obs := window_at window i xs in
         if (length obs <? min_periods)%nat then None else Some (mean obs))
      (seq 0 (length xs)).

Record Indicators : Type := mkIndicators
  { sma_fast : list (option Q); sma_slow : list (option Q) }.

(** Lines 130-131. *)
Definition compute_indicators (fast slow : nat) (closes : list Q) : Indicators :=
  {| sma_fast := rolling_mean fast fast closes;
     sma_slow := rolling_mean slow slow closes |}.

(** ** Signal generator *)

(** [a > b] on floats: false as soon as one side is [NaN]. *)
Definition gt (a b : option Q) : bool :=
  match a, b with
  | Some x, Some y => negb (Qle_bool x y)
  | _, _ => false
  end.

Definition series_gt (a b : list (option Q)) : list bool :=
  map (fun p : option Q * option Q => gt (fst p) (snd p)) (combine a b).

Definition series_not (a : list bool) : list bool := map negb a.

Definition series_and (a b : list bool) : list bool :=
  map (fun p : bool * bool => fst p && snd p) (combine a b).

(** [s.shift(1, fill_value=fill)]: same length, first value [fill]. *)
Definition shift {A : Type} (fill : A) (s : list A) : list A :=
  firstn (length s) (fill :: s).

(** [np.where(cond, x, y)] with a scalar [x] and an array [y], and with two
    scalars. *)
Definition where_array (cond : list bool) (x : Z) (y : list Z) : list Z :=
  map (fun p : bool * Z => if fst p then x else snd p) (combine cond y).

Definition where_scalar (cond : list bool) (x y : Z) : list Z :=
  map (fun c : bool => if c then x else y) cond.

(** Line 133. *)
Definition fast_gt (ind : Indicators) : list bool :=
  series_gt (sma_fast ind) (sma_slow ind).

(** Line 134. *)
Definition cross_up (ind : Indicators) : list bool :=
  series_and (fast_gt ind) (shift false (series_not (fast_gt ind))).

(** Line 135. *)
Definition cross_dn (ind : Indicators) : list bool :=
  series_and (series_not (fast_gt ind)) (shift false (fast_gt ind)).

(** Line 137. *)
Definition raw_signal (ind : Indicators) : list Z :=
  where_array (cross_up ind) 1 (where_scalar (cross_dn ind) (-1) 0).

(** Line 138: [raw_signal.shift(1).fillna(0)]. *)
Definition lag (raw : list Z) : list Z := shift 0%Z raw.

Definition signal (ind : Indicators) : list Z := lag (raw_signal ind).

(** ** Position simulator *)

(** The loop's local variables. *)
Record SimState : Type := mkSim
  { position : Z;
    st_entry_price : option Q;
    st_entry_dt : option Z;
    st_entry_idx : option nat;
    orders : list Order }.

Definition init_state : SimState :=
  {| position := 0; st_entry_price := None; st_entry_dt := None;
     st_entry_idx := None; orders := [] |}.

(** [float(x)] for an optional float: [float(None)] raises. *)
Definition float_of (x : option Q) : result Q :=
  match x with
  | Some q => Ok q
  | None => Err TypeError
  end.

(** The row appended when a position is closed (lines 164-172). *)
Definition closed_row (q : Z) (st : SimState) (exit_d : Z) (exit_p pl : Q)
           (held : option Z) : Order :=
  {| entry_dt := st_entry_dt st;
     entry_price := st_entry_price st;
     qty := q;
     exit_dt := Some exit_d;
     exit_price := Some exit_p;
     pnl := Some pl;
     bars_held := held |}.

(** The row appended for a position still open (lines 179-187). *)
Definition open_row (q : Z) (st : SimState) : Order :=
  {| entry_dt := st_entry_dt st;
     entry_price := st_entry_price st;
     qty := q;
     exit_dt := None;
     exit_price := None;
     pnl := None;
     bars_held := None |}.

(** One iteration of the loop body (lines 148-176). *)
Definition step (q : Z) (bars : list Bar) (sig_series : list Z)
           (st : SimState) (i : nat) : result SimState :=
  sig <- iloc sig_series i ;;
  next <- iloc bars (i + 1) ;;
  let next_open := open next in
  let next_date := date next in
  if (position st =? 0)%Z && (sig =? 1)%Z then
    Ok {| position := 1;
          st_entry_price := Some next_open;
          st_entry_dt := Some next_date;
          st_entry_idx := Some (i + 1)%nat;
          orders := orders st |}
  else if (position st =? 1)%Z && (sig =? -1)%Z then
    let held :=
      option_map (fun e => (Z.of_nat (i + 1) - Z.of_nat e)%Z) (st_entry_idx st) in
    ep <- float_of (st_entry_price st) ;;
    let pl := ((next_open - ep) * inject_Z q)%Q in
    Ok {| position := 0;
          st_entry_price := None;
          st_entry_dt := None;
          st_entry_idx := None;
          orders := orders st ++ [closed_row q st next_date next_open pl held] |}
  else Ok st.

(** [for i in idxs: body]. *)
Fixpoint for_each (body : SimState -> nat -> result SimState)
         (idxs : list nat) (st : SimState) : result SimState :=
  match idxs with
  | [] => Ok st
  | i :: rest => st' <- body st i ;; for_each body rest st'
  end.

(** Lines 140-176; [range(len(df) - 1)] is empty for an empty frame. *)
Definition simulate (q : Z) (bars : list Bar) (sig_series : list Z)
  : result SimState :=
  for_each (step q bars sig_series) (seq 0 (length bars - 1)) init_state.

(** Lines 178-187. *)
Definition flush (q : Z) (st : SimState) : list Order :=
  if (position st =? 1)%Z then orders st ++ [open_row q st] else orders st.

(** ** Ledger assembly: [sort_values("entry_dt")] *)

(** The rows are sorted by their entry date, the empty string first.  The
    sort is written as an insertion sort, which keeps rows of equal date in
    their order; where the order of the returned rows matters the entry dates
    are distinct, and then every sort returns the same list
    ([sorted_arrangement_unique] below). *)
Definition key_leb (a b : option Z) : bool :=
  match a, b with
  | None, _ => true
  | Some _, None => false
  | Some x, Some y => (x <=? y)%Z
  end.

Fixpoint insert_by (o : Order) (l : list Order) : list Order :=
  match l with
  | [] => [o]
  | h :: t =>
      if key_leb (entry_dt o) (entry_dt h) then o :: l else h :: insert_by o t
  end.

Definition sort_values (l : list Order) : list Order :=
  fold_right insert_by [] l.

(** Lines 189-194. *)
Definition assemble (rows : list Order) : list Order :=
  match rows with
  | [] => []
  | _ => sort_values rows
  end.

(** ** The run *)

(** Lines 124-126.  The warning printed for [fast >= slow] (lines 127-128)
    does not change the result. *)
Definition validate (fast slow : Z) : result unit :=
  if (fast <=? 0)%Z || (slow <=? 0)%Z then Err InvalidParameter else Ok tt.

Definition closes (bars : list Bar) : list Q := map close bars.

Definition indicators_of (fast slow : Z) (bars : list Bar) : Indicators :=
  compute_indicators (Z.to_nat fast) (Z.to_nat slow) (closes bars).

Definition run_sma_crossover (fast slow q : Z) (bars : list Bar)
  : result (list Order) :=
  _ <- validate fast slow ;;
  let sig := signal (indicators_of fast slow bars) in
  st <- simulate q bars sig ;;
  Ok (assemble (flush q st)).

(** ** Sample data *)

(** A bar from its date, open and close; high and low play no part in the
    run. *)
Definition bar (d : Z) (o c : Q) : Bar :=
  {| date := d; open := o; high := o + c; low := 0; close := c |}%Q.

(** The scenario of the specification: closes [10,10,10,12,14,9,9,9]. *)
Definition scenario : list Bar :=
  [ bar 1 10 10; bar 2 11 10; bar 3 12 10; bar 4 13 12;
    bar 5 14 14; bar 6 15 9; bar 7 16 9; bar 8 17 9 ]%Q.

(** * Reading a run back against the bars

    The notions the statements below are written with: windows by index,
    the trace of a ledger, the loop invariant, the order of the rows. *)

Local Open Scope nat_scope.

(** The arithmetic mean of [xs[i-w+1 .. i]], written with explicit indices. *)
Definition spec_window_mean (xs : list Q) (i w : nat) : Q :=
  (Qsum (map (fun j => nth j xs 0%Q) (seq (i + 1 - w) w))
   / inject_Z (Z.of_nat w))%Q.

(** [above ind i]: the value of [fast_gt] at row [i]. *)
Definition above (ind : Indicators) (i : nat) : bool := nth i (fast_gt ind) false.

(** The code that lines 134-137 give row [i], from [fast_gt] at rows [i]
    and [i - 1]; row 0 has the two fill values as its previous row. *)
Definition raw_code (ind : Indicators) (i : nat) : Z :=
  match i with
  | O => 0
  | S j =>
      if above ind i && negb (above ind j) then 1
      else if negb (above ind i) && above ind j then -1
      else 0
  end%Z.

(** The ledger read back against the bars: a trade is an entry row and,
    once closed, an exit row. *)
Definition closed_at (q : Z) (bars : list Bar) (e x : nat) (o : Order) : Prop :=
  exists be bx,
    nth_error bars e = Some be /\ nth_error bars x = Some bx /\
    o = {| entry_dt := Some (date be);
           entry_price := Some (open be);
           qty := q;
           exit_dt := Some (date bx);
           exit_price := Some (open bx);
           pnl := Some ((open bx - open be) * inject_Z q)%Q;
           bars_held := Some (Z.of_nat x - Z.of_nat e)%Z |}.

Definition open_at (q : Z) (bars : list Bar) (e : nat) (o : Order) : Prop :=
  exists be,
    nth_error bars e = Some be /\
    o = {| entry_dt := Some (date be);
           entry_price := Some (open be);
           qty := q;
           exit_dt := None;
           exit_price := None;
           pnl := None;
           bars_held := None |}.

Definition trade_at (q : Z) (bars : list Bar) (t : nat * option nat) (o : Order)
  : Prop :=
  match snd t with
  | Some x => closed_at q bars (fst t) x o
  | None => open_at q bars (fst t) o
  end.

(** The signal that caused each execution: the one read at the row before. *)
Definition fired (sig_series : list Z) (t : nat * option nat) : Prop :=
  (exists i, fst t = S i /\ nth_error sig_series i = Some 1%Z) /\
  match snd t with
  | Some x => exists j, x = S j /\ nth_error sig_series j = Some (-1)%Z
  | None => True
  end.

(** Trades follow one another without overlap: each entry is after the exit
    before it, each exit after its entry, and only the last may be open. *)
Fixpoint chained (lo : nat) (tr : list (nat * option nat)) : Prop :=
  match tr with
  | [] => True
  | (e, Some x) :: rest => lo < e /\ e < x /\ chained x rest
  | (e, None) :: rest => lo < e /\ rest = []
  end.

(** Closed trades only, as the loop sees them. *)
Fixpoint chained_closed (lo : nat) (ivs : list (nat * nat)) : Prop :=
  match ivs with
  | [] => True
  | (e, x) :: rest => lo < e /\ e < x /\ chained_closed x rest
  end.

Fixpoint last_exit (lo : nat) (ivs : list (nat * nat)) : nat :=
  match ivs with
  | [] => lo
  | (_, x) :: rest => last_exit x rest
  end.

Definition as_closed (iv : nat * nat) : nat * option nat :=
  (fst iv, Some (snd iv)).

Definition trace_of (ivs : list (nat * nat)) (oe : option nat)
  : list (nat * option nat) :=
  map as_closed ivs ++ match oe with Some e => [(e, None)] | None => [] end.

(** What holds of the local variables after the iterations [0 .. k-1]. *)
Definition flat (st : SimState) : Prop :=
  position st = 0%Z /\ st_entry_price st = None /\
  st_entry_dt st = None /\ st_entry_idx st = None.

Definition long_at (bars : list Bar) (e : nat) (st : SimState) : Prop :=
  position st = 1%Z /\
  exists be, nth_error bars e = Some be /\
             st_entry_idx st = Some e /\
             st_entry_price st = Some (open be) /\
             st_entry_dt st = Some (date be).

Record loop_inv (q : Z) (bars : list Bar) (sig_series : list Z) (k : nat)
       (st : SimState) (ivs : list (nat * nat)) (oe : option nat) : Prop :=
  { inv_rows : Forall2 (fun iv => closed_at q bars (fst iv) (snd iv))
                       ivs (orders st);
    inv_chain : chained_closed 0 ivs;
    inv_fired : Forall (fun iv => fired sig_series (as_closed iv)) ivs;
    inv_pos : match oe with
              | None => flat st /\ last_exit 0 ivs <= k
              | Some e => long_at bars e st /\ last_exit 0 ivs < e <= k /\
                          fired sig_series (e, None)
              end }.

(** Trades of a chain are pairwise disjoint, in order, and only the last one
    can be open. *)
Definition no_overlap (tr : list (nat * option nat)) : Prop :=
  forall i j t1 t2,
    i < j -> nth_error tr i = Some t1 -> nth_error tr j = Some t2 ->
    exists x1, snd t1 = Some x1 /\ fst t1 < x1 /\ x1 < fst t2.

Definition entry_le (a b : Order) : Prop :=
  key_leb (entry_dt a) (entry_dt b) = true.

(** Strictly earlier entry date. *)
Definition entry_lt (a b : Order) : Prop :=
  key_leb (entry_dt b) (entry_dt a) = false.

(** The data-model invariant on bars: dates strictly increasing. *)
Definition dates_increasing (bars : list Bar) : Prop :=
  StronglySorted Z.lt (map date bars).

(** What the specification asks of an SMA series of window [w]: one entry
    per close, undefined on the first [w - 1] rows, the mean of the last [w]
    closes from row [w - 1] on. *)
Definition spec_sma (w : nat) (closes : list Q) (s : list (option Q)) : Prop :=
  length s = length closes /\
  forall i, i < length closes ->
            nth_error s i =
            Some (if i <? w - 1 then None
                  else Some (spec_window_mean closes i w)).

(** [both_defined ind i]: both averages have a value on row [i]. *)
Definition both_defined (ind : Indicators) (i : nat) : Prop :=
  exists a b, nth_error (sma_fast ind) i = Some (Some a) /\
              nth_error (sma_slow ind) i = Some (Some b).

Definition first_both_defined (ind : Indicators) (i : nat) : Prop :=
  both_defined ind i /\ forall j, j < i -> ~ both_defined ind j.

Definition scenario_trade : Order :=
  {| entry_dt := Some 6%Z; entry_price := Some 15%Q; qty := 10;
     exit_dt := Some 8%Z; exit_price := Some 17%Q;
     pnl := Some ((17 - 15) * inject_Z 10)%Q; bars_held := Some 2%Z |}.

(** The first six bars of the scenario: the entry is filled on the last bar
    and nothing closes it. *)
Definition scenario_open : list Bar := firstn 6 scenario.


(** ** The position against the averages *)

(** The fast average is strictly above the slow one on row [i]. *)
Definition fast_above_slow (ind : Indicators) (i : nat) : Prop :=
  exists a b,
    nth_error (sma_fast ind) i = Some (Some a) /\
    nth_error (sma_slow ind) i = Some (Some b) /\
    (b < a)%Q.

(** What the comparison two rows back says the position is once [k] rows
    have been processed. *)
Definition held (ind : Indicators) (k : nat) : bool :=
  (2 <=? k) && above ind (k - 2).

(** The trades seen so far, moved on by the signal [s] read on row [k]. *)
Definition ghost_step (s : Z) (k : nat) (g : list (nat * nat) * option nat)
  : list (nat * nat) * option nat :=
  match snd g with
  | None => if (s =? 1)%Z then (fst g, Some (k + 1)) else g
  | Some e => if (s =? -1)%Z then (fst g ++ [(e, k + 1)], None) else g
  end.

(** A row without exit date. *)
Definition is_open (o : Order) : Prop := exit_dt o = None.

(** A signal of [n] rows that is [none] everywhere but for one [enter_long]
    on row [i]. *)
Definition lone_entry (n i : nat) : list Z :=
  repeat none i ++ enter_long :: repeat none (n - 1 - i).

(** * The scripts around the run

    [fetch_yahoo.py], [clean_data.py] and the file handling of
    [run_strategy.py].  The values read by [json.load] are Python values;
    a script either finishes or raises.  The network, [pd.concat] and the
    text of the files are outside: they are parameters or abstracted. *)

Module Py.

(** A value as [json.load] returns it.  [VDict] keeps the pairs as they
    appear in the text; a repeated key takes its last value. *)
#[local] Unset Elimination Schemes.
Inductive value : Type :=
| VNone
| VBool (b : bool)
| VInt (z : Z)
| VFloat (q : Q)
| VStr (s : String.string)
| VList (l : list value)
| VDict (items : list (String.string * value)).
#[local] Set Elimination Schemes.

Inductive exn : Type :=
| ValueError
| RuntimeError
| KeyError (keys : list String.string)
| AttributeError
| TypeError
| FileNotFoundError
| SystemExit
| OtherException.

(** [except Exception] catches everything but [SystemExit], which derives
    from [BaseException] only. *)
Definition is_Exception (e : exn) : bool :=
  match e with
  | SystemExit => false
  | _ => true
  end.

Inductive outcome (A : Type) : Type :=
| Done (a : A)
| Raise (e : exn).

Arguments Done {A} a.
Arguments Raise {A} e.

Definition bind {A B : Type} (r : outcome A) (k : A -> outcome B) : outcome B :=
  match r with
  | Done a => k a
  | Raise e => Raise e
  end.

Fixpoint lookup (k : String.string) (items : list (String.string * value))
  : option value :=
  match items with
  | [] => None
  | (k', v) :: rest =>
      match lookup k rest with
      | Some v' => Some v'
      | None => if String.eqb k' k then Some v else None
      end
  end.

(** [d.get(k, default)]. *)
Definition get (d : value) (k : String.string) (default : value)
  : outcome value :=
  match d with
  | VDict items =>
      Done (match lookup k items with Some v => v | None => default end)
  | _ => Raise AttributeError
  end.

(** [d[k]] for a string [k]. *)
Definition getitem (d : value) (k : String.string) : outcome value :=
  match d with
  | VDict items =>
      match lookup k items with
      | Some v => Done v
      | None => Raise (KeyError [k])
      end
  | _ => Raise TypeError
  end.

(** [bool(v)]. *)
Definition truthy (v : value) : bool :=
  match v with
  | VNone => false
  | VBool b => b
  | VInt z => negb (z =? 0)%Z
  | VFloat q => negb (Qeq_bool q 0)
  | VStr s => negb (String.eqb s ""%string)
  | VList l => match l with [] => false | _ => true end
  | VDict items => match items with [] => false | _ => true end
  end.

(** The keys of a dict, each once, in the order of first appearance. *)
Fixpoint keys_from (seen : list String.string)
         (items : list (String.string * value)) : list String.string :=
  match items with
  | [] => []
  | (k, _) :: rest =>
      if existsb (String.eqb k) seen then keys_from seen rest
      else k :: keys_from (k :: seen) rest
  end.

(** [for x in v]: the elements of a list, the characters of a string (ASCII
    text), the keys of a dict; anything else is not iterable. *)
Definition iterate (v : value) : outcome (list value) :=
  match v with
  | VList l => Done l
  | VStr s =>
      Done (map (fun c => VStr (String.String c String.EmptyString))
                (String.list_ascii_of_string s))
  | VDict items => Done (map VStr (keys_from [] items))
  | _ => Raise TypeError
  end.

End Py.

Declare Scope py_scope.
Delimit Scope py_scope with py.

Notation "x <- r ;; k" := (Py.bind r (fun x => k))
  (at level 61, r at next level, right associativity) : py_scope.

(** ** [fetch_yahoo.py] *)

Module fetch_yahoo.

Section Main.

(** The frames, [fetch_symbol] with its network call, and [pd.concat]. *)
Variable Frame : Type.
Variable fetch_symbol : Py.value -> Py.outcome Frame.
Variable concat : list Frame -> Py.outcome Frame.

(** Lines 114-119: the symbol an entry of the list stands for. *)
Definition symbol_of (sym : Py.value) : Py.outcome Py.value :=
  match sym with
  | Py.VDict items =>
      match Py.lookup "symbol"%string items with
      | Some v => Py.Done v
      | None => Py.Raise Py.ValueError
      end
  | Py.VStr s => Py.Done (Py.VStr s)
  | _ => Py.Raise Py.ValueError
  end.

(** Lines 112-125: the loop, with its [try]/[except Exception]. *)
Fixpoint fetch_all (symbols : list Py.value) (all_frames : list Frame)
  : Py.outcome (list Frame) :=
  match symbols with
  | [] => Py.Done all_frames
  | sym :: rest =>
      (symbol <- symbol_of sym ;;
       match fetch_symbol symbol with
       | Py.Done df => fetch_all rest (all_frames ++ [df])
       | Py.Raise e =>
           if Py.is_Exception e then fetch_all rest all_frames
           else Py.Raise e
       end)%py
  end.

(** Lines 107-131: from the loaded configuration to the combined frame that
    is written to [data/ohlc_tv.csv] and [data/ohlc_all.json]. *)
Definition main (symbols_cfg : Py.value) : Py.outcome Frame :=
  (symbols <- Py.get symbols_cfg "symbols"%string (Py.VList []) ;;
   if negb (Py.truthy symbols) then Py.Raise Py.ValueError
   else
     entries <- Py.iterate symbols ;;
     all_frames <- fetch_all entries [] ;;
     match all_frames with
     | [] => Py.Raise Py.RuntimeError
     | _ => concat all_frames
     end)%py.

(** The frames of the symbols whose fetch succeeds, in order. *)
Definition fetched (symbols : list Py.value) : list Frame :=
  flat_map (fun s => match fetch_symbol s with
                     | Py.Done df => [df]
                     | Py.Raise _ => []
                     end) symbols.

End Main.

(** Lines 64-72. *)
Definition col_map : list (String.string * String.string) :=
  [ ("Date", "date"); ("Open", "open"); ("High", "high"); ("Low", "low");
    ("Close", "close"); ("Adj Close", "close"); ("Volume", "volume") ]%string.

(** Line 77. *)
Definition expected : list String.string :=
  [ "date"; "open"; "high"; "low"; "close"; "volume" ]%string.

Definition new_name (c : String.string) : String.string :=
  match find (fun p => String.eqb (fst p) c) col_map with
  | Some p => snd p
  | None => c
  end.

(** A column of the frame: its current name and the downloaded column its
    values come from. *)
Definition column : Type := String.string * String.string.

(** Line 73: [df.rename(columns=col_map)]. *)
Definition rename (cols : list column) : list column :=
  map (fun c : column => (new_name (fst c), snd c)) cols.

(** [df[labels]]: for each label in turn, every column of that name. *)
Definition select (labels : list String.string) (cols : list column)
  : list column :=
  flat_map (fun l => filter (fun c : column => String.eqb (fst c) l) cols)
           labels.

(** Lines 73-78 and 93 on the header of the download (after [reset_index]
    and the flattening): the columns of the frame returned, the constant
    [symbol] column last. *)
Definition layout (downloaded : list String.string) : list column :=
  let cols := rename (map (fun c => (c, c)) downloaded) in
  let keep :=
    filter (fun e => existsb (fun c : column => String.eqb (fst c) e) cols)
           expected in
  select keep cols ++ [("symbol", "symbol")]%string.

End fetch_yahoo.

(** ** Frames of raw bars and the files that hold them *)

(** [c.lower()] on ASCII text. *)
Definition lower_ascii (c : Ascii.ascii) : Ascii.ascii :=
  let n := Ascii.nat_of_ascii c in
  if (65 <=? n) && (n <=? 90) then Ascii.ascii_of_nat (n + 32) else c.

Definition lower (s : String.string) : String.string :=
  String.string_of_list_ascii
    (map lower_ascii (String.list_ascii_of_string s)).

Definition has_column (c : String.string) (cols : list String.string) : bool :=
  existsb (String.eqb c) cols.

(** The default paths of [run_strategy.py], which are the paths of
    [clean_data.py]. *)
Definition default_raw_csv : String.string := "data/ohlc_tv.csv"%string.
Definition default_cleaned_csv : String.string := "data/ohlc_clean.csv"%string.
Definition default_report_path : String.string :=
  "outputs/validation_report.txt"%string.

Section RawFrames.

(** The values of the cells; the scripts only test them for absence and for
    equality. *)
Variable V : Type.
Variable V_eq_dec : forall x y : V, {x = y} + {x <> y}.

(** A row once its date has been parsed; [None] is [NaT] for the date and
    [NaN] for a cell.  [row_other] holds the cells of every further
    column. *)
Record Row : Type := mkRow
  { row_date : option Z;
    row_symbol : option V;
    row_open : option V;
    row_high : option V;
    row_low : option V;
    row_close : option V;
    row_volume : option V;
    row_other : list (option V) }.

Definition option_eq_dec {A : Type} (d : forall x y : A, {x = y} + {x <> y})
  : forall a b : option A, {a = b} + {a <> b}.
Proof.
  decide equality.
Defined.

Definition Row_eq_dec : forall r1 r2 : Row, {r1 = r2} + {r1 <> r2}.
Proof.
  decide equality;
    first [ apply list_eq_dec; apply option_eq_dec; exact V_eq_dec
          | apply option_eq_dec; exact V_eq_dec
          | apply option_eq_dec; exact Z.eq_dec ].
Defined.

Record CsvFile : Type := mkCsv
  { csv_columns : list String.string; csv_rows : list Row }.

(** The report of [ensure_clean_csv_exists] (lines 103-110). *)
Record EnsureReport : Type := mkEnsureReport
  { rep_start_date : option Z;
    rep_end_date : option Z;
    rep_coverage_days : option Z;
    rep_before : nat;
    rep_dropped : nat;
    rep_after : nat }.

(** The report of [clean_data.py] (lines 72-79). *)
Record CleanReport : Type := mkCleanReport
  { crep_start_date : option Z;
    crep_end_date : option Z;
    crep_days : option Z;
    crep_before_rows : nat;
    crep_after_ohlc_rows : nat;
    crep_rows_kept : nat }.

Inductive Report : Type :=
| WrittenByEnsure (r : EnsureReport)
| WrittenByCleanData (r : CleanReport).

(** The CSV files and the reports on disk, by path.  A report is never
    written over a CSV file that is read. *)
Record Disk : Type := mkDisk
  { csv_at : String.string -> option CsvFile;
    report_at : String.string -> option Report }.

Definition path_exists (d : Disk) (path : String.string) : bool :=
  match csv_at d path with Some _ => true | None => false end.

Definition read_csv (d : Disk) (path : String.string) : Py.outcome CsvFile :=
  match csv_at d path with
  | Some f => Py.Done f
  | None => Py.Raise Py.FileNotFoundError
  end.

Definition to_csv (d : Disk) (path : String.string) (f : CsvFile) : Disk :=
  {| csv_at := fun p => if String.eqb p path then Some f else csv_at d p;
     report_at := report_at d |}.

Definition write_report (d : Disk) (path : String.string) (r : Report) : Disk :=
  {| csv_at := csv_at d;
     report_at := fun p => if String.eqb p path then Some r else report_at d p |}.

Definition has_date (r : Row) : bool :=
  match row_date r with Some _ => true | None => false end.

Definition present (c : option V) : bool :=
  match c with Some _ => true | None => false end.

Definition has_ohlc (r : Row) : bool :=
  present (row_open r) && present (row_high r) &&
  present (row_low r) && present (row_close r).

(** [sort_values("date")]: ascending, missing dates last.  Written as an
    insertion sort; nothing below depends on how rows of equal date are
    ordered. *)
Definition date_leb (a b : option Z) : bool :=
  match a, b with
  | Some x, Some y => (x <=? y)%Z
  | Some _, None => true
  | None, Some _ => false
  | None, None => true
  end.

Fixpoint insert_row (r : Row) (l : list Row) : list Row :=
  match l with
  | [] => [r]
  | h :: t =>
      if date_leb (row_date r) (row_date h) then r :: l
      else h :: insert_row r t
  end.

Definition sort_by_date (l : list Row) : list Row :=
  fold_right insert_row [] l.

(** [drop_duplicates()]: of equal rows the first is kept. *)
Fixpoint drop_from (seen : list Row) (l : list Row) : list Row :=
  match l with
  | [] => []
  | r :: t =>
      if in_dec Row_eq_dec r seen then drop_from seen t
      else r :: drop_from (r :: seen) t
  end.

Definition drop_duplicates (l : list Row) : list Row := drop_from [] l.

(** Line 78 of [run_strategy.py]; [sorted(missing)] is [missing_columns]. *)
Definition required_sorted : list String.string :=
  [ "close"; "date"; "high"; "low"; "open"; "volume" ]%string.

Definition missing_columns (cols : list String.string) : list String.string :=
  filter (fun c => negb (has_column c cols)) required_sorted.

(** Line 90: the rows the mask marks. *)
Definition miss_mask (r : Row) : bool := negb (has_ohlc r) || negb (has_date r).

(** Lines 94-96, on rows that all have a date. *)
Definition coverage_days (df : list Row) : option Z :=
  match df with
  | first :: _ :: _ =>
      match row_date first, row_date (last df first) with
      | Some s, Some e => Some (e - s)%Z
      | _, _ => None
      end
  | _ => None
  end.

(** [ensure_clean_csv_exists] of [run_strategy.py] (lines 66-110). *)
Definition ensure_clean_csv_exists
           (raw_csv cleaned_csv report_path : String.string) (d : Disk)
  : Py.outcome Disk :=
  if path_exists d cleaned_csv then Py.Done d
  else if negb (path_exists d raw_csv) then Py.Raise Py.FileNotFoundError
  else
    (raw <- read_csv d raw_csv ;;
     let columns := map lower (csv_columns raw) in
     match missing_columns columns with
     | _ :: _ => Py.Raise Py.ValueError
     | [] =>
         let before := length (csv_rows raw) in
         let df := drop_duplicates (sort_by_date (csv_rows raw)) in
         let dropped := length (filter miss_mask df) in
         let df := filter (fun r => negb (miss_mask r)) df in
         let start_date := match df with r :: _ => row_date r | [] => None end in
         let end_date :=
           match df with r :: _ => row_date (last df r) | [] => None end in
         let d1 := to_csv d cleaned_csv
                          {| csv_columns := columns; csv_rows := df |} in
         Py.Done
           (write_report d1 report_path
              (WrittenByEnsure
                 {| rep_start_date := start_date;
                    rep_end_date := end_date;
                    rep_coverage_days := coverage_days df;
                    rep_before := before;
                    rep_dropped := dropped;
                    rep_after := length df |}))
     end)%py.

(** Line 120 reads the date column a second time, day first.  A file holds
    its rows with the dates as line 83 (and line 44 of [clean_data.py]) reads
    their text; what the day-first reading makes of the same text is another
    column of dates, which those do not determine: on the ISO text written by
    line 99 it exchanges month and day where that is a date, and gives [NaT]
    where it is not.  [dayfirst f i] is the day-first reading of the date on
    row [i] of the file [f]; nothing is assumed of it. *)
Variable dayfirst : CsvFile -> nat -> option Z.

Definition with_date (dt : option Z) (r : Row) : Row :=
  {| row_date := dt;
     row_symbol := row_symbol r;
     row_open := row_open r;
     row_high := row_high r;
     row_low := row_low r;
     row_close := row_close r;
     row_volume := row_volume r;
     row_other := row_other r |}.

(** Line 120 on the rows of a file: every row keeps its cells and takes the
    date of the day-first reading. *)
Definition read_dayfirst (f : CsvFile) : list Row :=
  map (fun p : nat * Row => with_date (dayfirst f (fst p)) (snd p))
      (combine (seq 0 (length (csv_rows f))) (csv_rows f)).

(** Lines 113-122 of [run_sma_crossover]: the frame the windows are checked
    and the averages computed on.  The required columns are looked for in
    the order of line 117; no row is dropped, a row whose date reads as [NaT]
    is sorted last. *)
Definition load_frame (data_file : String.string) (d : Disk)
  : Py.outcome (Disk * CsvFile) :=
  (d1 <- ensure_clean_csv_exists
           default_raw_csv default_cleaned_csv default_report_path d ;;
   df <- read_csv d1 data_file ;;
   let columns := map lower (csv_columns df) in
   if forallb (fun c => has_column c columns)
              [ "date"; "open"; "high"; "low"; "close" ]%string
   then Py.Done (d1, {| csv_columns := columns;
                        csv_rows := sort_by_date (read_dayfirst df) |})
   else Py.Raise Py.ValueError)%py.

(** [clean_data.py]: the columns kept, in the order of line 55. *)
Definition col_order : list String.string :=
  [ "date"; "symbol"; "open"; "high"; "low"; "close"; "volume" ]%string.

(** [df[existing]]: the further columns are dropped. *)
Definition project (r : Row) : Row :=
  {| row_date := row_date r;
     row_symbol := row_symbol r;
     row_open := row_open r;
     row_high := row_high r;
     row_low := row_low r;
     row_close := row_close r;
     row_volume := row_volume r;
     row_other := [] |}.

Definition date_min (a b : option Z) : option Z :=
  match a, b with
  | Some x, Some y => Some (Z.min x y)
  | Some x, None => Some x
  | None, b => b
  end.

Definition date_max (a b : option Z) : option Z :=
  match a, b with
  | Some x, Some y => Some (Z.max x y)
  | Some x, None => Some x
  | None, b => b
  end.

(** [df["date"].min()] and [.max()]: [NaT] on an empty frame. *)
Definition min_date (df : list Row) : option Z :=
  fold_right (fun r acc => date_min (row_date r) acc) None df.

Definition max_date (df : list Row) : option Z :=
  fold_right (fun r acc => date_max (row_date r) acc) None df.

(** [clean_data.main] (lines 24-81), on the default paths.  [dropna] raises
    [KeyError] with the labels it does not find. *)
Definition clean_data_main (d : Disk) : Py.outcome Disk :=
  if negb (path_exists d default_raw_csv) then Py.Raise Py.FileNotFoundError
  else
    (raw <- read_csv d default_raw_csv ;;
     let columns := csv_columns raw in
     if negb (has_column "date"%string columns)
     then Py.Raise (Py.KeyError [ "date"%string ])
     else
       let before_rows := length (csv_rows raw) in
       let df := filter has_date (csv_rows raw) in
       let df := sort_by_date df in
       match filter (fun c => negb (has_column c columns))
                    [ "open"; "high"; "low"; "close" ]%string with
       | (_ :: _) as absent => Py.Raise (Py.KeyError absent)
       | [] =>
           let df := filter has_ohlc df in
           let after_ohlc_rows := length df in
           let existing := filter (fun c => has_column c columns) col_order in
           let df := map project df in
           let start_date := min_date df in
           let end_date := max_date df in
           let days :=
             match start_date, end_date with
             | Some s, Some e => Some (e - s)%Z
             | _, _ => None
             end in
           let rows_kept := length df in
           let d1 := to_csv d default_cleaned_csv
                            {| csv_columns := existing; csv_rows := df |} in
           Py.Done
             (write_report d1 default_report_path
                (WrittenByCleanData
                   {| crep_start_date := start_date;
                      crep_end_date := end_date;
                      crep_days := days;
                      crep_before_rows := before_rows;
                      crep_after_ohlc_rows := after_ohlc_rows;
                      crep_rows_kept := rows_kept |}))
       end)%py.

(** Rows with a date and the four prices. *)
Definition complete (r : Row) : bool := has_date r && has_ohlc r.

Definition date_le (r1 r2 : Row) : Prop :=
  date_leb (row_date r1) (row_date r2) = true.

End RawFrames.

Arguments mkRow {V}.
Arguments row_date {V}.
Arguments row_symbol {V}.
Arguments row_open {V}.
Arguments row_high {V}.
Arguments row_low {V}.
Arguments row_close {V}.
Arguments row_volume {V}.
Arguments row_other {V}.
Arguments mkCsv {V}.
Arguments csv_columns {V}.
Arguments csv_rows {V}.
Arguments mkDisk {V}.
Arguments csv_at {V}.
Arguments report_at {V}.
Arguments path_exists {V}.
Arguments read_csv {V}.
Arguments to_csv {V}.
Arguments write_report {V}.
Arguments has_date {V}.
Arguments present {V}.
Arguments has_ohlc {V}.
Arguments insert_row {V}.
Arguments sort_by_date {V}.
Arguments drop_from {V}.
Arguments drop_duplicates {V}.
Arguments miss_mask {V}.
Arguments coverage_days {V}.
Arguments ensure_clean_csv_exists {V}.
Arguments with_date {V}.
Arguments read_dayfirst {V}.
Arguments load_frame {V}.
Arguments project {V}.
Arguments min_date {V}.
Arguments max_date {V}.
Arguments clean_data_main {V}.
Arguments complete {V}.
Arguments date_le {V}.

(** ** Sample data of the scripts, and what the rows say of a trade *)

(** A sample network: one symbol answers, one fails, nothing else is known. *)
Definition sample_fetch (v : Py.value) : Py.outcome nat :=
  match v with
  | Py.VStr s =>
      if String.eqb s "AAPL"%string then Py.Done 60
      else if String.eqb s "MSFT"%string then Py.Done 61
      else Py.Raise Py.RuntimeError
  | _ => Py.Raise Py.OtherException
  end.

Definition sample_concat (frames : list nat) : Py.outcome nat :=
  Py.Done (fold_right Nat.add 0 frames).


(** A raw file of five rows: one repeated, one without close, one without
    date, out of date order, under an upper-case header. *)
Definition sample_row (d : option Z) (c : option Z) : Row Z :=
  {| row_date := d; row_symbol := Some 1%Z; row_open := Some 10%Z;
     row_high := Some 12%Z; row_low := Some 9%Z; row_close := c;
     row_volume := None; row_other := [] |}.

Definition sample_raw : CsvFile Z :=
  {| csv_columns := [ "Date"; "Symbol"; "OPEN"; "High"; "Low"; "Close";
                      "Volume" ]%string;
     csv_rows := [ sample_row (Some 3%Z) (Some 11%Z);
                   sample_row (Some 1%Z) (Some 10%Z);
                   sample_row (Some 3%Z) (Some 11%Z);
                   sample_row (Some 2%Z) None;
                   sample_row None (Some 12%Z) ] |}.

Definition sample_disk : Disk Z :=
  {| csv_at := fun p => if String.eqb p default_raw_csv then Some sample_raw
                        else None;
     report_at := fun _ => None |}.

(** The same disk, the header of the raw file in lower case. *)
Definition sample_disk_lower : Disk Z :=
  {| csv_at := fun p =>
       if String.eqb p default_raw_csv
       then Some {| csv_columns := map lower (csv_columns sample_raw);
                    csv_rows := csv_rows sample_raw |}
       else None;
     report_at := fun _ => None |}.

Definition sample_disk_cleaned : Disk Z :=
  match ensure_clean_csv_exists Z.eq_dec default_raw_csv default_cleaned_csv
                                default_report_path sample_disk with
  | Py.Done d' => d'
  | Py.Raise _ => sample_disk
  end.

Definition sample_disk_after_clean_data : Disk Z :=
  match clean_data_main sample_disk_lower with
  | Py.Done d' => d'
  | Py.Raise _ => sample_disk_lower
  end.

(** A day-first reading of the cleaned sample file, whose rows are dated 1
    and 3: with the days counted from the first of January, the third of
    January read day first is the first of March. *)
Definition sample_dayfirst (f : CsvFile Z) (i : nat) : option Z :=
  nth i [ Some 1%Z; Some 61%Z ] None.

(** What a row says of the trade apart from the quantity and the pnl. *)
Definition trade_facts (o : Order)
  : option Z * option Q * option Z * option Q * option Z :=
  (entry_dt o, entry_price o, exit_dt o, exit_price o, bars_held o).

Definition same_facts (o o' : Order) : Prop := trade_facts o = trade_facts o'.

Definition same_state (st st' : SimState) : Prop :=
  position st = position st' /\
  st_entry_price st = st_entry_price st' /\
  st_entry_dt st = st_entry_dt st' /\
  st_entry_idx st = st_entry_idx st' /\
  Forall2 same_facts (orders st) (orders st').

(** * Proofs *)

(** ** Positional access in the series operations *)

Section SeriesAccess.

Context {A B : Type}.

Lemma nth_error_combine (a : list A) (b : list B) (i : nat) :
  nth_error (combine a b) i =
  match nth_error a i, nth_error b i with
  | Some x, Some y => Some (x, y)
  | _, _ => None
  end.
Proof.
  revert b i; induction a as [|x a IH]; intros [|y b] [|i]; simpl; auto;
    destruct (nth_error a i); reflexivity.
Qed.

Lemma length_shift (fill : A) (s : list A) : length (shift fill s) = length s.
Proof.
  unfold shift. rewrite length_firstn. simpl. lia.
Qed.

Lemma nth_error_firstn_lt (l : list A) (n i : nat) :
  (i < n)%nat -> nth_error (firstn n l) i = nth_error l i.
Proof.
  revert n i; induction l as [|x l IH]; intros [|n] [|i] H; simpl; auto; try lia.
  apply IH; lia.
Qed.

Lemma nth_error_shift_0 (fill : A) (s : list A) :
  s <> [] -> nth_error (shift fill s) 0 = Some fill.
Proof.
  destruct s as [|x s]; [congruence|]. reflexivity.
Qed.

Lemma nth_error_shift_S (fill : A) (s : list A) (i : nat) :
  (S i < length s)%nat -> nth_error (shift fill s) (S i) = nth_error s i.
Proof.
  intros H. unfold shift. rewrite nth_error_firstn_lt by lia. reflexivity.
Qed.

Lemma nth_error_shift_None (fill : A) (s : list A) (i : nat) :
  (length s <= i)%nat -> nth_error (shift fill s) i = None.
Proof.
  intros H. apply nth_error_None. rewrite length_shift. exact H.
Qed.

End SeriesAccess.

(** ** The rolling mean *)

Section Rolling.

Variables (w m : nat) (xs : list Q).

Lemma length_rolling_mean : length (rolling_mean w m xs) = length xs.
Proof.
  unfold rolling_mean. now rewrite length_map, length_seq.
Qed.

Lemma length_window_at i :
  i < length xs -> length (window_at w i xs) = Nat.min (i + 1) w.
Proof.
  intros H. unfold window_at. rewrite length_firstn, length_skipn. lia.
Qed.

Lemma nth_error_rolling_mean i :
  i < length xs ->
  nth_error (rolling_mean w m xs) i =
  Some (if length (window_at w i xs) <? m then None
        else Some (mean (window_at w i xs))).
Proof.
  intros H. unfold rolling_mean. rewrite nth_error_map, nth_error_seq.
  destruct (Nat.ltb_spec i (length xs)); [reflexivity | lia].
Qed.

Lemma nth_error_rolling_mean_out i :
  length xs <= i -> nth_error (rolling_mean w m xs) i = None.
Proof.
  intros H. apply nth_error_None. now rewrite length_rolling_mean.
Qed.

End Rolling.

Lemma nth_cons_seq (d x : Q) (l : list Q) (k n : nat) :
  map (fun j => nth j (x :: l) d) (seq (S k) n) =
  map (fun j => nth j l d) (seq k n).
Proof.
  rewrite <- seq_shift, map_map. reflexivity.
Qed.

Lemma firstn_skipn_range (d : Q) (l : list Q) :
  forall k n, k + n <= length l ->
              firstn n (skipn k l) = map (fun j => nth j l d) (seq k n).
Proof.
  induction l as [|x l IH]; intros k n H; simpl in H.
  - assert (k = 0) by lia. assert (n = 0) by lia. subst. reflexivity.
  - destruct k as [|k].
    + destruct n as [|n]; [reflexivity|].
      change (x :: firstn n l = x :: map (fun j => nth j (x :: l) d) (seq 1 n)).
      f_equal. rewrite nth_cons_seq. rewrite <- (IH 0 n) by lia. reflexivity.
    + cbn [skipn]. rewrite nth_cons_seq. apply IH. lia.
Qed.

Lemma window_at_range (w i : nat) (xs : list Q) :
  w <= i + 1 -> i < length xs ->
  window_at w i xs = map (fun j => nth j xs 0%Q) (seq (i + 1 - w) w).
Proof.
  intros Hw Hi. unfold window_at.
  replace (i + 1 - (i + 1 - w)) with w by lia.
  apply firstn_skipn_range. lia.
Qed.

(** With [min_periods = window = w], row [i] carries a value exactly from
    row [w - 1] on, and the value is the mean of the last [w] closes. *)
Lemma rolling_mean_defined (w : nat) (xs : list Q) (i : nat) :
  i < length xs -> w <= i + 1 ->
  nth_error (rolling_mean w w xs) i = Some (Some (spec_window_mean xs i w)).
Proof.
  intros Hi Hw. rewrite nth_error_rolling_mean by exact Hi.
  rewrite length_window_at by exact Hi.
  destruct (Nat.ltb_spec (Nat.min (i + 1) w) w); [lia|].
  unfold mean, spec_window_mean.
  rewrite window_at_range by assumption.
  now rewrite length_map, length_seq.
Qed.

Lemma rolling_mean_undefined (w : nat) (xs : list Q) (i : nat) :
  i < length xs -> i + 1 < w ->
  nth_error (rolling_mean w w xs) i = Some None.
Proof.
  intros Hi Hw. rewrite nth_error_rolling_mean by exact Hi.
  rewrite length_window_at by exact Hi.
  destruct (Nat.ltb_spec (Nat.min (i + 1) w) w); [reflexivity|lia].
Qed.

Lemma rolling_mean_None_iff (w : nat) (xs : list Q) (i : nat) :
  nth_error (rolling_mean w w xs) i = Some None <-> i < length xs /\ i + 1 < w.
Proof.
  split.
  - intros H.
    destruct (Nat.lt_ge_cases i (length xs)) as [Hi|Hi].
    + split; [exact Hi|].
      destruct (Nat.lt_ge_cases (i + 1) w) as [Hw|Hw]; [exact Hw|].
      rewrite rolling_mean_defined in H by assumption. discriminate.
    + rewrite nth_error_rolling_mean_out in H by exact Hi. discriminate.
  - intros [Hi Hw]. now apply rolling_mean_undefined.
Qed.

Lemma rolling_mean_Some_iff (w : nat) (xs : list Q) (i : nat) (a : Q) :
  nth_error (rolling_mean w w xs) i = Some (Some a) <->
  i < length xs /\ w <= i + 1 /\ a = spec_window_mean xs i w.
Proof.
  split.
  - intros H.
    destruct (Nat.lt_ge_cases i (length xs)) as [Hi|Hi].
    + destruct (Nat.lt_ge_cases (i + 1) w) as [Hw|Hw].
      * rewrite rolling_mean_undefined in H by assumption. discriminate.
      * rewrite rolling_mean_defined in H by assumption.
        repeat split; try assumption. congruence.
    + rewrite nth_error_rolling_mean_out in H by exact Hi. discriminate.
  - intros (Hi & Hw & ->). now apply rolling_mean_defined.
Qed.

(** ** The crossover masks, row by row *)

Lemma nth_error_series_gt (a b : list (option Q)) (i : nat) :
  nth_error (series_gt a b) i =
  match nth_error a i, nth_error b i with
  | Some x, Some y => Some (gt x y)
  | _, _ => None
  end.
Proof.
  unfold series_gt. rewrite nth_error_map, nth_error_combine.
  destruct (nth_error a i), (nth_error b i); reflexivity.
Qed.

Lemma nth_error_series_and (a b : list bool) (i : nat) :
  nth_error (series_and a b) i =
  match nth_error a i, nth_error b i with
  | Some x, Some y => Some (x && y)
  | _, _ => None
  end.
Proof.
  unfold series_and. rewrite nth_error_map, nth_error_combine.
  destruct (nth_error a i), (nth_error b i); reflexivity.
Qed.

Lemma nth_error_series_not (a : list bool) (i : nat) :
  nth_error (series_not a) i = option_map negb (nth_error a i).
Proof.
  unfold series_not. apply nth_error_map.
Qed.

Lemma nth_error_where_array (c : list bool) (x : Z) (y : list Z) (i : nat) :
  nth_error (where_array c x y) i =
  match nth_error c i, nth_error y i with
  | Some b, Some v => Some (if b then x else v)
  | _, _ => None
  end.
Proof.
  unfold where_array. rewrite nth_error_map, nth_error_combine.
  destruct (nth_error c i), (nth_error y i); reflexivity.
Qed.

Lemma nth_error_where_scalar (c : list bool) (x y : Z) (i : nat) :
  nth_error (where_scalar c x y) i =
  option_map (fun b : bool => if b then x else y) (nth_error c i).
Proof.
  unfold where_scalar. apply nth_error_map.
Qed.

Section Masks.

Variable ind : Indicators.

Lemma nth_error_fast_gt i :
  i < length (fast_gt ind) -> nth_error (fast_gt ind) i = Some (above ind i).
Proof.
  intros H. unfold above. now apply nth_error_nth'.
Qed.

Lemma above_out i : length (fast_gt ind) <= i -> above ind i = false.
Proof.
  intros H. unfold above. now apply nth_overflow.
Qed.

Lemma nth_error_cross_up i :
  i < length (fast_gt ind) ->
  nth_error (cross_up ind) i =
  Some (above ind i &&
        match i with O => false | S j => negb (above ind j) end).
Proof.
  intros H. unfold cross_up. rewrite nth_error_series_and.
  rewrite nth_error_fast_gt by exact H.
  destruct i as [|j].
  - rewrite nth_error_shift_0; [reflexivity|].
    unfold series_not. destruct (fast_gt ind); simpl in *; [lia|discriminate].
  - rewrite nth_error_shift_S
      by (unfold series_not; rewrite length_map; exact H).
    rewrite nth_error_series_not, nth_error_fast_gt by lia. reflexivity.
Qed.

Lemma nth_error_cross_dn i :
  i < length (fast_gt ind) ->
  nth_error (cross_dn ind) i =
  Some (negb (above ind i) &&
        match i with O => false | S j => above ind j end).
Proof.
  intros H. unfold cross_dn. rewrite nth_error_series_and.
  rewrite nth_error_series_not, nth_error_fast_gt by exact H.
  destruct i as [|j].
  - rewrite nth_error_shift_0; [reflexivity|].
    destruct (fast_gt ind); simpl in *; [lia|discriminate].
  - rewrite nth_error_shift_S by exact H.
    rewrite nth_error_fast_gt by lia. reflexivity.
Qed.

Lemma length_cross_up : length (cross_up ind) = length (fast_gt ind).
Proof.
  unfold cross_up, series_and, series_not.
  rewrite length_map, length_combine, length_shift, length_map. lia.
Qed.

Lemma length_cross_dn : length (cross_dn ind) = length (fast_gt ind).
Proof.
  unfold cross_dn, series_and, series_not.
  rewrite length_map, length_combine, length_shift, length_map. lia.
Qed.

Lemma length_raw_signal : length (raw_signal ind) = length (fast_gt ind).
Proof.
  unfold raw_signal, where_array, where_scalar.
  rewrite length_map, length_combine, length_map.
  rewrite length_cross_up, length_cross_dn. lia.
Qed.

Lemma length_signal : length (signal ind) = length (fast_gt ind).
Proof.
  unfold signal, lag. rewrite length_shift. apply length_raw_signal.
Qed.

Lemma nth_error_raw_signal i :
  i < length (fast_gt ind) ->
  nth_error (raw_signal ind) i = Some (raw_code ind i).
Proof.
  intros H. unfold raw_signal.
  rewrite nth_error_where_array, nth_error_where_scalar.
  rewrite nth_error_cross_up, nth_error_cross_dn by exact H.
  destruct i as [|j]; simpl.
  - rewrite !andb_false_r. reflexivity.
  - reflexivity.
Qed.

Lemma nth_error_signal_0 :
  0 < length (fast_gt ind) -> nth_error (signal ind) 0 = Some 0%Z.
Proof.
  intros H. unfold signal, lag. apply nth_error_shift_0.
  intros E. pose proof length_raw_signal as L. rewrite E in L. simpl in L. lia.
Qed.

Lemma nth_error_signal_S i :
  S i < length (fast_gt ind) ->
  nth_error (signal ind) (S i) = Some (raw_code ind i).
Proof.
  intros H. unfold signal, lag.
  rewrite nth_error_shift_S by (rewrite length_raw_signal; exact H).
  apply nth_error_raw_signal. lia.
Qed.

End Masks.

(** ** [fast_gt] on the computed indicators *)

Lemma gt_Some_iff (a b : Q) : gt (Some a) (Some b) = true <-> (b < a)%Q.
Proof.
  simpl. rewrite negb_true_iff. split.
  - intros H. apply Qnot_le_lt. intros L.
    apply Qle_bool_iff in L. congruence.
  - intros H. destruct (Qle_bool a b) eqn:E; [|reflexivity].
    apply Qle_bool_iff in E. exfalso. exact (Qlt_not_le _ _ H E).
Qed.

Section Crossover.

Variables (fast slow : nat) (xs : list Q).

Lemma length_fast_gt :
  length (fast_gt (compute_indicators fast slow xs)) = length xs.
Proof.
  unfold fast_gt, series_gt, compute_indicators; simpl.
  rewrite length_map, length_combine, !length_rolling_mean. lia.
Qed.

Lemma fast_gt_at i :
  i < length xs ->
  nth_error (fast_gt (compute_indicators fast slow xs)) i =
  Some (gt (if i + 1 <? fast then None else Some (spec_window_mean xs i fast))
           (if i + 1 <? slow then None else Some (spec_window_mean xs i slow))).
Proof.
  intros H. unfold fast_gt, compute_indicators; simpl.
  rewrite nth_error_series_gt.
  destruct (Nat.ltb_spec (i + 1) fast) as [Hf|Hf];
    destruct (Nat.ltb_spec (i + 1) slow) as [Hs|Hs];
    repeat first [ rewrite rolling_mean_undefined by assumption
                 | rewrite rolling_mean_defined by assumption ];
    reflexivity.
Qed.

Lemma above_true_iff i :
  above (compute_indicators fast slow xs) i = true <->
  i < length xs /\ fast <= i + 1 /\ slow <= i + 1 /\
  (spec_window_mean xs i slow < spec_window_mean xs i fast)%Q.
Proof.
  split.
  - intros H.
    destruct (Nat.lt_ge_cases i (length xs)) as [Hi|Hi].
    2:{ rewrite above_out in H by (rewrite length_fast_gt; exact Hi).
        discriminate. }
    pose proof (nth_error_fast_gt (compute_indicators fast slow xs) i) as E.
    rewrite length_fast_gt in E. specialize (E Hi).
    rewrite fast_gt_at in E by exact Hi. rewrite H in E.
    destruct (Nat.ltb_spec (i + 1) fast) as [Hf|Hf]; [discriminate|].
    destruct (Nat.ltb_spec (i + 1) slow) as [Hs|Hs]; [discriminate|].
    repeat split; try assumption.
    apply gt_Some_iff. congruence.
  - intros (Hi & Hf & Hs & Hlt).
    pose proof (nth_error_fast_gt (compute_indicators fast slow xs) i) as E.
    rewrite length_fast_gt in E. specialize (E Hi).
    rewrite fast_gt_at in E by exact Hi.
    destruct (Nat.ltb_spec (i + 1) fast) as [Hf'|_]; [lia|].
    destruct (Nat.ltb_spec (i + 1) slow) as [Hs'|_]; [lia|].
    apply gt_Some_iff in Hlt. congruence.
Qed.

Lemma above_before_window i :
  i + 1 < fast \/ i + 1 < slow ->
  above (compute_indicators fast slow xs) i = false.
Proof.
  intros H. destruct (above (compute_indicators fast slow xs) i) eqn:E;
    [|reflexivity].
  apply above_true_iff in E. lia.
Qed.

(** Before both windows are full every raw code is 0. *)
Lemma raw_code_before_window i :
  i + 1 < fast \/ i + 1 < slow ->
  raw_code (compute_indicators fast slow xs) i = 0%Z.
Proof.
  intros H. destruct i as [|j]; [reflexivity|]. simpl.
  rewrite above_before_window by exact H.
  rewrite above_before_window by lia. reflexivity.
Qed.

End Crossover.

(** ** The simulation loop *)

Lemma chained_closed_app lo ivs e x :
  chained_closed lo ivs -> last_exit lo ivs < e -> e < x ->
  chained_closed lo (ivs ++ [(e, x)]).
Proof.
  revert lo; induction ivs as [|[e0 x0] ivs IH]; intros lo Hc Hl Hx; simpl in *.
  - auto.
  - destruct Hc as (H1 & H2 & H3). auto.
Qed.

Lemma last_exit_app lo ivs e x : last_exit lo (ivs ++ [(e, x)]) = x.
Proof.
  revert lo; induction ivs as [|[e0 x0] ivs IH]; intros lo; simpl; auto.
Qed.

Lemma chained_trace_of lo ivs oe :
  chained_closed lo ivs ->
  match oe with Some e => last_exit lo ivs < e | None => True end ->
  chained lo (trace_of ivs oe).
Proof.
  unfold trace_of.
  revert lo; induction ivs as [|[e0 x0] ivs IH]; intros lo Hc Ho; simpl in *.
  - destruct oe; simpl; auto.
  - destruct Hc as (H1 & H2 & H3). auto.
Qed.

Lemma loop_inv_init q bars sig_series :
  loop_inv q bars sig_series 0 init_state [] None.
Proof.
  constructor; simpl; auto. repeat split; auto.
Qed.

Lemma iloc_Ok {A : Type} (s : list A) (i : nat) :
  i < length s -> exists a, nth_error s i = Some a /\ iloc s i = Ok a.
Proof.
  intros H. unfold iloc. destruct (nth_error s i) as [a|] eqn:E.
  - eauto.
  - apply nth_error_None in E. lia.
Qed.

Lemma step_preserves q bars sig_series k st ivs oe :
  loop_inv q bars sig_series k st ivs oe ->
  k + 1 < length bars -> k < length sig_series ->
  exists st' ivs' oe',
    step q bars sig_series st k = Ok st' /\
    loop_inv q bars sig_series (k + 1) st' ivs' oe'.
Proof.
  intros [Hrows Hchain Hfired Hpos] Hb Hs.
  destruct (iloc_Ok sig_series k Hs) as (s & Es & Is).
  destruct (iloc_Ok bars (k + 1) Hb) as (nb & Eb & Ib).
  unfold step. rewrite Is, Ib. cbn [bind].
  destruct oe as [e|].
  - (* LONG *)
    destruct Hpos as ((Hp & be & Ebe & Hidx & Hpr & Hdt) & Hle & Hf).
    rewrite Hp. cbn [Z.eqb Pos.eqb andb].
    destruct (s =? -1)%Z eqn:Hsig.
    + apply Z.eqb_eq in Hsig. subst s.
      rewrite Hpr. cbn [float_of bind].
      eexists _, (ivs ++ [(e, k + 1)]), None. split; [reflexivity|].
      constructor; cbn [orders position st_entry_price st_entry_dt st_entry_idx].
      * apply Forall2_app; [exact Hrows|].
        constructor; [|constructor].
        exists be, nb. cbn [fst snd]. repeat split; try assumption.
        unfold closed_row. rewrite Hdt, Hpr, Hidx. reflexivity.
      * apply chained_closed_app; [assumption| |]; lia.
      * apply Forall_app. split; [exact Hfired|].
        constructor; [|constructor].
        split; [exact (proj1 Hf)|].
        cbn [as_closed fst snd]. exists k. split; [lia|exact Es].
      * split; [repeat split; reflexivity|].
        rewrite last_exit_app. lia.
    + eexists st, ivs, (Some e). split; [reflexivity|].
      constructor; try assumption.
      split; [|split]; [|lia|exact Hf].
      split; [exact Hp|]. exists be. auto.
  - (* FLAT *)
    destruct Hpos as ((Hp & Hpr & Hdt & Hidx) & Hle).
    rewrite Hp. cbn [Z.eqb andb].
    destruct (s =? 1)%Z eqn:Hsig.
    + apply Z.eqb_eq in Hsig. subst s.
      eexists _, ivs, (Some (k + 1)). split; [reflexivity|].
      constructor; cbn [orders position st_entry_price st_entry_dt st_entry_idx];
        try assumption.
      split; [|split]; [|lia|].
      * split; [reflexivity|]. exists nb. auto.
      * split; [|exact I]. exists k. split; [cbn [fst]; lia|exact Es].
    + eexists st, ivs, None. split; [reflexivity|].
      constructor; try assumption.
      split; [repeat split; assumption|lia].
Qed.

Lemma for_each_preserves q bars sig_series :
  forall m k st ivs oe,
    loop_inv q bars sig_series k st ivs oe ->
    k + m <= length bars - 1 -> k + m <= length sig_series ->
    exists st' ivs' oe',
      for_each (step q bars sig_series) (seq k m) st = Ok st' /\
      loop_inv q bars sig_series (k + m) st' ivs' oe'.
Proof.
  induction m as [|m IH]; intros k st ivs oe Hinv Hb Hs.
  - exists st, ivs, oe. rewrite Nat.add_0_r. split; [reflexivity|assumption].
  - cbn [seq for_each].
    destruct (step_preserves q bars sig_series k st ivs oe Hinv)
      as (st1 & ivs1 & oe1 & E1 & Hinv1); try lia.
    rewrite E1. cbn [bind].
    replace (k + 1) with (S k) in Hinv1 by lia.
    destruct (IH (S k) st1 ivs1 oe1 Hinv1) as (st2 & ivs2 & oe2 & E2 & Hinv2);
      try lia.
    exists st2, ivs2, oe2. split; [exact E2|].
    replace (k + S m) with (S k + m) by lia. exact Hinv2.
Qed.

(** The loop never raises, and its final state satisfies the invariant. *)
Lemma simulate_inv q bars sig_series :
  length sig_series = length bars ->
  exists st ivs oe,
    simulate q bars sig_series = Ok st /\
    loop_inv q bars sig_series (length bars - 1) st ivs oe.
Proof.
  intros L. unfold simulate.
  apply (for_each_preserves q bars sig_series (length bars - 1) 0
                            init_state [] None);
    [apply loop_inv_init | lia | lia].
Qed.

(** ** The flush and the trace of a run *)

Lemma trade_at_entry q bars t o :
  trade_at q bars t o ->
  exists be, nth_error bars (fst t) = Some be /\
             entry_dt o = Some (date be) /\
             entry_price o = Some (open be) /\ qty o = q.
Proof.
  destruct t as [e [x|]]; unfold trade_at; cbn [fst snd].
  - intros (be & bx & He & Hx & ->). exists be. auto.
  - intros (be & He & ->). exists be. auto.
Qed.

Lemma closed_rows_trace q bars ivs rows :
  Forall2 (fun iv => closed_at q bars (fst iv) (snd iv)) ivs rows ->
  Forall2 (trade_at q bars) (map as_closed ivs) rows.
Proof.
  induction 1 as [|iv o ivs rows H _ IH]; simpl; constructor; auto.
Qed.

Lemma flush_trace q bars sig_series k st ivs oe :
  loop_inv q bars sig_series k st ivs oe ->
  Forall2 (trade_at q bars) (trace_of ivs oe) (flush q st) /\
  chained 0 (trace_of ivs oe) /\
  Forall (fired sig_series) (trace_of ivs oe).
Proof.
  intros [Hrows Hchain Hfired Hpos]. unfold flush.
  destruct oe as [e|].
  - destruct Hpos as ((Hp & be & Ebe & Hidx & Hpr & Hdt) & Hle & Hf).
    rewrite Hp. cbn [Z.eqb Pos.eqb].
    split; [|split].
    + unfold trace_of.
      apply Forall2_app; [apply closed_rows_trace; exact Hrows|].
      constructor; [|constructor].
      exists be. split; [exact Ebe|].
      unfold open_row. rewrite Hdt, Hpr. reflexivity.
    + apply chained_trace_of; [assumption|lia].
    + unfold trace_of. apply Forall_app. split.
      * apply Forall_map. exact Hfired.
      * constructor; [exact Hf|constructor].
  - destruct Hpos as ((Hp & _) & _). rewrite Hp. cbn [Z.eqb].
    split; [|split].
    + unfold trace_of. rewrite app_nil_r.
      apply closed_rows_trace; exact Hrows.
    + apply chained_trace_of; [assumption|exact I].
    + unfold trace_of. rewrite app_nil_r. apply Forall_map. exact Hfired.
Qed.

Lemma chained_lower lo tr t :
  chained lo tr -> In t tr -> lo < fst t.
Proof.
  revert lo; induction tr as [|[e [x|]] tr IH]; intros lo Hc Hin; simpl in *.
  - contradiction.
  - destruct Hc as (H1 & H2 & H3). destruct Hin as [<-|Hin]; [simpl; lia|].
    specialize (IH x H3 Hin). lia.
  - destruct Hc as (H1 & ->). destruct Hin as [<-|[]]. simpl; lia.
Qed.

Lemma chained_no_overlap lo tr : chained lo tr -> no_overlap tr.
Proof.
  revert lo; induction tr as [|[e [x|]] tr IH]; intros lo Hc i j t1 t2 Hij H1 H2.
  - destruct i; discriminate.
  - simpl in Hc. destruct Hc as (Hlo & Hex & Hc).
    destruct j as [|j]; [lia|]. simpl in H2.
    destruct i as [|i].
    + simpl in H1. injection H1 as <-. exists x. cbn [fst snd].
      repeat split; [exact Hex|].
      apply (chained_lower x tr t2 Hc). eapply nth_error_In; eassumption.
    + simpl in H1. apply (IH x Hc i j t1 t2); [lia|assumption|assumption].
  - simpl in Hc. destruct Hc as (_ & ->).
    destruct j as [|j]; [lia|]. destruct j; discriminate.
Qed.

(** ** Sorting the ledger *)

Lemma sort_values_sorted l : Sorted entry_le l -> sort_values l = l.
Proof.
  induction 1 as [|a l Hs IH Hd]; [reflexivity|].
  simpl. rewrite IH. destruct Hd as [|b l Hab]; [reflexivity|].
  simpl. unfold entry_le in Hab. now rewrite Hab.
Qed.

Lemma insert_by_perm o l : Permutation (insert_by o l) (o :: l).
Proof.
  induction l as [|h t IH]; simpl; [reflexivity|].
  destruct (key_leb (entry_dt o) (entry_dt h)); [reflexivity|].
  rewrite IH. apply perm_swap.
Qed.

Lemma sort_values_perm l : Permutation (sort_values l) l.
Proof.
  induction l as [|a l IH]; simpl; [reflexivity|].
  rewrite insert_by_perm. now constructor.
Qed.

Lemma assemble_perm l : Permutation (assemble l) l.
Proof.
  destruct l; [reflexivity|]. apply sort_values_perm.
Qed.

Lemma assemble_sorted l : Sorted entry_le l -> assemble l = l.
Proof.
  destruct l; [reflexivity|]. apply sort_values_sorted.
Qed.

Lemma dates_increasing_nth bars :
  dates_increasing bars ->
  forall i j bi bj,
    i < j -> nth_error bars i = Some bi -> nth_error bars j = Some bj ->
    (date bi < date bj)%Z.
Proof.
  unfold dates_increasing.
  induction bars as [|b bars IH]; intros Hs i j bi bj Hij Hi Hj.
  - destruct i; discriminate.
  - simpl in Hs. apply StronglySorted_inv in Hs. destruct Hs as [Hs Hall].
    destruct j as [|j]; [lia|]. simpl in Hj.
    destruct i as [|i]; simpl in Hi.
    + injection Hi as <-. rewrite Forall_forall in Hall. apply Hall.
      apply in_map. eapply nth_error_In; eassumption.
    + apply (IH Hs i j); [lia|assumption|assumption].
Qed.

Lemma key_leb_trans a b c :
  key_leb a b = true -> key_leb b c = true -> key_leb a c = true.
Proof.
  destruct a as [x|], b as [y|], c as [z|]; simpl; try congruence.
  rewrite !Z.leb_le. lia.
Qed.

Lemma key_leb_total a b : key_leb a b = false -> key_leb b a = true.
Proof.
  destruct a as [x|], b as [y|]; simpl; try congruence.
  rewrite Z.leb_gt, Z.leb_le. lia.
Qed.

Lemma entry_lt_le a b : entry_lt a b -> entry_le a b.
Proof.
  apply key_leb_total.
Qed.

Lemma Sorted_entry_lt_le l : Sorted entry_lt l -> Sorted entry_le l.
Proof.
  induction 1 as [|a l Hs IH Hd]; constructor; [exact IH|].
  destruct Hd as [|b l Hab]; constructor. apply entry_lt_le. exact Hab.
Qed.

(** With strictly increasing dates the rows of a chain have strictly
    increasing entry dates. *)
Lemma rows_strictly_sorted q bars :
  dates_increasing bars ->
  forall tr rows lo,
    Forall2 (trade_at q bars) tr rows -> chained lo tr ->
    Sorted entry_lt rows.
Proof.
  intros Hd tr rows lo H. revert lo.
  induction H as [|t o tr rows Ht Hrest IH]; intros lo Hc; [constructor|].
  destruct t as [e [x|]]; simpl in Hc.
  - destruct Hc as (Hlo & Hex & Hc).
    constructor; [apply (IH x Hc)|].
    destruct Hrest as [|t' o' tr' rows' Ht' _]; [constructor|].
    constructor.
    destruct (trade_at_entry _ _ _ _ Ht) as (be & Ebe & Edt & _).
    destruct (trade_at_entry _ _ _ _ Ht') as (be' & Ebe' & Edt' & _).
    unfold entry_lt. rewrite Edt, Edt'. simpl. apply Z.leb_gt.
    assert (x < fst t') by (apply (chained_lower x (t' :: tr')); simpl; auto).
    cbn [fst] in Ebe.
    apply (dates_increasing_nth bars Hd e (fst t') be be'); [lia|assumption..].
  - destruct Hc as (_ & ->). inversion Hrest; subst.
    constructor; constructor.
Qed.

Lemma rows_sorted q bars :
  dates_increasing bars ->
  forall tr rows lo,
    Forall2 (trade_at q bars) tr rows -> chained lo tr ->
    Sorted entry_le rows.
Proof.
  intros Hd tr rows lo H Hc. apply Sorted_entry_lt_le.
  exact (rows_strictly_sorted q bars Hd tr rows lo H Hc).
Qed.

(** Rows with strictly increasing entry dates have only one arrangement
    sorted by entry date: whatever algorithm [sort_values] runs, stable or
    not, it returns them as they are. *)
Lemma sorted_arrangement_unique l :
  Sorted entry_lt l ->
  forall l', Permutation l' l -> Sorted entry_le l' -> l' = l.
Proof.
  intros Hl. apply Sorted_StronglySorted in Hl.
  2:{ intros a b c Hab Hbc. unfold entry_lt in *.
      destruct (key_leb (entry_dt c) (entry_dt a)) eqn:E; [|reflexivity].
      assert (key_leb (entry_dt c) (entry_dt b) = true)
        by (apply key_leb_trans with (b := entry_dt a);
            [exact E|apply key_leb_total; exact Hab]).
      congruence. }
  induction Hl as [|a l Hl IH Ha]; intros l' Hp Hs.
  - apply Permutation_nil. symmetry. exact Hp.
  - destruct l' as [|b l'].
    + apply Permutation_nil_cons in Hp. contradiction.
    + apply Sorted_StronglySorted in Hs.
      2:{ intros x y z. unfold entry_le. apply key_leb_trans. }
      apply StronglySorted_inv in Hs. destruct Hs as [Hs Hb].
      assert (E : b = a).
      { assert (Hin : In b (a :: l))
          by (apply (Permutation_in b Hp); left; reflexivity).
        destruct Hin as [E|Hin]; [symmetry; exact E|].
        assert (Hin' : In a (b :: l'))
          by (apply (Permutation_in a (Permutation_sym Hp)); left; reflexivity).
        destruct Hin' as [E|Hin']; [exact E|].
        rewrite Forall_forall in Ha, Hb.
        specialize (Ha b Hin). specialize (Hb a Hin').
        unfold entry_lt in Ha. unfold entry_le in Hb. congruence. }
      subst b. f_equal. apply IH.
      * apply Permutation_cons_inv with (a := a). exact Hp.
      * apply StronglySorted_Sorted. exact Hs.
Qed.

(** ** The run as a whole *)

Lemma length_signal_run fast slow bars :
  length (signal (indicators_of fast slow bars)) = length bars.
Proof.
  rewrite length_signal. unfold indicators_of. rewrite length_fast_gt.
  apply length_map.
Qed.

Lemma validate_Ok fast slow :
  (0 < fast)%Z -> (0 < slow)%Z -> validate fast slow = Ok tt.
Proof.
  intros Hf Hs. unfold validate.
  destruct (Z.leb_spec fast 0); [lia|].
  destruct (Z.leb_spec slow 0); [lia|]. reflexivity.
Qed.

Lemma validate_Err fast slow :
  (fast <= 0 \/ slow <= 0)%Z -> validate fast slow = Err InvalidParameter.
Proof.
  intros H. unfold validate.
  destruct (Z.leb_spec fast 0); [reflexivity|].
  destruct (Z.leb_spec slow 0); [reflexivity|lia].
Qed.

Lemma run_valid fast slow q bars :
  (0 < fast)%Z -> (0 < slow)%Z ->
  exists st ivs oe,
    simulate q bars (signal (indicators_of fast slow bars)) = Ok st /\
    loop_inv q bars (signal (indicators_of fast slow bars))
             (length bars - 1) st ivs oe /\
    run_sma_crossover fast slow q bars = Ok (assemble (flush q st)).
Proof.
  intros Hf Hs.
  destruct (simulate_inv q bars (signal (indicators_of fast slow bars))
                         (length_signal_run fast slow bars))
    as (st & ivs & oe & E & Hinv).
  exists st, ivs, oe. split; [exact E|]. split; [exact Hinv|].
  unfold run_sma_crossover. rewrite validate_Ok by assumption.
  cbn [bind]. rewrite E. reflexivity.
Qed.

Lemma run_Ok_inv fast slow q bars ledger :
  run_sma_crossover fast slow q bars = Ok ledger ->
  (0 < fast)%Z /\ (0 < slow)%Z /\
  exists st ivs oe,
    simulate q bars (signal (indicators_of fast slow bars)) = Ok st /\
    loop_inv q bars (signal (indicators_of fast slow bars))
             (length bars - 1) st ivs oe /\
    ledger = assemble (flush q st).
Proof.
  intros H.
  destruct (Z.lt_ge_cases 0 fast) as [Hf|Hf];
    [destruct (Z.lt_ge_cases 0 slow) as [Hs|Hs]|].
  - destruct (run_valid fast slow q bars Hf Hs) as (st & ivs & oe & E & Hinv & R).
    split; [exact Hf|]. split; [exact Hs|]. exists st, ivs, oe.
    split; [exact E|]. split; [exact Hinv|]. congruence.
  - unfold run_sma_crossover in H.
    rewrite validate_Err in H by (right; exact Hs). discriminate.
  - unfold run_sma_crossover in H.
    rewrite validate_Err in H by (left; exact Hf). discriminate.
Qed.

Lemma Forall2_In_r {A B : Type} (R : A -> B -> Prop) la lb b :
  Forall2 R la lb -> In b lb -> exists a, In a la /\ R a b.
Proof.
  induction 1 as [|a b' la lb Hab _ IH]; intros Hin; [contradiction|].
  destruct Hin as [<-|Hin].
  - exists a. split; [left; reflexivity|exact Hab].
  - destruct (IH Hin) as (a' & Ha' & HR). exists a'. split; [right|]; assumption.
Qed.

Lemma chained_In_closed lo tr e x :
  chained lo tr -> In (e, Some x) tr -> e < x.
Proof.
  revert lo; induction tr as [|[e0 [x0|]] tr IH]; intros lo Hc Hin; simpl in *.
  - contradiction.
  - destruct Hc as (H1 & H2 & H3).
    destruct Hin as [E|Hin]; [injection E as <- <-; exact H2|].
    exact (IH x0 H3 Hin).
  - destruct Hc as (_ & ->). destruct Hin as [E|[]]. discriminate.
Qed.

(** Every row of the ledger is a trade of a chain on the bars, caused by
    the lagged signal read one row before each execution. *)
Lemma ledger_trace fast slow q bars ledger :
  run_sma_crossover fast slow q bars = Ok ledger ->
  exists tr rows,
    Permutation rows ledger /\
    Forall2 (trade_at q bars) tr rows /\
    chained 0 tr /\
    Forall (fired (signal (indicators_of fast slow bars))) tr /\
    (dates_increasing bars -> ledger = rows).
Proof.
  intros H.
  destruct (run_Ok_inv _ _ _ _ _ H) as (_ & _ & st & ivs & oe & _ & Hinv & ->).
  destruct (flush_trace _ _ _ _ _ _ _ Hinv) as (Hrows & Hchain & Hfired).
  exists (trace_of ivs oe), (flush q st).
  split; [symmetry; apply assemble_perm|].
  split; [exact Hrows|]. split; [exact Hchain|]. split; [exact Hfired|].
  intros Hd. apply assemble_sorted.
  exact (rows_sorted q bars Hd _ _ 0 Hrows Hchain).
Qed.

Lemma ledger_row fast slow q bars ledger o :
  run_sma_crossover fast slow q bars = Ok ledger -> In o ledger ->
  exists t,
    trade_at q bars t o /\
    fired (signal (indicators_of fast slow bars)) t /\
    match snd t with Some x => fst t < x | None => True end.
Proof.
  intros H Hin.
  destruct (ledger_trace _ _ _ _ _ H) as (tr & rows & Hp & Hrows & Hc & Hf & _).
  assert (Hin' : In o rows) by (eapply Permutation_in; [symmetry|]; eassumption).
  destruct (Forall2_In_r _ _ _ _ Hrows Hin') as (t & Ht & Hto).
  exists t. split; [exact Hto|]. split.
  - rewrite Forall_forall in Hf. exact (Hf t Ht).
  - destruct t as [e [x|]]; cbn [fst snd]; [|exact I].
    exact (chained_In_closed 0 tr e x Hc Ht).
Qed.

(** A row with an exit date is a closed trade. *)
Lemma closed_row_inv q bars t o :
  trade_at q bars t o -> exit_dt o <> None ->
  exists x, snd t = Some x /\ closed_at q bars (fst t) x o.
Proof.
  destruct t as [e [x|]]; unfold trade_at; cbn [fst snd]; intros H Hx.
  - exists x. auto.
  - destruct H as (be & _ & ->). simpl in Hx. congruence.
Qed.

(** ** The loop on the run's own signal *)

Lemma for_each_app f l1 l2 st :
  for_each f (l1 ++ l2) st = (st' <- for_each f l1 st ;; for_each f l2 st').
Proof.
  revert st; induction l1 as [|i l1 IH]; intros st; [reflexivity|].
  cbn [app for_each]. destruct (f st i) as [st1|e]; cbn [bind]; auto.
Qed.

Lemma step_ghost q bars sig_series k st ivs oe s :
  loop_inv q bars sig_series k st ivs oe ->
  k + 1 < length bars -> nth_error sig_series k = Some s ->
  exists st',
    step q bars sig_series st k = Ok st' /\
    loop_inv q bars sig_series (k + 1) st'
             (fst (ghost_step s k (ivs, oe))) (snd (ghost_step s k (ivs, oe))).
Proof.
  intros [Hrows Hchain Hfired Hpos] Hb Es.
  destruct (iloc_Ok bars (k + 1) Hb) as (nb & Eb & Ib).
  assert (Is : iloc sig_series k = Ok s) by (unfold iloc; rewrite Es; reflexivity).
  unfold step. rewrite Is, Ib. cbn [bind].
  unfold ghost_step. cbn [fst snd].
  destruct oe as [e|].
  - destruct Hpos as ((Hp & be & Ebe & Hidx & Hpr & Hdt) & Hle & Hf).
    rewrite Hp. cbn [Z.eqb Pos.eqb andb].
    destruct (s =? -1)%Z eqn:Hsig; cbn [fst snd].
    + apply Z.eqb_eq in Hsig. subst s.
      rewrite Hpr. cbn [float_of bind].
      eexists. split; [reflexivity|].
      constructor; cbn [orders position st_entry_price st_entry_dt st_entry_idx].
      * apply Forall2_app; [exact Hrows|].
        constructor; [|constructor].
        exists be, nb. cbn [fst snd]. repeat split; try assumption.
        unfold closed_row. rewrite Hdt, Hpr, Hidx. reflexivity.
      * apply chained_closed_app; [assumption| |]; lia.
      * apply Forall_app. split; [exact Hfired|].
        constructor; [|constructor].
        split; [exact (proj1 Hf)|].
        cbn [as_closed fst snd]. exists k. split; [lia|exact Es].
      * split; [repeat split; reflexivity|].
        rewrite last_exit_app. lia.
    + exists st. split; [reflexivity|].
      constructor; try assumption.
      split; [|split]; [|lia|exact Hf].
      split; [exact Hp|]. exists be. auto.
  - destruct Hpos as ((Hp & Hpr & Hdt & Hidx) & Hle).
    rewrite Hp. cbn [Z.eqb andb].
    destruct (s =? 1)%Z eqn:Hsig; cbn [fst snd].
    + apply Z.eqb_eq in Hsig. subst s.
      eexists. split; [reflexivity|].
      constructor; cbn [orders position st_entry_price st_entry_dt st_entry_idx];
        try assumption.
      split; [|split]; [|lia|].
      * split; [reflexivity|]. exists nb. auto.
      * split; [|exact I]. exists k. split; [cbn [fst]; lia|exact Es].
    + exists st. split; [reflexivity|].
      constructor; try assumption.
      split; [repeat split; assumption|lia].
Qed.

Lemma above_row0 (fast slow : nat) (xs : list Q) :
  0 < fast -> 0 < slow -> above (compute_indicators fast slow xs) 0 = false.
Proof.
  intros Hf Hs.
  destruct (above (compute_indicators fast slow xs) 0) eqn:E; [|reflexivity].
  apply above_true_iff in E. destruct E as (_ & Hf1 & Hs1 & Hlt).
  assert (fast = 1) by lia. assert (slow = 1) by lia. subst.
  exfalso. exact (Qlt_irrefl _ Hlt).
Qed.

(** How the signal read on row [k] moves the comparison forward. *)
Lemma held_next (fast slow : nat) (xs : list Q) (k : nat) (s : Z) :
  0 < fast -> 0 < slow ->
  nth_error (signal (compute_indicators fast slow xs)) k = Some s ->
  held (compute_indicators fast slow xs) (S k) =
  (if (s =? 1)%Z then true
   else if (s =? -1)%Z then false
        else held (compute_indicators fast slow xs) k) /\
  (s = 1%Z -> held (compute_indicators fast slow xs) k = false) /\
  (s = (-1)%Z -> held (compute_indicators fast slow xs) k = true).
Proof.
  intros Hf Hs E.
  assert (Hk : k < length (fast_gt (compute_indicators fast slow xs))).
  { rewrite <- length_signal. apply nth_error_Some. rewrite E. discriminate. }
  destruct k as [|[|j]].
  - rewrite nth_error_signal_0 in E by lia. injection E as <-.
    unfold held. change (2 <=? 1) with false. change (2 <=? 0) with false.
    cbn [andb Z.eqb].
    repeat split; intros; first [reflexivity | discriminate].
  - rewrite nth_error_signal_S in E by exact Hk. injection E as <-.
    unfold held. change (2 <=? 2) with true. change (2 <=? 1) with false.
    change (2 - 2) with 0. cbn [andb raw_code Z.eqb].
    rewrite above_row0 by assumption.
    repeat split; intros; first [reflexivity | discriminate].
  - rewrite nth_error_signal_S in E by exact Hk. injection E as <-.
    unfold held.
    change (2 <=? S (S (S j))) with true. change (2 <=? S (S j)) with true.
    change (S (S (S j)) - 2) with (S j). replace (S (S j) - 2) with j by lia.
    cbn [andb raw_code].
    destruct (above (compute_indicators fast slow xs) (S j)),
             (above (compute_indicators fast slow xs) j);
      cbn; repeat split; intros; first [reflexivity | discriminate].
Qed.

(** After [k] iterations on the run's own signal: the invariant of the loop,
    the position given by the comparison two rows back, and every signal read
    so far acted upon. *)
Lemma sync_prefix (fast slow q : Z) (bars : list Bar) :
  (0 < fast)%Z -> (0 < slow)%Z ->
  forall k, k <= length bars - 1 ->
  exists st ivs oe,
    for_each (step q bars (signal (indicators_of fast slow bars)))
             (seq 0 k) init_state = Ok st /\
    loop_inv q bars (signal (indicators_of fast slow bars)) k st ivs oe /\
    match oe with Some _ => true | None => false end
    = held (indicators_of fast slow bars) k /\
    (forall i, i < k ->
               nth_error (signal (indicators_of fast slow bars)) i = Some 1%Z ->
               (exists x, In (S i, x) ivs) \/ oe = Some (S i)) /\
    (forall j, j < k ->
               nth_error (signal (indicators_of fast slow bars)) j
               = Some (-1)%Z ->
               exists e, In (e, S j) ivs).
Proof.
  intros Hf Hs.
  induction k as [|k IH]; intros Hk.
  - exists init_state, [], None.
    split; [reflexivity|]. split; [apply loop_inv_init|].
    split; [reflexivity|]. split; intros; lia.
  - destruct IH as (st & ivs & oe & E & Hinv & Hheld & Hent & Hex); [lia|].
    assert (Hlen : k < length (signal (indicators_of fast slow bars)))
      by (rewrite length_signal_run; lia).
    destruct (nth_error (signal (indicators_of fast slow bars)) k) as [s|] eqn:Es;
      [|apply nth_error_None in Es; lia].
    destruct (step_ghost q bars _ k st ivs oe s Hinv ltac:(lia) Es)
      as (st' & Est & Hinv').
    destruct (held_next (Z.to_nat fast) (Z.to_nat slow) (closes bars) k s
                        ltac:(lia) ltac:(lia) Es) as (Hnext & H1 & Hm1).
    fold (indicators_of fast slow bars) in Hnext, H1, Hm1.
    replace (k + 1) with (S k) in Hinv' by lia.
    exists st', (fst (ghost_step s k (ivs, oe))), (snd (ghost_step s k (ivs, oe))).
    split.
    { rewrite seq_S, for_each_app, E. cbn [bind Nat.add for_each].
      rewrite Est. reflexivity. }
    split; [exact Hinv'|].
    rewrite Hnext. unfold ghost_step. cbn [fst snd].
    destruct oe as [e|].
    + (* long before the row *)
      destruct (Z.eqb_spec s 1) as [->|N1].
      { specialize (H1 eq_refl). congruence. }
      destruct (Z.eqb_spec s (-1)) as [->|Nm1]; cbn [fst snd].
      * split; [reflexivity|]. split.
        -- intros i Hi Ei. left.
           assert (Hi' : i < k).
           { destruct (Nat.eq_dec i k) as [->|]; [congruence|lia]. }
           destruct (Hent i Hi' Ei) as [(x & Hx)|Eo].
           ++ exists x. apply in_or_app. left. exact Hx.
           ++ injection Eo as ->. exists (k + 1). apply in_or_app. right.
              left. reflexivity.
        -- intros j Hj Ej.
           destruct (Nat.eq_dec j k) as [->|Njk].
           ++ exists e. apply in_or_app. right. left. f_equal. lia.
           ++ destruct (Hex j ltac:(lia) Ej) as (e' & He').
              exists e'. apply in_or_app. left. exact He'.
      * split; [exact Hheld|]. split.
        -- intros i Hi Ei. apply Hent; [|exact Ei].
           destruct (Nat.eq_dec i k) as [->|]; [congruence|lia].
        -- intros j Hj Ej. apply Hex; [|exact Ej].
           destruct (Nat.eq_dec j k) as [->|]; [congruence|lia].
    + (* flat before the row *)
      destruct (Z.eqb_spec s 1) as [->|N1]; cbn [fst snd].
      * split; [reflexivity|]. split.
        -- intros i Hi Ei.
           destruct (Nat.eq_dec i k) as [->|Nik].
           ++ right. f_equal. lia.
           ++ destruct (Hent i ltac:(lia) Ei) as [Hx|Eo]; [left; exact Hx|].
              discriminate Eo.
        -- intros j Hj Ej. apply Hex; [|exact Ej].
           destruct (Nat.eq_dec j k) as [->|]; [congruence|lia].
      * destruct (Z.eqb_spec s (-1)) as [->|Nm1].
        { specialize (Hm1 eq_refl). congruence. }
        split; [exact Hheld|]. split.
        -- intros i Hi Ei. apply Hent; [|exact Ei].
           destruct (Nat.eq_dec i k) as [->|]; [congruence|lia].
        -- intros j Hj Ej. apply Hex; [|exact Ej].
           destruct (Nat.eq_dec j k) as [->|]; [congruence|lia].
Qed.

Lemma above_iff_fast_above_slow (fast slow : nat) (xs : list Q) (i : nat) :
  above (compute_indicators fast slow xs) i = true <->
  fast_above_slow (compute_indicators fast slow xs) i.
Proof.
  unfold fast_above_slow. cbn [compute_indicators sma_fast sma_slow].
  rewrite above_true_iff. split.
  - intros (Hi & Hf & Hs & Hlt).
    exists (spec_window_mean xs i fast), (spec_window_mean xs i slow).
    split; [apply rolling_mean_defined; assumption|].
    split; [apply rolling_mean_defined; assumption|exact Hlt].
  - intros (a & b & Ha & Hb & Hlt).
    apply rolling_mean_Some_iff in Ha. destruct Ha as (Hi & Hf & ->).
    apply rolling_mean_Some_iff in Hb. destruct Hb as (_ & Hs & ->).
    auto.
Qed.

Lemma held_iff (fast slow : nat) (xs : list Q) (k : nat) :
  held (compute_indicators fast slow xs) k = true <->
  2 <= k /\ fast_above_slow (compute_indicators fast slow xs) (k - 2).
Proof.
  unfold held. rewrite andb_true_iff, Nat.leb_le, above_iff_fast_above_slow.
  reflexivity.
Qed.

Lemma Forall2_In_l {A B : Type} (R : A -> B -> Prop) la lb a :
  Forall2 R la lb -> In a la -> exists b, In b lb /\ R a b.
Proof.
  induction 1 as [|a' b la lb Hab _ IH]; intros Hin; [contradiction|].
  destruct Hin as [<-|Hin].
  - exists b. split; [left; reflexivity|exact Hab].
  - destruct (IH Hin) as (b' & Hb' & HR). exists b'. split; [right|]; assumption.
Qed.

Lemma assemble_In o l : In o (assemble l) <-> In o l.
Proof.
  split; apply Permutation_in;
    [apply assemble_perm | symmetry; apply assemble_perm].
Qed.

(** The run on valid windows, with the three facts of [sync_prefix] at the
    end of the loop. *)
Lemma run_sync (fast slow q : Z) (bars : list Bar) (ledger : list Order) :
  run_sma_crossover fast slow q bars = Ok ledger ->
  exists st ivs oe,
    ledger = assemble (flush q st) /\
    loop_inv q bars (signal (indicators_of fast slow bars))
             (length bars - 1) st ivs oe /\
    match oe with Some _ => true | None => false end
    = held (indicators_of fast slow bars) (length bars - 1) /\
    (forall i, i < length bars - 1 ->
               nth_error (signal (indicators_of fast slow bars)) i = Some 1%Z ->
               (exists x, In (S i, x) ivs) \/ oe = Some (S i)) /\
    (forall j, j < length bars - 1 ->
               nth_error (signal (indicators_of fast slow bars)) j
               = Some (-1)%Z ->
               exists e, In (e, S j) ivs).
Proof.
  intros H.
  destruct (run_Ok_inv _ _ _ _ _ H) as (Hf & Hs & st0 & _ & _ & E0 & _ & ->).
  destruct (sync_prefix fast slow q bars Hf Hs (length bars - 1) (le_n _))
    as (st & ivs & oe & E & Hinv & Hheld & Hent & Hex).
  unfold simulate in E0. assert (st0 = st) by congruence. subst st0.
  exists st, ivs, oe. auto.
Qed.

(** * The claims *)

(** ** Indicator engine *)

Lemma rolling_mean_spec_sma (w : nat) (closes : list Q) :
  0 < w -> spec_sma w closes (rolling_mean w w closes).
Proof.
  intros Hw. split; [apply length_rolling_mean|].
  intros i Hi. destruct (Nat.ltb_spec i (w - 1)).
  - apply rolling_mean_undefined; [exact Hi|lia].
  - apply rolling_mean_defined; [exact Hi|lia].
Qed.

(** C6: for positive windows, each SMA series has one entry per close, is
    undefined on the first [w - 1] rows and is the arithmetic mean of closes
    [i - w + 1 .. i] from row [w - 1] on; the fast series does not depend on
    the slow window, nor the slow series on the fast one. *)
Theorem sma_series_are_window_means (fast slow : nat) (closes : list Q) :
  0 < fast -> 0 < slow ->
  spec_sma fast closes (sma_fast (compute_indicators fast slow closes)) /\
  spec_sma slow closes (sma_slow (compute_indicators fast slow closes)) /\
  (forall slow', sma_fast (compute_indicators fast slow' closes) =
                 sma_fast (compute_indicators fast slow closes)) /\
  (forall fast', sma_slow (compute_indicators fast' slow closes) =
                 sma_slow (compute_indicators fast slow closes)).
Proof.
  intros Hf Hs. cbn [compute_indicators sma_fast sma_slow].
  split; [apply rolling_mean_spec_sma; exact Hf|].
  split; [apply rolling_mean_spec_sma; exact Hs|].
  split; reflexivity.
Qed.

Lemma sma_series_are_window_means_witness :
  spec_sma 2 (closes scenario)
           (sma_fast (compute_indicators 2 3 (closes scenario))) /\
  spec_sma 3 (closes scenario)
           (sma_slow (compute_indicators 2 3 (closes scenario))).
Proof.
  destruct (sma_series_are_window_means 2 3 (closes scenario))
    as (H1 & H2 & _); [lia|lia|].
  split; assumption.
Defined.

(** ** Signal generator *)

(** C5: the signal read by the simulator is the raw crossover signal moved
    one row forward, with [none] at row 0.  The raw signal is the crossover
    code of the comparison [sma_fast > sma_slow]: [none] on row 0,
    [enter_long] on a row where the fast average is strictly above the slow
    one and was not on the row before, [exit_long] where it is not and was,
    [none] otherwise.  Both are [none] on every row where one of the averages
    is undefined, and the comparison is the strict one, so equal averages
    count as not above. *)
Theorem signal_is_raw_lagged_by_one (fast slow : nat) (closes : list Q) :
  let ind := compute_indicators fast slow closes in
  length (signal ind) = length closes /\
  length (raw_signal ind) = length closes /\
  (closes <> [] -> nth_error (signal ind) 0 = Some none) /\
  (forall i, S i < length closes ->
             nth_error (signal ind) (S i) = nth_error (raw_signal ind) i) /\
  (forall i, nth_error (sma_fast ind) i = Some None \/
             nth_error (sma_slow ind) i = Some None ->
             nth_error (signal ind) i = Some none /\
             nth_error (raw_signal ind) i = Some none) /\
  (forall i a b, nth_error (sma_fast ind) i = Some (Some a) ->
                 nth_error (sma_slow ind) i = Some (Some b) ->
                 (nth_error (fast_gt ind) i = Some true <-> (b < a)%Q) /\
                 ((a == b)%Q -> nth_error (fast_gt ind) i = Some false)) /\
  (forall i, i < length closes ->
             nth_error (raw_signal ind) i = Some (raw_code ind i)) /\
  (closes <> [] -> nth_error (raw_signal ind) 0 = Some none) /\
  (forall i, S i < length closes ->
     (nth_error (raw_signal ind) (S i) = Some enter_long <->
      fast_above_slow ind (S i) /\ ~ fast_above_slow ind i) /\
     (nth_error (raw_signal ind) (S i) = Some exit_long <->
      ~ fast_above_slow ind (S i) /\ fast_above_slow ind i) /\
     (nth_error (raw_signal ind) (S i) = Some none <->
      (fast_above_slow ind (S i) <-> fast_above_slow ind i))).
Proof.
  intros ind.
  assert (L : length (fast_gt ind) = length closes) by apply length_fast_gt.
  split; [rewrite length_signal; exact L|].
  split; [rewrite length_raw_signal; exact L|].
  split.
  { intros Hne. apply nth_error_signal_0. rewrite L.
    destruct closes; [congruence|simpl; lia]. }
  split.
  { intros i Hi. rewrite nth_error_signal_S by (rewrite L; exact Hi).
    symmetry. apply nth_error_raw_signal. lia. }
  split.
  { intros i Hu.
    assert (Hi : i < length closes /\ (i + 1 < fast \/ i + 1 < slow)).
    { destruct Hu as [Hu|Hu]; apply rolling_mean_None_iff in Hu; lia. }
    destruct Hi as (Hi & Hw). split.
    - destruct i as [|j].
      + apply nth_error_signal_0. lia.
      + rewrite nth_error_signal_S by lia. f_equal.
        apply raw_code_before_window. lia.
    - rewrite nth_error_raw_signal by lia. f_equal.
      apply raw_code_before_window. exact Hw. }
  split.
  { intros i a b Ha Hb.
    apply rolling_mean_Some_iff in Ha. destruct Ha as (Hi & Hf & ->).
    apply rolling_mean_Some_iff in Hb. destruct Hb as (_ & Hs & ->).
    rewrite nth_error_fast_gt by lia.
    split.
    - split.
      + intros E. injection E as E. apply above_true_iff in E. tauto.
      + intros Hlt. f_equal. apply above_true_iff. auto.
    - intros Heq.
      destruct (above ind i) eqn:E; [|reflexivity].
      apply above_true_iff in E. destruct E as (_ & _ & _ & Hlt).
      rewrite Heq in Hlt. exfalso. exact (Qlt_irrefl _ Hlt). }
  split.
  { intros i Hi. apply nth_error_raw_signal. lia. }
  split.
  { intros Hne. rewrite nth_error_raw_signal; [reflexivity|].
    rewrite L. destruct closes; [congruence|simpl; lia]. }
  intros i Hi. rewrite nth_error_raw_signal by lia.
  unfold ind. rewrite <- !above_iff_fast_above_slow. fold ind.
  cbn [raw_code]. unfold enter_long, exit_long, none.
  destruct (above ind (S i)), (above ind i); cbn [andb negb];
    intuition congruence.
Qed.

Lemma signal_is_raw_lagged_by_one_witness :
  let ind := compute_indicators 2 3 (closes scenario) in
  nth_error (raw_signal ind) 3 = Some enter_long /\
  nth_error (signal ind) 4 = Some enter_long /\
  nth_error (raw_signal ind) 5 = Some exit_long /\
  nth_error (signal ind) 6 = Some exit_long.
Proof.
  intros ind.
  destruct (signal_is_raw_lagged_by_one 2 3 (closes scenario))
    as (_ & _ & _ & Hlag & _ & _ & _ & _ & Hraw).
  fold ind in Hlag, Hraw.
  assert (Hup : nth_error (raw_signal ind) 3 = Some enter_long).
  { apply (proj1 (Hraw 2 ltac:(cbn; lia))). split.
    - eexists _, _. split; [reflexivity|]. split; [reflexivity|]. reflexivity.
    - intros (a & b & Ha & Hb & Hlt).
      vm_compute in Ha, Hb. injection Ha as <-. injection Hb as <-.
      vm_compute in Hlt. discriminate Hlt. }
  assert (Hdn : nth_error (raw_signal ind) 5 = Some exit_long).
  { apply (proj1 (proj2 (Hraw 4 ltac:(cbn; lia)))). split.
    - intros (a & b & Ha & Hb & Hlt).
      vm_compute in Ha, Hb. injection Ha as <-. injection Hb as <-.
      vm_compute in Hlt. discriminate Hlt.
    - eexists _, _. split; [reflexivity|]. split; [reflexivity|]. reflexivity. }
  split; [exact Hup|]. split.
  - rewrite (Hlag 3 ltac:(cbn; lia)). exact Hup.
  - split; [exact Hdn|]. rewrite (Hlag 5 ltac:(cbn; lia)). exact Hdn.
Defined.

(** C1 as stated fails: with fast = 1, slow = 2 and closes 1, 3 the first
    row with both averages is row 1 (3 against 2), and it carries
    [enter_long]. *)
Lemma first_defined_row_enters :
  ~ (forall i,
        first_both_defined (compute_indicators 1 2 [1; 3]%Q) i ->
        nth_error (raw_signal (compute_indicators 1 2 [1; 3]%Q)) i
        <> Some enter_long).
Proof.
  intros H. apply (H 1); [|reflexivity].
  split.
  - eexists _, _. split; reflexivity.
  - intros j Hj (a & b & _ & Hb). assert (j = 0) by lia. subst j.
    discriminate Hb.
Qed.

(** C1, amended: with [0 < fast < slow], the first row with both averages is
    row [slow - 1]; it carries [enter_long] exactly when the fast average is
    strictly above the slow one there (the missing comparison before it counts
    as not above), [none] otherwise, never [exit_long]; every earlier row
    carries [none]. *)
Theorem first_defined_row_signal (fast slow : nat) (closes : list Q) (i : nat) :
  0 < fast < slow ->
  first_both_defined (compute_indicators fast slow closes) i ->
  let ind := compute_indicators fast slow closes in
  i = slow - 1 /\
  (exists a b,
      nth_error (sma_fast ind) i = Some (Some a) /\
      nth_error (sma_slow ind) i = Some (Some b) /\
      (nth_error (raw_signal ind) i = Some enter_long <-> (b < a)%Q) /\
      (nth_error (raw_signal ind) i = Some none <-> (a <= b)%Q)) /\
  nth_error (raw_signal ind) i <> Some exit_long /\
  (forall j, j < i -> nth_error (raw_signal ind) j = Some none).
Proof.
  intros Hw ((a & b & Ha & Hb) & Hfirst) ind.
  pose proof Ha as Ha'. pose proof Hb as Hb'.
  apply rolling_mean_Some_iff in Ha'. destruct Ha' as (Hi & Hf & Ea).
  apply rolling_mean_Some_iff in Hb'. destruct Hb' as (_ & Hs & Eb).
  assert (L : length (fast_gt ind) = length closes) by apply length_fast_gt.
  assert (Hi' : i = slow - 1).
  { destruct (Nat.eq_dec i (slow - 1)) as [E|N]; [exact E|].
    exfalso. apply (Hfirst (i - 1)); [lia|].
    exists (spec_window_mean closes (i - 1) fast),
           (spec_window_mean closes (i - 1) slow).
    split; apply rolling_mean_Some_iff; repeat split; lia. }
  assert (Hprev : above ind (i - 1) = false)
    by (apply above_before_window; lia).
  assert (Hcode : raw_code ind i = if above ind i then 1%Z else 0%Z).
  { destruct i as [|j]; [lia|]. simpl.
    replace (S j - 1) with j in Hprev by lia. rewrite Hprev.
    destruct (above ind (S j)); reflexivity. }
  assert (Habove : above ind i = true <-> (b < a)%Q).
  { rewrite Ea, Eb. split.
    - intros E. apply above_true_iff in E. tauto.
    - intros Hlt. apply above_true_iff. auto. }
  split; [exact Hi'|].
  split.
  { exists a, b. split; [exact Ha|]. split; [exact Hb|].
    rewrite nth_error_raw_signal by lia. rewrite Hcode.
    unfold enter_long, none.
    destruct (above ind i) eqn:E.
    - split; split; intros H.
      + apply Habove. reflexivity.
      + reflexivity.
      + discriminate.
      + exfalso. apply (Qlt_not_le b a); [apply Habove; reflexivity|exact H].
    - split; split; intros H.
      + discriminate.
      + apply Habove in H. discriminate.
      + apply Qnot_lt_le. intros Hlt. apply Habove in Hlt. discriminate.
      + reflexivity. }
  split.
  { rewrite nth_error_raw_signal by lia. rewrite Hcode. unfold exit_long.
    destruct (above ind i); discriminate. }
  intros j Hj. rewrite nth_error_raw_signal by lia. f_equal.
  apply raw_code_before_window. lia.
Qed.

Lemma first_defined_row_signal_witness :
  nth_error (raw_signal (compute_indicators 2 3 (closes scenario))) 2
  <> Some exit_long.
Proof.
  assert (F : first_both_defined (compute_indicators 2 3 (closes scenario)) 2).
  { split.
    - eexists _, _. split; reflexivity.
    - intros j Hj (a & b & _ & Hb).
      destruct j as [|[|j]]; [discriminate Hb|discriminate Hb|lia]. }
  exact (proj1 (proj2 (proj2
    (first_defined_row_signal 2 3 (closes scenario) 2 ltac:(lia) F)))).
Defined.

(** ** Parameter validation *)

(** C2 as stated fails: the quantity is not validated.  With quantity 0
    (fast = 2, slow = 3, the scenario bars) the run returns a ledger. *)
Lemma nonpositive_quantity_accepted :
  ~ (run_sma_crossover 2 3 0 scenario = Err InvalidParameter <->
     (2 <= 0 \/ 3 <= 0 \/ 0 <= 0)%Z).
Proof.
  intros [_ H].
  specialize (H (or_intror (or_intror (Z.le_refl 0)))).
  vm_compute in H. discriminate H.
Qed.

(** C2, amended: the run fails with [InvalidParameter] if and only if [fast]
    or [slow] is non-positive, whatever the quantity; the failure comes from
    the validation alone, before the bars are looked at, so it is the result
    for every series and quantity and no ledger is returned; with positive
    windows the run returns a ledger. *)
Theorem invalid_parameter_iff_window_nonpositive
        (fast slow q : Z) (bars : list Bar) :
  (run_sma_crossover fast slow q bars = Err InvalidParameter <->
   (fast <= 0 \/ slow <= 0)%Z) /\
  ((fast <= 0 \/ slow <= 0)%Z ->
   validate fast slow = Err InvalidParameter /\
   forall q' bars',
     run_sma_crossover fast slow q' bars' = Err InvalidParameter) /\
  ((0 < fast)%Z -> (0 < slow)%Z ->
   exists ledger, run_sma_crossover fast slow q bars = Ok ledger).
Proof.
  assert (E : (fast <= 0 \/ slow <= 0)%Z ->
              forall q' bars',
                run_sma_crossover fast slow q' bars' = Err InvalidParameter).
  { intros H q' bars'. unfold run_sma_crossover.
    rewrite validate_Err by exact H. reflexivity. }
  assert (V : (0 < fast)%Z -> (0 < slow)%Z ->
              exists ledger, run_sma_crossover fast slow q bars = Ok ledger).
  { intros Hf Hs.
    destruct (run_valid fast slow q bars Hf Hs) as (st & _ & _ & _ & _ & R).
    eauto. }
  split; [|split].
  - split; [|intros H; apply E; exact H].
    intros H.
    destruct (Z.lt_ge_cases 0 fast) as [Hf|Hf]; [|lia].
    destruct (Z.lt_ge_cases 0 slow) as [Hs|Hs]; [|lia].
    destruct (V Hf Hs) as (ledger & R). congruence.
  - intros H. split; [apply validate_Err; exact H|apply E; exact H].
  - exact V.
Qed.

Lemma invalid_parameter_iff_window_nonpositive_witness :
  run_sma_crossover 0 3 10 scenario = Err InvalidParameter /\
  exists ledger, run_sma_crossover 2 3 0 scenario = Ok ledger.
Proof.
  split.
  - apply (proj1 (invalid_parameter_iff_window_nonpositive 0 3 10 scenario)).
    left. lia.
  - apply (proj2 (proj2
             (invalid_parameter_iff_window_nonpositive 2 3 0 scenario))); lia.
Defined.

(** ** Position simulator *)

(** C3: every closed trade of the ledger carries the configured quantity,
    [pnl = (exit_price - entry_price) * quantity], and
    [bars_held = exit row - entry row], the rows being those whose open and
    date the trade records. *)
Theorem closed_trade_pnl_and_bars_held
        (fast slow q : Z) (bars : list Bar) (ledger : list Order) (o : Order) :
  run_sma_crossover fast slow q bars = Ok ledger ->
  In o ledger -> exit_dt o <> None ->
  exists ep xp e x be bx,
    entry_price o = Some ep /\ exit_price o = Some xp /\ qty o = q /\
    pnl o = Some ((xp - ep) * inject_Z q)%Q /\
    nth_error bars e = Some be /\ nth_error bars x = Some bx /\
    ep = open be /\ xp = open bx /\
    entry_dt o = Some (date be) /\ exit_dt o = Some (date bx) /\
    bars_held o = Some (Z.of_nat x - Z.of_nat e)%Z.
Proof.
  intros H Hin Hx.
  destruct (ledger_row _ _ _ _ _ _ H Hin) as (t & Ht & _ & _).
  destruct (closed_row_inv _ _ _ _ Ht Hx) as (x & _ & be & bx & He & Hbx & ->).
  exists (open be), (open bx), (fst t), x, be, bx. cbn.
  repeat split; assumption.
Qed.

(** The scenario run end to end: one closed trade, entered on bar 5 at 15
    and closed on bar 7 at 17. *)
Example scenario_run :
  run_sma_crossover 2 3 10 scenario = Ok [scenario_trade].
Proof. reflexivity. Qed.

Lemma closed_trade_pnl_and_bars_held_witness :
  exists ep xp e x be bx,
    entry_price scenario_trade = Some ep /\
    exit_price scenario_trade = Some xp /\ qty scenario_trade = 10%Z /\
    pnl scenario_trade = Some ((xp - ep) * inject_Z 10)%Q /\
    nth_error scenario e = Some be /\ nth_error scenario x = Some bx /\
    ep = open be /\ xp = open bx /\
    entry_dt scenario_trade = Some (date be) /\
    exit_dt scenario_trade = Some (date bx) /\
    bars_held scenario_trade = Some (Z.of_nat x - Z.of_nat e)%Z.
Proof.
  apply (closed_trade_pnl_and_bars_held 2 3 10 scenario [scenario_trade]).
  - reflexivity.
  - left. reflexivity.
  - discriminate.
Defined.

Lemma step_signal_ext q bars s1 s2 st i :
  nth_error s1 i = nth_error s2 i ->
  step q bars s1 st i = step q bars s2 st i.
Proof.
  intros E. unfold step, iloc. rewrite E. reflexivity.
Qed.

Lemma for_each_ext (f g : SimState -> nat -> result SimState) idxs :
  (forall i st, In i idxs -> f st i = g st i) ->
  forall st, for_each f idxs st = for_each g idxs st.
Proof.
  induction idxs as [|i idxs IH]; intros H st; [reflexivity|].
  cbn [for_each]. rewrite (H i st) by (left; reflexivity).
  destruct (g st i) as [st'|e]; [|reflexivity].
  cbn [bind]. apply IH. intros j st'' Hj. apply H. right. exact Hj.
Qed.

Lemma step_enter q bars sig_series st i nb :
  nth_error sig_series i = Some enter_long ->
  nth_error bars (i + 1) = Some nb ->
  position st = 0%Z ->
  step q bars sig_series st i =
  Ok {| position := 1;
        st_entry_price := Some (open nb);
        st_entry_dt := Some (date nb);
        st_entry_idx := Some (i + 1);
        orders := orders st |}.
Proof.
  intros Es Eb Hp. unfold step, iloc. rewrite Es, Eb, Hp. reflexivity.
Qed.

Lemma step_exit q bars sig_series st i nb ep :
  nth_error sig_series i = Some exit_long ->
  nth_error bars (i + 1) = Some nb ->
  position st = 1%Z ->
  st_entry_price st = Some ep ->
  step q bars sig_series st i =
  Ok {| position := 0;
        st_entry_price := None;
        st_entry_dt := None;
        st_entry_idx := None;
        orders :=
          orders st ++
          [ {| entry_dt := st_entry_dt st;
               entry_price := Some ep;
               qty := q;
               exit_dt := Some (date nb);
               exit_price := Some (open nb);
               pnl := Some ((open nb - ep) * inject_Z q)%Q;
               bars_held :=
                 option_map (fun e => (Z.of_nat (i + 1) - Z.of_nat e)%Z)
                            (st_entry_idx st) |} ] |}.
Proof.
  intros Es Eb Hp He. unfold step, iloc. rewrite Es, Eb, Hp, He.
  unfold closed_row. rewrite He. reflexivity.
Qed.

Lemma step_hold_long q bars sig_series st i s nb :
  nth_error sig_series i = Some s ->
  nth_error bars (i + 1) = Some nb ->
  position st = 1%Z -> s <> exit_long ->
  step q bars sig_series st i = Ok st.
Proof.
  intros Es Eb Hp Hs. unfold step, iloc. rewrite Es, Eb, Hp. cbn [bind].
  cbn [Z.eqb Pos.eqb andb].
  destruct (Z.eqb_spec s (-1)); [contradiction|reflexivity].
Qed.

Lemma step_hold_flat q bars sig_series st i s nb :
  nth_error sig_series i = Some s ->
  nth_error bars (i + 1) = Some nb ->
  position st = 0%Z -> s <> enter_long ->
  step q bars sig_series st i = Ok st.
Proof.
  intros Es Eb Hp Hs. unfold step, iloc. rewrite Es, Eb, Hp. cbn [bind].
  cbn [Z.eqb andb].
  destruct (Z.eqb_spec s 1); [contradiction|reflexivity].
Qed.

Lemma for_each_idle (f : SimState -> nat -> result SimState) l st :
  (forall i, In i l -> f st i = Ok st) -> for_each f l st = Ok st.
Proof.
  induction l as [|i l IH]; intros H; [reflexivity|].
  cbn [for_each]. rewrite (H i (or_introl eq_refl)). cbn [bind].
  apply IH. intros j Hj. apply H. right. exact Hj.
Qed.

Lemma lone_entry_rows n i :
  i < n ->
  (forall j, j < i -> nth_error (lone_entry n i) j = Some none) /\
  nth_error (lone_entry n i) i = Some enter_long /\
  (forall j, i < j < n -> nth_error (lone_entry n i) j = Some none).
Proof.
  intros Hi. unfold lone_entry. split; [|split].
  - intros j Hj. rewrite nth_error_app1 by (rewrite repeat_length; exact Hj).
    apply nth_error_repeat. exact Hj.
  - rewrite nth_error_app2 by (rewrite repeat_length; lia).
    rewrite repeat_length, Nat.sub_diag. reflexivity.
  - intros j Hj. rewrite nth_error_app2 by (rewrite repeat_length; lia).
    rewrite repeat_length.
    replace (j - i) with (S (j - i - 1)) by lia. cbn [nth_error].
    apply nth_error_repeat. lia.
Qed.

(** C4: the loop reads the lagged signal on rows [0 .. len-2], on each of
    them and on no other.  On no other: the run does not depend on the signal
    of the last row.  On each of them: an [enter_long] placed on row [i] alone
    is filled at the open and the date of row [i + 1], up to [i = len-2], and
    on the run's own signal every [enter_long] and [exit_long] read on a row
    [i <= len-2] gives a ledger row entered, respectively closed, at the open
    and the date of row [i + 1].  An entry or an exit decided on row [i]
    records the open and the date of row [i + 1]; so every trade of the
    ledger was entered on a signal read at some row [i <= len-2] at the open
    of row [i + 1], and the last row's signal causes nothing. *)
Theorem executions_use_next_bar (fast slow q : Z) (bars : list Bar) :
  (forall s1 s2,
      (forall i, i + 1 < length bars -> nth_error s1 i = nth_error s2 i) ->
      simulate q bars s1 = simulate q bars s2) /\
  (forall sig_series st i nb,
      nth_error sig_series i = Some enter_long ->
      nth_error bars (i + 1) = Some nb ->
      position st = 0%Z ->
      exists st',
        step q bars sig_series st i = Ok st' /\ position st' = 1%Z /\
        st_entry_price st' = Some (open nb) /\
        st_entry_dt st' = Some (date nb) /\
        st_entry_idx st' = Some (i + 1) /\ orders st' = orders st) /\
  (forall sig_series st i nb ep,
      nth_error sig_series i = Some exit_long ->
      nth_error bars (i + 1) = Some nb ->
      position st = 1%Z -> st_entry_price st = Some ep ->
      exists st' o,
        step q bars sig_series st i = Ok st' /\ position st' = 0%Z /\
        orders st' = orders st ++ [o] /\
        exit_price o = Some (open nb) /\ exit_dt o = Some (date nb) /\
        entry_price o = st_entry_price st /\ entry_dt o = st_entry_dt st) /\
  (forall ledger o,
      run_sma_crossover fast slow q bars = Ok ledger -> In o ledger ->
      exists i nb,
        i + 1 < length bars /\
        nth_error (signal (indicators_of fast slow bars)) i = Some enter_long /\
        nth_error bars (i + 1) = Some nb /\
        entry_price o = Some (open nb) /\ entry_dt o = Some (date nb) /\
        (exit_dt o <> None ->
         exists j xb,
           i < j /\ j + 1 < length bars /\
           nth_error (signal (indicators_of fast slow bars)) j
           = Some exit_long /\
           nth_error bars (j + 1) = Some xb /\
           exit_price o = Some (open xb) /\ exit_dt o = Some (date xb))) /\
  (forall i nb,
      nth_error bars (i + 1) = Some nb ->
      exists st,
        simulate q bars (lone_entry (length bars) i) = Ok st /\
        position st = 1%Z /\ st_entry_idx st = Some (i + 1) /\
        st_entry_price st = Some (open nb) /\
        st_entry_dt st = Some (date nb) /\ orders st = []) /\
  (forall ledger i nb,
      run_sma_crossover fast slow q bars = Ok ledger ->
      nth_error bars (i + 1) = Some nb ->
      (nth_error (signal (indicators_of fast slow bars)) i = Some enter_long ->
       exists o, In o ledger /\
                 entry_price o = Some (open nb) /\
                 entry_dt o = Some (date nb)) /\
      (nth_error (signal (indicators_of fast slow bars)) i = Some exit_long ->
       exists o, In o ledger /\
                 exit_price o = Some (open nb) /\
                 exit_dt o = Some (date nb))).
Proof.
  split; [|split; [|split; [|split; [|split]]]].
  - intros s1 s2 H. unfold simulate. apply for_each_ext.
    intros i st Hi. apply step_signal_ext. apply H.
    apply in_seq in Hi. lia.
  - intros sig_series st i nb Es Eb Hp.
    eexists. split; [apply (step_enter q bars sig_series st i nb Es Eb Hp)|].
    cbn. repeat split; reflexivity.
  - intros sig_series st i nb ep Es Eb Hp He.
    eexists _, _.
    split; [apply (step_exit q bars sig_series st i nb ep Es Eb Hp He)|].
    cbn. rewrite He. repeat split; reflexivity.
  - intros ledger o H Hin.
    destruct (ledger_row _ _ _ _ _ _ H Hin) as (t & Ht & Hf & Hlt).
    destruct Hf as ((i & Ei & Hsi) & Hfx).
    destruct (trade_at_entry _ _ _ _ Ht) as (be & Ebe & Edt & Epr & _).
    rewrite Ei in Ebe. replace (S i) with (i + 1) in Ebe by lia.
    exists i, be.
    assert (Li : i + 1 < length bars)
      by (apply nth_error_Some; rewrite Ebe; discriminate).
    split; [exact Li|]. split; [exact Hsi|]. split; [exact Ebe|].
    split; [exact Epr|]. split; [exact Edt|].
    intros Hx.
    destruct (closed_row_inv _ _ _ _ Ht Hx)
      as (x & Esnd & be' & bx & _ & Hbx & ->).
    rewrite Esnd in Hfx, Hlt. destruct Hfx as (j & Ej & Hsj).
    subst x. replace (S j) with (j + 1) in Hbx by lia.
    exists j, bx.
    split; [lia|].
    split; [apply nth_error_Some; rewrite Hbx; discriminate|].
    split; [exact Hsj|]. split; [exact Hbx|]. split; reflexivity.
  - intros i nb Eb.
    assert (Li : i + 1 < length bars)
      by (apply nth_error_Some; rewrite Eb; discriminate).
    destruct (lone_entry_rows (length bars) i ltac:(lia))
      as (Hlo & Hat & Hhi).
    unfold simulate.
    replace (length bars - 1) with (i + S (length bars - 2 - i)) by lia.
    rewrite seq_app, for_each_app. cbn [Nat.add seq].
    rewrite (for_each_idle _ (seq 0 i) init_state).
    2:{ intros j Hj. apply in_seq in Hj.
        destruct (nth_error bars (j + 1)) as [b|] eqn:Ej;
          [|apply nth_error_None in Ej; lia].
        apply (step_hold_flat q bars _ init_state j none b);
          [apply Hlo; lia|exact Ej|reflexivity|discriminate]. }
    cbn [bind for_each].
    rewrite (step_enter q bars _ init_state i nb Hat Eb eq_refl).
    cbn [bind].
    rewrite for_each_idle.
    2:{ intros j Hj. apply in_seq in Hj.
        destruct (nth_error bars (j + 1)) as [b|] eqn:Ej;
          [|apply nth_error_None in Ej; lia].
        apply (step_hold_long q bars _ _ j none b);
          [apply Hhi; lia|exact Ej|reflexivity|discriminate]. }
    eexists. split; [reflexivity|]. cbn. repeat split; reflexivity.
  - intros ledger i nb H Hnb.
    destruct (run_sync _ _ _ _ _ H)
      as (st & ivs & oe & -> & Hinv & _ & Hent & Hex).
    destruct (flush_trace _ _ _ _ _ _ _ Hinv) as (Hrows & _ & _).
    assert (Hi : i < length bars - 1).
    { assert (i + 1 < length bars)
        by (apply nth_error_Some; rewrite Hnb; discriminate).
      lia. }
    replace (i + 1) with (S i) in Hnb by lia.
    split; intros Es.
    + assert (Hin : exists ox, In (S i, ox) (trace_of ivs oe)).
      { unfold trace_of.
        destruct (Hent i Hi Es) as [(x & Hx) | ->].
        - exists (Some x). apply in_or_app. left.
          exact (in_map as_closed _ _ Hx).
        - exists None. apply in_or_app. right. left. reflexivity. }
      destruct Hin as (ox & Hin).
      destruct (Forall2_In_l _ _ _ _ Hrows Hin) as (o & Ho & Hto).
      destruct (trade_at_entry _ _ _ _ Hto) as (be & Ebe & Edt & Epr & _).
      cbn [fst] in Ebe. rewrite Hnb in Ebe. injection Ebe as <-.
      exists o. split; [apply assemble_In; exact Ho|]. split; assumption.
    + destruct (Hex i Hi Es) as (e & He).
      assert (Hin : In (e, Some (S i)) (trace_of ivs oe)).
      { unfold trace_of. apply in_or_app. left.
        exact (in_map as_closed _ _ He). }
      destruct (Forall2_In_l _ _ _ _ Hrows Hin) as (o & Ho & Hto).
      destruct Hto as (be & bx & _ & Ebx & ->).
      cbn [snd] in Ebx. rewrite Hnb in Ebx. injection Ebx as <-.
      eexists. split; [apply assemble_In; exact Ho|]. split; reflexivity.
Qed.

Lemma executions_use_next_bar_witness :
  run_sma_crossover 2 3 10 scenario = Ok [scenario_trade] /\
  nth_error (signal (indicators_of 2 3 scenario)) 6 = Some exit_long /\
  (exists o, In o [scenario_trade] /\
             exit_price o = Some 17%Q /\ exit_dt o = Some 8%Z) /\
  (exists st, simulate 10 scenario (lone_entry 8 6) = Ok st /\
              st_entry_idx st = Some 7 /\ st_entry_dt st = Some 8%Z).
Proof.
  destruct (executions_use_next_bar 2 3 10 scenario)
    as (_ & _ & _ & _ & Hlone & Hlive).
  split; [reflexivity|]. split; [reflexivity|]. split.
  - apply (proj2 (Hlive [scenario_trade] 6 (bar 8 17 9) eq_refl eq_refl)).
    reflexivity.
  - destruct (Hlone 6 (bar 8 17 9) eq_refl) as (st & E & _ & Hidx & _ & Hdt & _).
    exists st. split; [exact E|]. split; [exact Hidx|exact Hdt].
Defined.

(** An open trade can only be the last of a chain. *)
Lemma no_overlap_open_last tr i t :
  no_overlap tr -> nth_error tr i = Some t -> snd t = None ->
  S i = length tr.
Proof.
  intros Hn Ht Hopen.
  assert (Hi : i < length tr) by (apply nth_error_Some; rewrite Ht; discriminate).
  destruct (Nat.eq_dec (S i) (length tr)) as [E|N]; [exact E|].
  exfalso.
  destruct (nth_error tr (S i)) as [t2|] eqn:E2.
  - destruct (Hn i (S i) t t2 ltac:(lia) Ht E2) as (x1 & Hx1 & _).
    congruence.
  - apply nth_error_None in E2. lia.
Qed.

(** C7: at every point of the loop the state is either flat with no entry
    recorded or long with exactly one; an [enter_long] (or [none]) while long
    and an [exit_long] (or [none]) while flat leave the state as it is; the
    trades of the ledger follow one another without overlap, and only the
    last one can be open. *)
Theorem single_open_position (fast slow q : Z) (bars : list Bar) :
  (forall sig_series st i s nb,
      nth_error sig_series i = Some s -> nth_error bars (i + 1) = Some nb ->
      position st = 1%Z -> s <> exit_long ->
      step q bars sig_series st i = Ok st) /\
  (forall sig_series st i s nb,
      nth_error sig_series i = Some s -> nth_error bars (i + 1) = Some nb ->
      position st = 0%Z -> s <> enter_long ->
      step q bars sig_series st i = Ok st) /\
  (forall sig_series k,
      length sig_series = length bars -> k <= length bars - 1 ->
      exists st,
        for_each (step q bars sig_series) (seq 0 k) init_state = Ok st /\
        (flat st \/ exists e, long_at bars e st)) /\
  (forall ledger,
      run_sma_crossover fast slow q bars = Ok ledger ->
      exists tr rows,
        Permutation rows ledger /\
        Forall2 (trade_at q bars) tr rows /\
        no_overlap tr /\
        (forall i t, nth_error tr i = Some t -> snd t = None ->
                     S i = length tr) /\
        (dates_increasing bars -> ledger = rows)).
Proof.
  split; [|split; [|split]].
  - intros. eapply step_hold_long; eassumption.
  - intros. eapply step_hold_flat; eassumption.
  - intros sig_series k L Hk.
    destruct (for_each_preserves q bars sig_series k 0 init_state [] None
                (loop_inv_init q bars sig_series))
      as (st & ivs & oe & E & [_ _ _ Hpos]); [lia|lia|].
    exists st. split; [exact E|].
    destruct oe as [e|].
    + right. exists e. exact (proj1 Hpos).
    + left. exact (proj1 Hpos).
  - intros ledger H.
    destruct (ledger_trace _ _ _ _ _ H) as (tr & rows & Hp & Hrows & Hc & _ & Hd).
    exists tr, rows.
    pose proof (chained_no_overlap 0 tr Hc) as Hn.
    split; [exact Hp|]. split; [exact Hrows|]. split; [exact Hn|].
    split; [|exact Hd].
    intros i t. apply no_overlap_open_last. exact Hn.
Qed.

Lemma closed_rows_have_exit q bars ivs rows :
  Forall2 (fun iv => closed_at q bars (fst iv) (snd iv)) ivs rows ->
  Forall (fun o => exit_dt o <> None) rows.
Proof.
  induction 1 as [|iv o ivs rows H _ IH]; constructor; [|exact IH].
  destruct H as (be & bx & _ & _ & ->). discriminate.
Qed.

(** C8: when the loop ends long, the flush appends exactly one row after the
    closed trades: it carries the recorded entry date and price and the
    quantity, and its exit date, exit price, pnl and bars held are absent.
    With the strictly increasing dates of the data model it is the last row
    of the ledger returned, and of any arrangement of the rows sorted by
    entry date. *)
Theorem trailing_open_position
        (fast slow q : Z) (bars : list Bar) (st : SimState) :
  (0 < fast)%Z -> (0 < slow)%Z ->
  simulate q bars (signal (indicators_of fast slow bars)) = Ok st ->
  position st = 1%Z ->
  exists e be,
    nth_error bars e = Some be /\
    st_entry_idx st = Some e /\
    st_entry_price st = Some (open be) /\
    st_entry_dt st = Some (date be) /\
    Forall (fun o => exit_dt o <> None) (orders st) /\
    (let last_row :=
       {| entry_dt := Some (date be);
          entry_price := Some (open be);
          qty := q;
          exit_dt := None;
          exit_price := None;
          pnl := None;
          bars_held := None |} in
     flush q st = orders st ++ [last_row] /\
     (dates_increasing bars ->
      run_sma_crossover fast slow q bars = Ok (orders st ++ [last_row]) /\
      forall l', Permutation l' (flush q st) -> Sorted entry_le l' ->
                 l' = orders st ++ [last_row])).
Proof.
  intros Hf Hs E Hp.
  destruct (run_valid fast slow q bars Hf Hs) as (st' & ivs & oe & E' & Hinv & R).
  assert (st' = st) by congruence. subst st'.
  destruct (flush_trace _ _ _ _ _ _ _ Hinv) as (Hrows & Hchain & _).
  destruct Hinv as [Hclosed _ _ Hpos].
  destruct oe as [e|].
  - destruct Hpos as ((_ & be & Ebe & Hidx & Hpr & Hdt) & _).
    exists e, be.
    split; [exact Ebe|]. split; [exact Hidx|]. split; [exact Hpr|].
    split; [exact Hdt|].
    split; [exact (closed_rows_have_exit _ _ _ _ Hclosed)|].
    assert (F : flush q st =
                orders st ++
                [ {| entry_dt := Some (date be); entry_price := Some (open be);
                     qty := q; exit_dt := None; exit_price := None;
                     pnl := None; bars_held := None |} ]).
    { unfold flush, open_row. rewrite Hp, Hdt, Hpr. reflexivity. }
    cbv zeta. split; [exact F|].
    intros Hd.
    pose proof (rows_strictly_sorted q bars Hd _ _ 0 Hrows Hchain) as Hstrict.
    split.
    + rewrite R, (assemble_sorted _ (Sorted_entry_lt_le _ Hstrict)). f_equal.
      exact F.
    + intros l' Hperm Hsorted. rewrite <- F.
      exact (sorted_arrangement_unique _ Hstrict l' Hperm Hsorted).
  - destruct Hpos as ((Hp0 & _) & _). congruence.
Qed.

Lemma scenario_open_dates : dates_increasing scenario_open.
Proof.
  unfold dates_increasing. cbn. repeat constructor.
Qed.

Lemma trailing_open_position_witness :
  exists e be,
    nth_error scenario_open e = Some be /\
    run_sma_crossover 2 3 10 scenario_open =
    Ok [ {| entry_dt := Some (date be); entry_price := Some (open be);
            qty := 10; exit_dt := None; exit_price := None;
            pnl := None; bars_held := None |} ].
Proof.
  destruct (trailing_open_position 2 3 10 scenario_open
              {| position := 1; st_entry_price := Some 15%Q;
                 st_entry_dt := Some 6%Z; st_entry_idx := Some 5;
                 orders := [] |})
    as (e & be & H1 & _ & _ & _ & _ & _ & H2).
  - lia.
  - lia.
  - reflexivity.
  - reflexivity.
  - exists e, be. split; [exact H1|].
    exact (proj1 (H2 scenario_open_dates)).
Defined.

(** ** Ledger assembly *)

Lemma lag_never_enters raw :
  (forall j, nth_error raw j <> Some enter_long) ->
  forall i, nth_error (lag raw) i <> Some enter_long.
Proof.
  intros H i. unfold lag.
  destruct (Nat.lt_ge_cases i (length raw)) as [Hi|Hi].
  - destruct i as [|j].
    + rewrite nth_error_shift_0 by (destruct raw; [simpl in Hi; lia|discriminate]).
      discriminate.
    + rewrite nth_error_shift_S by exact Hi. apply H.
  - rewrite nth_error_shift_None by exact Hi. discriminate.
Qed.

Lemma no_entry_no_trade q bars sig_series k st ivs oe :
  (forall i, nth_error sig_series i <> Some enter_long) ->
  loop_inv q bars sig_series k st ivs oe ->
  flush q st = [].
Proof.
  intros Hno [Hrows _ Hfired Hpos].
  destruct oe as [e|].
  - destruct Hpos as (_ & _ & (i & _ & Hi) & _). exfalso. exact (Hno i Hi).
  - destruct ivs as [|iv ivs].
    + inversion Hrows as [E|]. destruct Hpos as ((Hp & _) & _).
      unfold flush. rewrite Hp. symmetry. exact H.
    + apply Forall_inv in Hfired. destruct Hfired as ((i & _ & Hi) & _).
      exfalso. exact (Hno i Hi).
Qed.



(** C10: a closed trade of the ledger was entered on the signal of some row
    [i] and closed on the signal of a later row [j]: its exit row [j + 1] is
    after its entry row [i + 1], so [bars_held >= 1], and with strictly
    increasing dates its exit date is after its entry date. *)
Theorem closed_trade_spans_a_bar
        (fast slow q : Z) (bars : list Bar) (ledger : list Order) (o : Order) :
  run_sma_crossover fast slow q bars = Ok ledger ->
  In o ledger -> exit_dt o <> None ->
  exists i j be bx,
    i < j /\
    nth_error bars (i + 1) = Some be /\ nth_error bars (j + 1) = Some bx /\
    entry_dt o = Some (date be) /\ exit_dt o = Some (date bx) /\
    bars_held o = Some (Z.of_nat (j + 1) - Z.of_nat (i + 1))%Z /\
    (exists h, bars_held o = Some h /\ (1 <= h)%Z) /\
    (dates_increasing bars -> (date be < date bx)%Z).
Proof.
  intros H Hin Hx.
  destruct (ledger_row _ _ _ _ _ _ H Hin) as (t & Ht & Hf & Hlt).
  destruct (closed_row_inv _ _ _ _ Ht Hx) as (x & Esnd & be & bx & He & Hbx & ->).
  destruct Hf as ((i & Ei & _) & Hfx).
  rewrite Esnd in Hfx, Hlt. destruct Hfx as (j & Ej & _).
  rewrite Ei in *. subst x.
  replace (S i) with (i + 1) in * by lia.
  replace (S j) with (j + 1) in * by lia.
  exists i, j, be, bx. cbn.
  split; [lia|]. split; [exact He|]. split; [exact Hbx|].
  split; [reflexivity|]. split; [reflexivity|]. split; [reflexivity|].
  split.
  - eexists. split; [reflexivity|]. lia.
  - intros Hd.
    exact (dates_increasing_nth bars Hd (i + 1) (j + 1) be bx Hlt He Hbx).
Qed.

Lemma closed_trade_spans_a_bar_witness :
  exists h, bars_held scenario_trade = Some h /\ (1 <= h)%Z.
Proof.
  destruct (closed_trade_spans_a_bar 2 3 10 scenario [scenario_trade]
                                     scenario_trade)
    as (i & j & be & bx & _ & _ & _ & _ & _ & _ & Hh & _).
  - reflexivity.
  - left. reflexivity.
  - discriminate.
  - exact Hh.
Defined.

(** * Further properties of the run *)

(** ** The position follows the comparison two rows back *)

(** The position after [k] rows is long exactly when, two rows back, the
    fast average was strictly above the slow one; so on the run's own signal
    the state machine never meets an [enter_long] while long or an
    [exit_long] while flat. *)
Theorem position_follows_averages
        (fast slow q : Z) (bars : list Bar) (k : nat) :
  (0 < fast)%Z -> (0 < slow)%Z -> k <= length bars - 1 ->
  exists st,
    for_each (step q bars (signal (indicators_of fast slow bars)))
             (seq 0 k) init_state = Ok st /\
    (position st = 0%Z \/ position st = 1%Z) /\
    (position st = 1%Z <->
     2 <= k /\ fast_above_slow (indicators_of fast slow bars) (k - 2)) /\
    (forall s,
        nth_error (signal (indicators_of fast slow bars)) k = Some s ->
        (s = enter_long -> position st = 0%Z) /\
        (s = exit_long -> position st = 1%Z)).
Proof.
  intros Hf Hs Hk.
  destruct (sync_prefix fast slow q bars Hf Hs k Hk)
    as (st & ivs & oe & E & [_ _ _ Hpos] & Hheld & _ & _).
  exists st. split; [exact E|].
  assert (Hp : position st = if held (indicators_of fast slow bars) k
                             then 1%Z else 0%Z).
  { rewrite <- Hheld. destruct oe as [e|].
    - exact (proj1 (proj1 Hpos)).
    - exact (proj1 (proj1 Hpos)). }
  split; [|split].
  - rewrite Hp. destruct (held _ k); auto.
  - unfold indicators_of in *. rewrite <- held_iff, Hp.
    destruct (held _ k); split; intros H; congruence.
  - intros s Es.
    destruct (held_next (Z.to_nat fast) (Z.to_nat slow) (closes bars) k s
                        ltac:(lia) ltac:(lia) Es) as (_ & H1 & Hm1).
    fold (indicators_of fast slow bars) in H1, Hm1.
    split; intros ->; rewrite Hp.
    + rewrite (H1 eq_refl). reflexivity.
    + rewrite (Hm1 eq_refl). reflexivity.
Qed.

Lemma position_follows_averages_witness :
  exists st,
    for_each (step 10 scenario (signal (indicators_of 2 3 scenario)))
             (seq 0 6) init_state = Ok st /\
    position st = 1%Z.
Proof.
  destruct (position_follows_averages 2 3 10 scenario 6)
    as (st & E & _ & Hiff & _); [lia|lia|cbn; lia|].
  exists st. split; [exact E|].
  apply Hiff. split; [lia|].
  eexists _, _. split; [reflexivity|]. split; [reflexivity|].
  reflexivity.
Defined.

(** Every [enter_long] and every [exit_long] the loop reads is executed: the
    ledger has a row entered, respectively closed, at the open of the next
    bar. *)
Theorem every_signal_is_executed
        (fast slow q : Z) (bars : list Bar) (ledger : list Order)
        (i : nat) (nb : Bar) :
  run_sma_crossover fast slow q bars = Ok ledger ->
  nth_error bars (i + 1) = Some nb ->
  (nth_error (signal (indicators_of fast slow bars)) i = Some enter_long ->
   exists o, In o ledger /\
             entry_dt o = Some (date nb) /\ entry_price o = Some (open nb)) /\
  (nth_error (signal (indicators_of fast slow bars)) i = Some exit_long ->
   exists o, In o ledger /\
             exit_dt o = Some (date nb) /\ exit_price o = Some (open nb)).
Proof.
  intros H Hnb.
  destruct (run_sync _ _ _ _ _ H) as (st & ivs & oe & -> & Hinv & _ & Hent & Hex).
  destruct (flush_trace _ _ _ _ _ _ _ Hinv) as (Hrows & _ & _).
  assert (Hi : i < length bars - 1).
  { assert (i + 1 < length bars)
      by (apply nth_error_Some; rewrite Hnb; discriminate).
    lia. }
  replace (i + 1) with (S i) in Hnb by lia.
  split; intros Es.
  - assert (Hin : exists ox, In (S i, ox) (trace_of ivs oe)).
    { destruct (Hent i Hi Es) as [(x & Hx) | ->].
      - exists (Some x). unfold trace_of. apply in_or_app. left.
        apply (in_map as_closed) in Hx. exact Hx.
      - exists None. unfold trace_of. apply in_or_app. right.
        left. reflexivity. }
    destruct Hin as (ox & Hin).
    destruct (Forall2_In_l _ _ _ _ Hrows Hin) as (o & Ho & Hto).
    destruct (trade_at_entry _ _ _ _ Hto) as (be & Ebe & Edt & Epr & _).
    cbn [fst] in Ebe. assert (be = nb) by congruence. subst be.
    exists o. split; [apply assemble_In; exact Ho|]. auto.
  - destruct (Hex i Hi Es) as (e & He).
    assert (Hin : In (e, Some (S i)) (trace_of ivs oe)).
    { unfold trace_of. apply in_or_app. left.
      apply (in_map as_closed) in He. exact He. }
    destruct (Forall2_In_l _ _ _ _ Hrows Hin) as (o & Ho & Hto).
    destruct Hto as (be & bx & _ & Ebx & ->).
    assert (bx = nb) by congruence. subst bx.
    eexists. split; [apply assemble_In; exact Ho|]. split; reflexivity.
Qed.

Lemma every_signal_is_executed_witness :
  exists o, In o [scenario_trade] /\
            entry_dt o = Some 6%Z /\ entry_price o = Some 15%Q.
Proof.
  apply (proj1 (every_signal_is_executed 2 3 10 scenario [scenario_trade] 4
                  (bar 6 15 9) eq_refl eq_refl)).
  reflexivity.
Defined.

Lemma flush_has_open_iff q bars sig_series k st ivs oe :
  loop_inv q bars sig_series k st ivs oe ->
  (exists o, In o (flush q st) /\ is_open o) <-> oe <> None.
Proof.
  intros [Hrows _ _ Hpos]. unfold flush, is_open.
  pose proof (closed_rows_have_exit _ _ _ _ Hrows) as Hclosed.
  rewrite Forall_forall in Hclosed.
  destruct oe as [e|].
  - destruct Hpos as ((Hp & _) & _). rewrite Hp. cbn [Z.eqb Pos.eqb].
    split; [intros _; discriminate|]. intros _.
    exists (open_row q st). split; [|reflexivity].
    apply in_or_app. right. left. reflexivity.
  - destruct Hpos as ((Hp & _) & _). rewrite Hp. cbn [Z.eqb].
    split; [|congruence].
    intros (o & Ho & Hopen). exfalso. exact (Hclosed o Ho Hopen).
Qed.

(** ** The trade left open at the end *)

(** The ledger ends with an open trade exactly when the series has at least
    three bars and the fast average is strictly above the slow one on the
    third bar from the end. *)
Theorem open_trade_iff_fast_above_near_end
        (fast slow q : Z) (bars : list Bar) (ledger : list Order) :
  run_sma_crossover fast slow q bars = Ok ledger ->
  ((exists o, In o ledger /\ is_open o) <->
   3 <= length bars /\
   fast_above_slow (indicators_of fast slow bars) (length bars - 3)).
Proof.
  intros H.
  destruct (run_sync _ _ _ _ _ H) as (st & ivs & oe & -> & Hinv & Hheld & _ & _).
  assert (Hopen : (exists o, In o (assemble (flush q st)) /\ is_open o) <->
                  oe <> None).
  { rewrite <- (flush_has_open_iff _ _ _ _ _ _ _ Hinv).
    split; intros (o & Ho & Hop); exists o; split; try exact Hop;
      apply assemble_In; exact Ho. }
  rewrite Hopen.
  assert (Hh : oe <> None <->
               held (indicators_of fast slow bars) (length bars - 1) = true).
  { rewrite <- Hheld. destruct oe; split; congruence. }
  rewrite Hh. unfold indicators_of. rewrite held_iff.
  replace (length bars - 1 - 2) with (length bars - 3) by lia.
  split; intros (Hl & Ha); (split; [lia|exact Ha]).
Qed.

Lemma open_trade_iff_fast_above_near_end_witness :
  fast_above_slow (indicators_of 2 3 scenario_open) 3.
Proof.
  apply (proj1 (open_trade_iff_fast_above_near_end
                  2 3 10 scenario_open
                  [ {| entry_dt := Some 6%Z; entry_price := Some 15%Q;
                       qty := 10; exit_dt := None; exit_price := None;
                       pnl := None; bars_held := None |} ]
                  eq_refl)).
  eexists. split; [left; reflexivity|reflexivity].
Defined.

(** ** Equal windows *)

(** With [fast = slow] the two averages are the same series, nothing is ever
    strictly above, and the ledger is empty for every series. *)
Theorem equal_windows_never_trade (w q : Z) (bars : list Bar) :
  (0 < w)%Z -> run_sma_crossover w w q bars = Ok [].
Proof.
  intros Hw.
  destruct (run_valid w w q bars Hw Hw) as (st & ivs & oe & _ & Hinv & R).
  rewrite R. f_equal.
  assert (Hno : forall i, nth_error (signal (indicators_of w w bars)) i
                          <> Some enter_long).
  2:{ rewrite (no_entry_no_trade _ _ _ _ _ _ _ Hno Hinv). reflexivity. }
  apply lag_never_enters. intros j.
  assert (L : length (fast_gt (indicators_of w w bars)) = length bars).
  { unfold indicators_of. rewrite length_fast_gt. apply length_map. }
  destruct (Nat.lt_ge_cases j (length bars)) as [Hj|Hj].
  - rewrite nth_error_raw_signal by (rewrite L; exact Hj).
    assert (A : forall i, above (indicators_of w w bars) i = false).
    { intros i. destruct (above (indicators_of w w bars) i) eqn:E; [|reflexivity].
      apply above_true_iff in E. destruct E as (_ & _ & _ & Hlt).
      exfalso. exact (Qlt_irrefl _ Hlt). }
    destruct j as [|j]; cbn [raw_code]; [discriminate|].
    rewrite !A. discriminate.
  - replace (nth_error (raw_signal (indicators_of w w bars)) j)
      with (@None Z); [discriminate|].
    symmetry. apply nth_error_None. rewrite length_raw_signal, L. exact Hj.
Qed.

Lemma equal_windows_never_trade_witness :
  run_sma_crossover 2 2 10 scenario = Ok [].
Proof.
  apply equal_windows_never_trade. lia.
Defined.

(** ** Warm-up *)

Lemma signal_enter_inv (ind : Indicators) (i : nat) :
  nth_error (signal ind) i = Some 1%Z ->
  exists j, i = S (S j) /\ above ind (S j) = true /\ above ind j = false.
Proof.
  intros E.
  assert (Hi : i < length (fast_gt ind)).
  { rewrite <- length_signal. apply nth_error_Some. rewrite E. discriminate. }
  destruct i as [|[|j]].
  - rewrite nth_error_signal_0 in E by lia. discriminate.
  - rewrite nth_error_signal_S in E by exact Hi. discriminate.
  - rewrite nth_error_signal_S in E by exact Hi. cbn [raw_code] in E.
    exists j. split; [reflexivity|].
    destruct (above ind (S j)), (above ind j); cbn in E;
      first [discriminate | split; reflexivity].
Qed.

Lemma entry_after_warm_up (fast slow : Z) (bars : list Bar) (t : nat * option nat) :
  fired (signal (indicators_of fast slow bars)) t ->
  (Z.max fast slow + 1 <= Z.of_nat (fst t))%Z /\ 3 <= fst t.
Proof.
  intros ((i & Ei & Es) & _).
  destruct (signal_enter_inv _ _ Es) as (j & -> & Ha & _).
  unfold indicators_of in Ha. apply above_true_iff in Ha.
  destruct Ha as (_ & Hf & Hs & _). rewrite Ei. lia.
Qed.

(** No trade is entered before both windows are full and the crossover has
    been seen and lagged: every row of the ledger was entered on a bar of
    index at least [max fast slow + 1] (and at least 3); a series of at most
    [max fast slow + 1] bars gives the empty ledger. *)
Theorem no_entry_during_warm_up
        (fast slow q : Z) (bars : list Bar) (ledger : list Order) :
  run_sma_crossover fast slow q bars = Ok ledger ->
  (forall o, In o ledger ->
             exists e be,
               nth_error bars e = Some be /\
               entry_dt o = Some (date be) /\
               entry_price o = Some (open be) /\
               (Z.max fast slow + 1 <= Z.of_nat e)%Z /\ 3 <= e) /\
  ((Z.of_nat (length bars) <= Z.max fast slow + 1)%Z -> ledger = []).
Proof.
  intros H.
  assert (Hrow : forall o, In o ledger ->
             exists e be,
               nth_error bars e = Some be /\
               entry_dt o = Some (date be) /\
               entry_price o = Some (open be) /\
               (Z.max fast slow + 1 <= Z.of_nat e)%Z /\ 3 <= e).
  { intros o Hin.
    destruct (ledger_row _ _ _ _ _ _ H Hin) as (t & Ht & Hf & _).
    destruct (trade_at_entry _ _ _ _ Ht) as (be & Ebe & Edt & Epr & _).
    destruct (entry_after_warm_up _ _ _ _ Hf) as (Hw & H3).
    exists (fst t), be. auto. }
  split; [exact Hrow|].
  intros Hshort. destruct ledger as [|o ledger]; [reflexivity|].
  destruct (Hrow o (or_introl eq_refl)) as (e & be & Ebe & _ & _ & Hw & _).
  assert (e < length bars) by (apply nth_error_Some; rewrite Ebe; discriminate).
  lia.
Qed.

Lemma no_entry_during_warm_up_witness :
  exists e be,
    nth_error scenario e = Some be /\
    entry_dt scenario_trade = Some (date be) /\
    entry_price scenario_trade = Some (open be) /\
    (Z.max 2 3 + 1 <= Z.of_nat e)%Z /\ 3 <= e.
Proof.
  apply (proj1 (no_entry_during_warm_up 2 3 10 scenario [scenario_trade]
                                        eq_refl)).
  left. reflexivity.
Defined.

(** ** How many trades *)

Lemma chained_raise lo lo' tr :
  chained lo tr -> (forall t, In t tr -> lo' < fst t) -> chained lo' tr.
Proof.
  destruct tr as [|[e [x|]] tr]; simpl; intros Hc Hall.
  - exact I.
  - destruct Hc as (_ & H2 & H3). split; [|auto].
    apply (Hall (e, Some x)). left. reflexivity.
  - destruct Hc as (_ & H2). split; [|exact H2].
    apply (Hall (e, None)). left. reflexivity.
Qed.

Lemma chained_length hi :
  forall tr lo,
    chained lo tr ->
    (forall t, In t tr ->
               fst t <= hi /\ match snd t with Some x => x <= hi | None => True end) ->
    tr <> [] ->
    lo + 2 * length tr <= hi + 1.
Proof.
  induction tr as [|[e [x|]] tr IH]; intros lo Hc Hall Hne.
  - congruence.
  - simpl in Hc. destruct Hc as (H1 & H2 & H3).
    destruct (Hall (e, Some x) (or_introl eq_refl)) as (_ & Hx). cbn in Hx.
    destruct tr as [|t tr].
    + simpl. lia.
    + assert (IH' : x + 2 * length (t :: tr) <= hi + 1).
      { apply IH; [exact H3| |discriminate].
        intros t' Ht'. apply Hall. right. exact Ht'. }
      cbn [length] in *. lia.
  - simpl in Hc. destruct Hc as (H1 & ->).
    destruct (Hall (e, None) (or_introl eq_refl)) as (He & _). cbn in He.
    simpl. lia.
Qed.

Lemma trade_at_in_range q bars t o :
  trade_at q bars t o ->
  fst t <= length bars - 1 /\
  match snd t with Some x => x <= length bars - 1 | None => True end.
Proof.
  destruct t as [e [x|]]; unfold trade_at; cbn [fst snd].
  - intros (be & bx & He & Hx & _).
    assert (e < length bars) by (apply nth_error_Some; rewrite He; discriminate).
    assert (x < length bars) by (apply nth_error_Some; rewrite Hx; discriminate).
    lia.
  - intros (be & He & _).
    assert (e < length bars) by (apply nth_error_Some; rewrite He; discriminate).
    lia.
Qed.

(** Each trade takes two bars after the warm-up, and they do not overlap: a
    ledger of [n > 0] rows needs a series of at least
    [max fast slow + 2 n] bars. *)
Theorem ledger_length_bound
        (fast slow q : Z) (bars : list Bar) (ledger : list Order) :
  run_sma_crossover fast slow q bars = Ok ledger ->
  ledger <> [] ->
  (Z.max fast slow + 2 * Z.of_nat (length ledger)
   <= Z.of_nat (length bars))%Z.
Proof.
  intros H Hne.
  destruct (ledger_trace _ _ _ _ _ H) as (tr & rows & Hp & Hrows & Hc & Hf & _).
  assert (Hlen : length tr = length ledger).
  { rewrite (Forall2_length Hrows). apply Permutation_length. exact Hp. }
  assert (Htr : tr <> []).
  { intros ->. destruct ledger; [congruence|discriminate]. }
  rewrite Forall_forall in Hf.
  assert (Hlo : forall t, In t tr -> Z.to_nat (Z.max fast slow) < fst t).
  { intros t Ht. destruct (entry_after_warm_up _ _ _ _ (Hf t Ht)). lia. }
  pose proof (chained_raise 0 _ tr Hc Hlo) as Hc'.
  assert (Hhi : forall t, In t tr ->
                 fst t <= length bars - 1 /\
                 match snd t with
                 | Some x => x <= length bars - 1
                 | None => True
                 end).
  { intros t Ht. destruct (Forall2_In_l _ _ _ _ Hrows Ht) as (o & _ & Hto).
    exact (trade_at_in_range _ _ _ _ Hto). }
  pose proof (chained_length (length bars - 1) tr _ Hc' Hhi Htr) as B.
  destruct tr as [|t tr]; [congruence|].
  destruct (Hhi t (or_introl eq_refl)) as (Ht1 & _).
  specialize (Hlo t (or_introl eq_refl)).
  rewrite <- Hlen. lia.
Qed.

Lemma ledger_length_bound_witness :
  (Z.max 2 3 + 2 * Z.of_nat (length [scenario_trade])
   <= Z.of_nat (length scenario))%Z.
Proof.
  apply (ledger_length_bound 2 3 10 scenario [scenario_trade] eq_refl).
  discriminate.
Defined.

(** ** Later bars do not change earlier trades *)

Lemma spec_window_mean_app (xs ys : list Q) (i w : nat) :
  i < length xs -> w <= i + 1 ->
  spec_window_mean (xs ++ ys) i w = spec_window_mean xs i w.
Proof.
  intros Hi Hw. unfold spec_window_mean. f_equal. f_equal.
  apply map_ext_in. intros j Hj. apply in_seq in Hj.
  apply app_nth1. lia.
Qed.

Lemma above_app (fast slow : nat) (xs ys : list Q) (i : nat) :
  i < length xs ->
  above (compute_indicators fast slow (xs ++ ys)) i =
  above (compute_indicators fast slow xs) i.
Proof.
  intros Hi. apply eq_true_iff_eq. rewrite !above_true_iff, length_app.
  split; intros (Hl & Hf & Hs & Hlt).
  - rewrite !spec_window_mean_app in Hlt by assumption. auto.
  - rewrite <- (spec_window_mean_app xs ys i fast) in Hlt by assumption.
    rewrite <- (spec_window_mean_app xs ys i slow) in Hlt by assumption.
    repeat split; try assumption. lia.
Qed.

Lemma raw_code_app (fast slow : nat) (xs ys : list Q) (i : nat) :
  i < length xs ->
  raw_code (compute_indicators fast slow (xs ++ ys)) i =
  raw_code (compute_indicators fast slow xs) i.
Proof.
  intros Hi. destruct i as [|j]; [reflexivity|]. cbn [raw_code].
  rewrite (above_app fast slow xs ys (S j)) by exact Hi.
  rewrite (above_app fast slow xs ys j) by lia. reflexivity.
Qed.

Lemma signal_app (fast slow : nat) (xs ys : list Q) (i : nat) :
  i < length xs ->
  nth_error (signal (compute_indicators fast slow (xs ++ ys))) i =
  nth_error (signal (compute_indicators fast slow xs)) i.
Proof.
  intros Hi.
  assert (L : length (fast_gt (compute_indicators fast slow xs)) = length xs)
    by apply length_fast_gt.
  assert (L' : length (fast_gt (compute_indicators fast slow (xs ++ ys)))
               = length xs + length ys)
    by (rewrite length_fast_gt; apply length_app).
  destruct i as [|j].
  - rewrite !nth_error_signal_0 by lia. reflexivity.
  - rewrite !nth_error_signal_S by lia. f_equal. apply raw_code_app. lia.
Qed.

Lemma step_orders_grow q bars sig_series st i st' :
  step q bars sig_series st i = Ok st' ->
  exists rest, orders st' = orders st ++ rest.
Proof.
  unfold step. intros H.
  destruct (iloc sig_series i) as [s|]; [|discriminate].
  destruct (iloc bars (i + 1)) as [nb|]; [|discriminate].
  cbn [bind] in H.
  destruct ((position st =? 0)%Z && (s =? 1)%Z).
  - injection H as <-. exists []. cbn. now rewrite app_nil_r.
  - destruct ((position st =? 1)%Z && (s =? -1)%Z).
    + destruct (float_of (st_entry_price st)) as [ep|]; [|discriminate].
      cbn [bind] in H. injection H as <-. eexists. reflexivity.
    + injection H as <-. exists []. now rewrite app_nil_r.
Qed.

Lemma for_each_orders_grow q bars sig_series idxs :
  forall st st',
    for_each (step q bars sig_series) idxs st = Ok st' ->
    exists rest, orders st' = orders st ++ rest.
Proof.
  induction idxs as [|i idxs IH]; intros st st' H; cbn [for_each] in H.
  - injection H as <-. exists []. now rewrite app_nil_r.
  - destruct (step q bars sig_series st i) as [st1|] eqn:E1; [|discriminate].
    cbn [bind] in H.
    destruct (step_orders_grow _ _ _ _ _ _ E1) as (r1 & H1).
    destruct (IH _ _ H) as (r2 & H2).
    exists (r1 ++ r2). rewrite H2, H1. now rewrite app_assoc.
Qed.

(** The loop on an extended series, stopped where the original series ends,
    is in the state the loop on the original series ends in. *)
Lemma simulate_prefix (fast slow q : Z) (bars more : list Bar) :
  for_each (step q (bars ++ more)
                 (signal (indicators_of fast slow (bars ++ more))))
           (seq 0 (length bars - 1)) init_state =
  simulate q bars (signal (indicators_of fast slow bars)).
Proof.
  unfold simulate. apply for_each_ext. intros i st Hi.
  apply in_seq in Hi.
  unfold step, iloc, indicators_of, closes.
  rewrite map_app, signal_app by (rewrite length_map; lia).
  rewrite (nth_error_app1 bars more) by lia. reflexivity.
Qed.

Lemma simulate_extends (fast slow q : Z) (bars more : list Bar) st st' :
  simulate q bars (signal (indicators_of fast slow bars)) = Ok st ->
  simulate q (bars ++ more)
           (signal (indicators_of fast slow (bars ++ more))) = Ok st' ->
  exists rest, orders st' = orders st ++ rest.
Proof.
  intros E E'. unfold simulate in E'.
  replace (length (bars ++ more) - 1)
    with ((length bars - 1) + (length (bars ++ more) - 1 - (length bars - 1)))
    in E' by (rewrite length_app; lia).
  rewrite seq_app, for_each_app, simulate_prefix, E in E'. cbn [bind] in E'.
  exact (for_each_orders_grow _ _ _ _ _ _ E').
Qed.

Lemma flush_split q bars sig_series k st ivs oe :
  loop_inv q bars sig_series k st ivs oe ->
  exists tail, flush q st = orders st ++ tail /\
               Forall is_open tail /\
               Forall (fun o => exit_dt o <> None) (orders st).
Proof.
  intros [Hrows _ _ Hpos].
  pose proof (closed_rows_have_exit _ _ _ _ Hrows) as Hclosed.
  unfold flush. destruct oe as [e|].
  - destruct Hpos as ((Hp & _) & _). rewrite Hp. cbn [Z.eqb Pos.eqb].
    exists [open_row q st]. split; [reflexivity|]. split; [|exact Hclosed].
    constructor; [reflexivity|constructor].
  - destruct Hpos as ((Hp & _) & _). rewrite Hp. cbn [Z.eqb].
    exists []. split; [now rewrite app_nil_r|]. split; [constructor|exact Hclosed].
Qed.

Lemma dates_increasing_app_l (bars more : list Bar) :
  dates_increasing (bars ++ more) -> dates_increasing bars.
Proof.
  unfold dates_increasing. rewrite map_app.
  induction (map date bars) as [|d ds IH]; intros H; [constructor|].
  simpl in H. apply StronglySorted_inv in H. destruct H as [Hs Hall].
  constructor; [exact (IH Hs)|].
  apply Forall_app in Hall. exact (proj1 Hall).
Qed.

(** No repainting: a closed trade found on a series is found on every
    extension of the series by later bars, and, with strictly increasing
    dates, on the same row of the ledger. *)
Theorem closed_trades_survive_new_bars
        (fast slow q : Z) (bars more : list Bar)
        (ledger ledger' : list Order) (o : Order) :
  run_sma_crossover fast slow q bars = Ok ledger ->
  run_sma_crossover fast slow q (bars ++ more) = Ok ledger' ->
  exit_dt o <> None ->
  (In o ledger -> In o ledger') /\
  (dates_increasing (bars ++ more) ->
   forall n, nth_error ledger n = Some o -> nth_error ledger' n = Some o).
Proof.
  intros H H' Hx.
  destruct (run_Ok_inv _ _ _ _ _ H) as (_ & _ & st & ivs & oe & E & Hinv & ->).
  destruct (run_Ok_inv _ _ _ _ _ H')
    as (_ & _ & st' & ivs' & oe' & E' & Hinv' & ->).
  destruct (simulate_extends _ _ _ _ _ _ _ E E') as (rest & Hrest).
  destruct (flush_split _ _ _ _ _ _ _ Hinv) as (tail & Ft & Hopen & _).
  destruct (flush_split _ _ _ _ _ _ _ Hinv') as (tail' & Ft' & _ & _).
  rewrite Forall_forall in Hopen.
  split.
  - intros Hin. apply (proj1 (assemble_In _ _)) in Hin.
    apply (proj2 (assemble_In _ _)).
    rewrite Ft in Hin. rewrite Ft', Hrest.
    apply in_app_or in Hin. destruct Hin as [Hin|Hin].
    + apply in_or_app. left. apply in_or_app. left. exact Hin.
    + exfalso. exact (Hx (Hopen o Hin)).
  - intros Hd n Hn.
    destruct (flush_trace _ _ _ _ _ _ _ Hinv) as (Hrows & Hchain & _).
    destruct (flush_trace _ _ _ _ _ _ _ Hinv') as (Hrows' & Hchain' & _).
    rewrite (assemble_sorted _ (rows_sorted q bars (dates_increasing_app_l _ _ Hd)
                                            _ _ 0 Hrows Hchain)) in Hn.
    rewrite (assemble_sorted _ (rows_sorted q (bars ++ more) Hd
                                            _ _ 0 Hrows' Hchain')).
    rewrite Ft in Hn. rewrite Ft', Hrest.
    destruct (Nat.lt_ge_cases n (length (orders st))) as [Hlt|Hge].
    + rewrite nth_error_app1 in Hn by exact Hlt.
      rewrite <- app_assoc. rewrite nth_error_app1 by exact Hlt. exact Hn.
    + rewrite nth_error_app2 in Hn by exact Hge.
      apply nth_error_In in Hn. exfalso. exact (Hx (Hopen o Hn)).
Qed.

Lemma closed_trades_survive_new_bars_witness :
  In scenario_trade [scenario_trade] /\
  nth_error [scenario_trade] 0 = Some scenario_trade.
Proof.
  assert (D : dates_increasing (scenario ++ [bar 9 18 9]))
    by (unfold dates_increasing; cbn; repeat constructor).
  destruct (closed_trades_survive_new_bars
              2 3 10 scenario [bar 9 18 9]
              [scenario_trade] [scenario_trade] scenario_trade
              eq_refl eq_refl ltac:(discriminate)) as (H1 & H2).
  split.
  - apply H1. left. reflexivity.
  - apply (H2 D 0). reflexivity.
Defined.

(** * The scripts around the run: proofs *)

(** ** [fetch_yahoo.main] *)

Section FetchLoop.

Variable Frame : Type.
Variable fetch_symbol : Py.value -> Py.outcome Frame.
Variable concat : list Frame -> Py.outcome Frame.

Lemma fetched_app (l1 l2 : list Py.value) :
  fetch_yahoo.fetched Frame fetch_symbol (l1 ++ l2) =
  fetch_yahoo.fetched Frame fetch_symbol l1 ++
  fetch_yahoo.fetched Frame fetch_symbol l2.
Proof.
  unfold fetch_yahoo.fetched. apply flat_map_app.
Qed.

(** Over entries that are all recognised and whose fetches never exit, the
    loop appends the frames of the successful fetches. *)
Lemma fetch_all_recognised (entries rest : list Py.value) (symbols : list Py.value) :
  Forall2 (fun sym s => fetch_yahoo.symbol_of sym = Py.Done s) entries symbols ->
  (forall s, In s symbols -> fetch_symbol s <> Py.Raise Py.SystemExit) ->
  forall acc,
    fetch_yahoo.fetch_all Frame fetch_symbol (entries ++ rest) acc =
    fetch_yahoo.fetch_all Frame fetch_symbol rest
      (acc ++ fetch_yahoo.fetched Frame fetch_symbol symbols).
Proof.
  induction 1 as [|sym s entries symbols Hs _ IH]; intros Hexit acc.
  - cbn. now rewrite app_nil_r.
  - cbn [app fetch_yahoo.fetch_all]. rewrite Hs. cbn [Py.bind].
    change (s :: symbols) with ([s] ++ symbols). rewrite fetched_app.
    unfold fetch_yahoo.fetched at 1. cbn [flat_map].
    assert (Hs' : fetch_symbol s <> Py.Raise Py.SystemExit)
      by (apply Hexit; left; reflexivity).
    assert (IH' := fun acc' => IH (fun s' H' => Hexit s' (or_intror H')) acc').
    destruct (fetch_symbol s) as [df|e].
    + rewrite IH'. cbn [app]. now rewrite <- app_assoc.
    + destruct e; cbn [Py.is_Exception]; try (rewrite IH'; reflexivity).
      congruence.
Qed.

End FetchLoop.



(** An entry that is neither a string nor a dict with a ["symbol"] key stops
    the run with [ValueError], and a fetch that ends the program (the missing
    [yfinance] package) stops it with [SystemExit]: whatever was fetched for
    the entries before is not written, and the entries after are not
    looked at. *)
Theorem fetch_main_stops_at_first_fatal_entry
        (Frame : Type) (fetch_symbol : Py.value -> Py.outcome Frame)
        (concat : list Frame -> Py.outcome Frame)
        (symbols_cfg symbols : Py.value)
        (good rest gsyms : list Py.value) (bad : Py.value) :
  Py.get symbols_cfg "symbols"%string (Py.VList []) = Py.Done symbols ->
  Py.iterate symbols = Py.Done (good ++ bad :: rest) ->
  Forall2 (fun sym s => fetch_yahoo.symbol_of sym = Py.Done s) good gsyms ->
  (forall s, In s gsyms -> fetch_symbol s <> Py.Raise Py.SystemExit) ->
  (fetch_yahoo.symbol_of bad = Py.Raise Py.ValueError ->
   fetch_yahoo.main Frame fetch_symbol concat symbols_cfg
   = Py.Raise Py.ValueError) /\
  (forall s, fetch_yahoo.symbol_of bad = Py.Done s ->
             fetch_symbol s = Py.Raise Py.SystemExit ->
             fetch_yahoo.main Frame fetch_symbol concat symbols_cfg
             = Py.Raise Py.SystemExit).
Proof.
  intros Hget Hiter Hrec Hexit.
  assert (Htruthy : Py.truthy symbols = true).
  { destruct symbols as [| | | |s|l|items]; try discriminate Hiter;
      cbn in Hiter |- *; injection Hiter as Hiter.
    - destruct s; [destruct good; discriminate Hiter|reflexivity].
    - subst l. destruct good; reflexivity.
    - destruct items; [destruct good; discriminate Hiter|reflexivity]. }
  assert (E : forall r,
             fetch_yahoo.fetch_all Frame fetch_symbol (bad :: rest)
               ([] ++ fetch_yahoo.fetched Frame fetch_symbol gsyms)
             = Py.Raise r ->
             fetch_yahoo.main Frame fetch_symbol concat symbols_cfg
             = Py.Raise r).
  { intros r Hr. unfold fetch_yahoo.main. rewrite Hget. cbn [Py.bind].
    rewrite Htruthy. cbn [negb]. rewrite Hiter. cbn [Py.bind].
    rewrite (fetch_all_recognised Frame fetch_symbol good (bad :: rest) gsyms
                                  Hrec Hexit []).
    rewrite Hr. reflexivity. }
  split.
  - intros Hbad. apply E. cbn [fetch_yahoo.fetch_all]. rewrite Hbad. reflexivity.
  - intros s Hs Hfetch. apply E. cbn [fetch_yahoo.fetch_all].
    rewrite Hs. cbn [Py.bind]. rewrite Hfetch. reflexivity.
Qed.

Lemma fetch_main_stops_at_first_fatal_entry_witness :
  fetch_yahoo.main nat sample_fetch sample_concat
    (Py.VDict [ ("symbols"%string,
                 Py.VList [ Py.VStr "AAPL"%string; Py.VInt 7;
                            Py.VStr "MSFT"%string ]) ])
  = Py.Raise Py.ValueError.
Proof.
  apply (proj1 (fetch_main_stops_at_first_fatal_entry
                  nat sample_fetch sample_concat
                  (Py.VDict [ ("symbols"%string,
                               Py.VList [ Py.VStr "AAPL"%string; Py.VInt 7;
                                          Py.VStr "MSFT"%string ]) ])
                  (Py.VList [ Py.VStr "AAPL"%string; Py.VInt 7;
                              Py.VStr "MSFT"%string ])
                  [ Py.VStr "AAPL"%string ] [ Py.VStr "MSFT"%string ]
                  [ Py.VStr "AAPL"%string ] (Py.VInt 7)
                  eq_refl eq_refl
                  ltac:(repeat constructor)
                  ltac:(intros s [<-|[]]; discriminate))).
  reflexivity.
Defined.

(** ** [fetch_yahoo.fetch_symbol]: the columns returned *)

(** The frame returned holds only the expected columns and [symbol]; and
    when the download carries both [Close] and [Adj Close], as it does with
    [auto_adjust=False], both are renamed [close] and both are kept: the
    frame has two columns of that name. *)
Theorem fetch_symbol_keeps_both_close_columns (downloaded : list String.string) :
  (forall c, In c (fetch_yahoo.layout downloaded) ->
             In (fst c) (fetch_yahoo.expected ++ ["symbol"%string])) /\
  (In "Close"%string downloaded -> In "Adj Close"%string downloaded ->
   In ("close", "Close")%string (fetch_yahoo.layout downloaded) /\
   In ("close", "Adj Close")%string (fetch_yahoo.layout downloaded)).
Proof.
  unfold fetch_yahoo.layout, fetch_yahoo.select.
  set (cols := fetch_yahoo.rename (map (fun c => (c, c)) downloaded)).
  set (keep := filter _ fetch_yahoo.expected).
  split.
  - intros c Hc. apply in_app_or in Hc. apply in_or_app.
    destruct Hc as [Hc|[<-|[]]]; [left|right; left; reflexivity].
    apply in_flat_map in Hc. destruct Hc as (l & Hl & Hc).
    apply filter_In in Hc. destruct Hc as (_ & Hc).
    apply String.eqb_eq in Hc. rewrite Hc.
    apply filter_In in Hl. exact (proj1 Hl).
  - intros HC HA.
    assert (Hcols : forall d, In d downloaded ->
                              In (fetch_yahoo.new_name d, d) cols).
    { intros d Hd. unfold cols, fetch_yahoo.rename. rewrite map_map.
      apply in_map_iff. exists d. split; [reflexivity|exact Hd]. }
    assert (Hkeep : In "close"%string keep).
    { unfold keep. apply filter_In. split; [cbn; tauto|].
      apply existsb_exists. exists ("close", "Close")%string.
      split; [exact (Hcols _ HC)|reflexivity]. }
    assert (Hsel : forall d, In d downloaded ->
                     fetch_yahoo.new_name d = "close"%string ->
                     In ("close"%string, d)
                        (flat_map (fun l => filter (fun c : fetch_yahoo.column =>
                                                      String.eqb (fst c) l) cols)
                                  keep ++ [("symbol", "symbol")]%string)).
    { intros d Hd Hn. apply in_or_app. left. apply in_flat_map.
      exists "close"%string. split; [exact Hkeep|].
      apply filter_In. split; [rewrite <- Hn; exact (Hcols d Hd)|reflexivity]. }
    split; [apply (Hsel _ HC)|apply (Hsel _ HA)]; reflexivity.
Qed.

Lemma fetch_symbol_keeps_both_close_columns_witness :
  fetch_yahoo.layout
    [ "Date"; "Adj Close"; "Close"; "High"; "Low"; "Open"; "Volume" ]%string
  = [ ("date", "Date"); ("open", "Open"); ("high", "High"); ("low", "Low");
      ("close", "Adj Close"); ("close", "Close"); ("volume", "Volume");
      ("symbol", "symbol") ]%string /\
  In ("close", "Close")%string
     (fetch_yahoo.layout
        [ "Date"; "Adj Close"; "Close"; "High"; "Low"; "Open"; "Volume" ]%string).
Proof.
  split; [reflexivity|].
  apply (proj2 (fetch_symbol_keeps_both_close_columns
                  [ "Date"; "Adj Close"; "Close"; "High"; "Low"; "Open";
                    "Volume" ]%string)).
  - cbn. tauto.
  - cbn. tauto.
Defined.

(** ** Sorting by date and dropping duplicates *)

Lemma StronglySorted_filter {A : Type} (R : A -> A -> Prop) (f : A -> bool) l :
  StronglySorted R l -> StronglySorted R (filter f l).
Proof.
  induction 1 as [|a l Hs IH Ha]; cbn [filter]; [constructor|].
  destruct (f a); [|exact IH].
  constructor; [exact IH|].
  rewrite Forall_forall in *. intros x Hx. apply Ha.
  apply filter_In in Hx. exact (proj1 Hx).
Qed.

Lemma date_leb_total a b : date_leb a b = false -> date_leb b a = true.
Proof.
  destruct a as [x|], b as [y|]; cbn; try congruence.
  rewrite Z.leb_gt, Z.leb_le. lia.
Qed.

Lemma date_leb_trans a b c :
  date_leb a b = true -> date_leb b c = true -> date_leb a c = true.
Proof.
  destruct a as [x|], b as [y|], c as [z|]; cbn; try congruence.
  rewrite !Z.leb_le. lia.
Qed.

Section Cleaning.

Variable V : Type.
Variable V_eq_dec : forall x y : V, {x = y} + {x <> y}.

Lemma insert_row_perm (r : Row V) l : Permutation (insert_row r l) (r :: l).
Proof.
  induction l as [|h t IH]; cbn [insert_row]; [reflexivity|].
  destruct (date_leb (row_date r) (row_date h)); [reflexivity|].
  rewrite IH. apply perm_swap.
Qed.

Lemma sort_by_date_perm (l : list (Row V)) : Permutation (sort_by_date l) l.
Proof.
  induction l as [|a l IH]; cbn; [reflexivity|].
  rewrite insert_row_perm. now constructor.
Qed.

Lemma insert_row_sorted (r : Row V) l :
  StronglySorted date_le l -> StronglySorted date_le (insert_row r l).
Proof.
  induction 1 as [|h t Hs IH Hh]; cbn [insert_row].
  - constructor; constructor.
  - destruct (date_leb (row_date r) (row_date h)) eqn:E.
    + constructor; [constructor; assumption|].
      constructor; [exact E|].
      rewrite Forall_forall in *. intros x Hx.
      exact (date_leb_trans _ _ _ E (Hh x Hx)).
    + constructor; [exact IH|].
      apply (Permutation_Forall (Permutation_sym (insert_row_perm r t))).
      constructor; [exact (date_leb_total _ _ E)|exact Hh].
Qed.

Lemma sort_by_date_sorted (l : list (Row V)) :
  StronglySorted date_le (sort_by_date l).
Proof.
  induction l as [|a l IH]; cbn; [constructor|].
  apply insert_row_sorted. exact IH.
Qed.

Lemma In_drop_from (seen l : list (Row V)) r :
  In r (drop_from V_eq_dec seen l) <-> In r l /\ ~ In r seen.
Proof.
  revert seen; induction l as [|a l IH]; intros seen; cbn [drop_from].
  - cbn. tauto.
  - destruct (in_dec (Row_eq_dec V V_eq_dec) a seen) as [Hin|Hnin].
    + rewrite IH. cbn. split.
      * tauto.
      * intros ([<-|H] & Hn); tauto.
    + cbn [In]. rewrite IH. cbn [In]. split.
      * intros [<-|(H & Hn)]; [tauto|]. split; [tauto|]. intros Hs. apply Hn. tauto.
      * intros ([<-|H] & Hn); [tauto|].
        destruct (Row_eq_dec V V_eq_dec a r) as [<-|Hne]; [tauto|].
        right. split; [exact H|]. intros [E|Hs]; [congruence|tauto].
Qed.

Lemma NoDup_drop_from (seen l : list (Row V)) :
  NoDup (drop_from V_eq_dec seen l).
Proof.
  revert seen; induction l as [|a l IH]; intros seen; cbn [drop_from].
  - constructor.
  - destruct (in_dec (Row_eq_dec V V_eq_dec) a seen); [apply IH|].
    constructor; [|apply IH].
    rewrite In_drop_from. cbn. tauto.
Qed.

Lemma StronglySorted_drop_from (R : Row V -> Row V -> Prop) (seen l : list (Row V)) :
  StronglySorted R l -> StronglySorted R (drop_from V_eq_dec seen l).
Proof.
  intros H. revert seen.
  induction H as [|a l Hs IH Ha]; intros seen; cbn [drop_from]; [constructor|].
  destruct (in_dec (Row_eq_dec V V_eq_dec) a seen); [apply IH|].
  constructor; [apply IH|].
  rewrite Forall_forall in *. intros x Hx. apply Ha.
  apply In_drop_from in Hx. exact (proj1 Hx).
Qed.

Lemma length_drop_from (seen l : list (Row V)) :
  length (drop_from V_eq_dec seen l) <= length l.
Proof.
  revert seen; induction l as [|a l IH]; intros seen; cbn [drop_from length].
  - lia.
  - destruct (in_dec (Row_eq_dec V V_eq_dec) a seen).
    + specialize (IH seen). lia.
    + cbn [length]. specialize (IH (a :: seen)). lia.
Qed.

Lemma length_drop_from_eq (seen l : list (Row V)) :
  length (drop_from V_eq_dec seen l) = length l <->
  NoDup l /\ forall r, In r l -> ~ In r seen.
Proof.
  revert seen; induction l as [|a l IH]; intros seen; cbn [drop_from length].
  - split; [intros _; split; [constructor|intros r []]|reflexivity].
  - destruct (in_dec (Row_eq_dec V V_eq_dec) a seen) as [Hin|Hnin].
    + split.
      * intros E. pose proof (length_drop_from seen l). lia.
      * intros (_ & H). exfalso. apply (H a); [left; reflexivity|exact Hin].
    + cbn [length]. split.
      * intros E. assert (E' : length (drop_from V_eq_dec (a :: seen) l) = length l)
          by lia.
        apply IH in E'. destruct E' as (Hnd & Hdis). split.
        -- constructor; [|exact Hnd]. intros Ha. apply (Hdis a Ha). left. reflexivity.
        -- intros r [<-|Hr]; [exact Hnin|].
           intros Hs. apply (Hdis r Hr). right. exact Hs.
      * intros (Hnd & Hdis). f_equal. apply IH.
        apply NoDup_cons_iff in Hnd. destruct Hnd as (Ha & Hnd).
        split; [exact Hnd|].
        intros r Hr [<-|Hs]; [exact (Ha Hr)|].
        apply (Hdis r); [right; exact Hr|exact Hs].
Qed.

Lemma negb_miss_mask (r : Row V) : negb (miss_mask r) = complete r.
Proof.
  unfold miss_mask, complete. destruct (has_ohlc r), (has_date r); reflexivity.
Qed.

Lemma filter_complete_parts (l : list (Row V)) :
  filter has_ohlc (filter has_date l) = filter complete l.
Proof.
  induction l as [|a l IH]; cbn [filter]; [reflexivity|].
  unfold complete at 1. destruct (has_date a); cbn [filter andb].
  - destruct (has_ohlc a); [f_equal|]; exact IH.
  - exact IH.
Qed.

End Cleaning.

Lemma last_In {A : Type} (l : list A) (d : A) : l <> [] -> In (last l d) l.
Proof.
  induction l as [|a l IH]; [congruence|]. intros _.
  destruct l as [|b l]; [left; reflexivity|].
  right. apply IH. discriminate.
Qed.

Lemma last_default {A : Type} (l : list A) (a b : A) :
  l <> [] -> last l a = last l b.
Proof.
  induction l as [|x l IH]; [congruence|]. intros _.
  destruct l as [|y l]; [reflexivity|].
  change (last (y :: l) a = last (y :: l) b). apply IH. discriminate.
Qed.

Lemma has_column_In (c : String.string) (cols : list String.string) :
  has_column c cols = true <-> In c cols.
Proof.
  unfold has_column. rewrite existsb_exists. split.
  - intros (x & Hx & E). apply String.eqb_eq in E. congruence.
  - intros H. exists c. split; [exact H|apply String.eqb_refl].
Qed.

Lemma missing_columns_nil (cols : list String.string) :
  missing_columns cols = [] <-> forall c, In c required_sorted -> In c cols.
Proof.
  unfold missing_columns. split.
  - intros E c Hc. apply has_column_In.
    destruct (has_column c cols) eqn:H; [reflexivity|].
    assert (Hin : In c (filter (fun c => negb (has_column c cols)) required_sorted))
      by (apply filter_In; split; [exact Hc|rewrite H; reflexivity]).
    rewrite E in Hin. contradiction.
  - intros H.
    destruct (filter (fun c => negb (has_column c cols)) required_sorted)
      as [|c l] eqn:E; [reflexivity|].
    assert (Hin : In c (filter (fun c => negb (has_column c cols)) required_sorted))
      by (rewrite E; left; reflexivity).
    apply filter_In in Hin. destruct Hin as (Hc & Hn).
    apply (proj2 (has_column_In c cols)) in H; [|exact Hc].
    rewrite H in Hn. discriminate.
Qed.

(** ** [ensure_clean_csv_exists] *)

Section Ensure.

Variable V : Type.
Variable V_eq_dec : forall x y : V, {x = y} + {x <> y}.
Variables raw_csv cleaned_csv report_path : String.string.

Lemma ensure_unfold (d : Disk V) :
  ensure_clean_csv_exists V_eq_dec raw_csv cleaned_csv report_path d =
  if path_exists d cleaned_csv then Py.Done d
  else
    match csv_at d raw_csv with
    | None => Py.Raise Py.FileNotFoundError
    | Some raw =>
        match missing_columns (map lower (csv_columns raw)) with
        | _ :: _ => Py.Raise Py.ValueError
        | [] =>
            let df :=
              filter (fun r => negb (miss_mask r))
                     (drop_duplicates V_eq_dec (sort_by_date (csv_rows raw))) in
            Py.Done
              (write_report
                 (to_csv d cleaned_csv
                         {| csv_columns := map lower (csv_columns raw);
                            csv_rows := df |})
                 report_path
                 (WrittenByEnsure
                    {| rep_start_date :=
                         match df with r :: _ => row_date r | [] => None end;
                       rep_end_date :=
                         match df with
                         | r :: _ => row_date (last df r)
                         | [] => None
                         end;
                       rep_coverage_days := coverage_days df;
                       rep_before := length (csv_rows raw);
                       rep_dropped :=
                         length
                           (filter miss_mask
                              (drop_duplicates V_eq_dec
                                 (sort_by_date (csv_rows raw))));
                       rep_after := length df |}))
        end
    end.
Proof.
  unfold ensure_clean_csv_exists.
  destruct (path_exists d cleaned_csv); [reflexivity|].
  unfold path_exists, read_csv.
  destruct (csv_at d raw_csv) as [raw|]; reflexivity.
Qed.

Lemma cleaned_rows_spec (rows : list (Row V)) (r : Row V) :
  In r (filter (fun r => negb (miss_mask r))
               (drop_duplicates V_eq_dec (sort_by_date rows))) <->
  In r rows /\ complete r = true.
Proof.
  rewrite filter_In. unfold drop_duplicates. rewrite In_drop_from.
  rewrite negb_miss_mask. split.
  - intros ((Hin & _) & Hc). split; [|exact Hc].
    exact (Permutation_in r (sort_by_date_perm V rows) Hin).
  - intros (Hin & Hc). split; [split; [|intros []]|exact Hc].
    exact (Permutation_in r (Permutation_sym (sort_by_date_perm V rows)) Hin).
Qed.

Lemma cleaned_rows_sorted (rows : list (Row V)) :
  StronglySorted date_le
    (filter (fun r => negb (miss_mask r))
            (drop_duplicates V_eq_dec (sort_by_date rows))).
Proof.
  apply StronglySorted_filter. apply StronglySorted_drop_from.
  apply sort_by_date_sorted.
Qed.

(** When there is no cleaned file yet and the raw file passes the header
    check, the cleaned file written has the lower-cased header and exactly
    the rows of the raw file that have a date and the four prices, each
    once, in ascending date order; no other CSV file is touched. *)
Theorem ensure_clean_writes_complete_sorted_rows (d d' : Disk V) :
  path_exists d cleaned_csv = false ->
  ensure_clean_csv_exists V_eq_dec raw_csv cleaned_csv report_path d
  = Py.Done d' ->
  exists raw cleaned,
    csv_at d raw_csv = Some raw /\
    csv_at d' cleaned_csv = Some cleaned /\
    csv_columns cleaned = map lower (csv_columns raw) /\
    (forall r, In r (csv_rows cleaned) <->
               In r (csv_rows raw) /\ complete r = true) /\
    NoDup (csv_rows cleaned) /\
    StronglySorted date_le (csv_rows cleaned) /\
    (forall p, p <> cleaned_csv -> csv_at d' p = csv_at d p).
Proof.
  intros Hc H. rewrite ensure_unfold, Hc in H.
  destruct (csv_at d raw_csv) as [raw|] eqn:Er; [|discriminate].
  destruct (missing_columns (map lower (csv_columns raw))); [|discriminate].
  cbv zeta in H. injection H as <-.
  eexists raw, _. split; [reflexivity|].
  cbn [csv_at write_report to_csv]. rewrite String.eqb_refl.
  split; [reflexivity|]. cbn [csv_columns csv_rows].
  split; [reflexivity|].
  split; [apply cleaned_rows_spec|].
  split; [apply NoDup_filter; apply NoDup_drop_from|].
  split; [apply cleaned_rows_sorted|].
  intros p Hp. apply String.eqb_neq in Hp. rewrite Hp. reflexivity.
Qed.

(** The counts of the report: rows kept plus rows dropped for a missing
    value never exceed the rows read, and fall short of them exactly when the
    raw file repeats a row, since repeated rows are removed without being
    counted; the coverage is present only from two rows on and is never
    negative. *)
Theorem ensure_clean_report_counts (d d' : Disk V) :
  path_exists d cleaned_csv = false ->
  ensure_clean_csv_exists V_eq_dec raw_csv cleaned_csv report_path d
  = Py.Done d' ->
  exists raw cleaned rep,
    csv_at d raw_csv = Some raw /\
    csv_at d' cleaned_csv = Some cleaned /\
    report_at d' report_path = Some (WrittenByEnsure rep) /\
    rep_before rep = length (csv_rows raw) /\
    rep_after rep = length (csv_rows cleaned) /\
    rep_after rep + rep_dropped rep <= rep_before rep /\
    (rep_after rep + rep_dropped rep = rep_before rep <->
     NoDup (csv_rows raw)) /\
    (forall c, rep_coverage_days rep = Some c ->
               (0 <= c)%Z /\ 2 <= rep_after rep) /\
    (2 <= rep_after rep -> rep_coverage_days rep <> None).
Proof.
  intros Hc H. rewrite ensure_unfold, Hc in H.
  destruct (csv_at d raw_csv) as [raw|] eqn:Er; [|discriminate].
  destruct (missing_columns (map lower (csv_columns raw))); [|discriminate].
  cbv zeta in H. injection H as <-.
  eexists raw, _, _. split; [reflexivity|].
  cbn [csv_at report_at write_report to_csv]. rewrite !String.eqb_refl.
  split; [reflexivity|]. split; [reflexivity|].
  cbn [rep_before rep_after rep_dropped rep_coverage_days csv_rows].
  set (dd := drop_duplicates V_eq_dec (sort_by_date (csv_rows raw))).
  assert (Hsum : length (filter (fun r => negb (miss_mask r)) dd)
                 + length (filter miss_mask dd) = length dd).
  { rewrite Nat.add_comm. apply filter_length. }
  assert (Hlen : length (sort_by_date (csv_rows raw)) = length (csv_rows raw))
    by (apply Permutation_length; apply sort_by_date_perm).
  assert (Hle : length dd <= length (csv_rows raw)).
  { unfold dd, drop_duplicates. rewrite <- Hlen. apply length_drop_from. }
  split; [reflexivity|]. split; [reflexivity|].
  split; [lia|].
  split.
  { rewrite Hsum. unfold dd, drop_duplicates. rewrite <- Hlen.
    rewrite length_drop_from_eq. split.
    - intros (Hnd & _).
      exact (Permutation_NoDup (sort_by_date_perm V _) Hnd).
    - intros Hnd. split; [|intros r _ []].
      exact (Permutation_NoDup (Permutation_sym (sort_by_date_perm V _)) Hnd). }
  pose proof (cleaned_rows_sorted (csv_rows raw)) as Hs. fold dd in Hs.
  assert (Hall : forall r, In r (filter (fun r => negb (miss_mask r)) dd) ->
                           has_date r = true).
  { intros r Hr. apply filter_In in Hr. destruct Hr as (_ & Hr).
    rewrite negb_miss_mask in Hr. unfold complete in Hr.
    apply andb_true_iff in Hr. exact (proj1 Hr). }
  destruct (filter (fun r => negb (miss_mask r)) dd) as [|a [|b l]] eqn:Ef.
  - split; [intros c Hcov; discriminate Hcov|cbn; lia].
  - split; [intros c Hcov; discriminate Hcov|cbn; lia].
  - assert (Ha : has_date a = true) by (apply Hall; left; reflexivity).
    assert (Hl : has_date (last (a :: b :: l) a) = true)
      by (apply Hall; apply last_In; discriminate).
    unfold has_date in Ha, Hl. unfold coverage_days.
    destruct (row_date a) as [s|] eqn:Es; [|discriminate].
    destruct (row_date (last (a :: b :: l) a)) as [e|] eqn:Ee; [|discriminate].
    split; [|intros _; discriminate].
    intros c Hcov. injection Hcov as <-. split; [|cbn; lia].
    apply StronglySorted_inv in Hs. destruct Hs as (_ & Hfa).
    rewrite Forall_forall in Hfa.
    assert (Hin : In (last (a :: b :: l) a) (b :: l)).
    { change (last (a :: b :: l) a) with (last (b :: l) a).
      apply last_In. discriminate. }
    specialize (Hfa _ Hin). unfold date_le in Hfa. rewrite Es, Ee in Hfa.
    cbn in Hfa. apply Z.leb_le in Hfa. lia.
Qed.

(** What [ensure_clean_csv_exists] can do: nothing when the cleaned file
    exists, so running it again after a success changes nothing; fail with
    [FileNotFoundError] exactly when neither file exists; fail with
    [ValueError] exactly when the raw file lacks, whatever the case of its
    header, one of the six required columns; and no other failure. *)
Theorem ensure_clean_outcomes (d : Disk V) :
  (path_exists d cleaned_csv = true ->
   ensure_clean_csv_exists V_eq_dec raw_csv cleaned_csv report_path d
   = Py.Done d) /\
  (forall d',
      ensure_clean_csv_exists V_eq_dec raw_csv cleaned_csv report_path d
      = Py.Done d' ->
      ensure_clean_csv_exists V_eq_dec raw_csv cleaned_csv report_path d'
      = Py.Done d') /\
  (ensure_clean_csv_exists V_eq_dec raw_csv cleaned_csv report_path d
   = Py.Raise Py.FileNotFoundError <->
   path_exists d cleaned_csv = false /\ path_exists d raw_csv = false) /\
  (ensure_clean_csv_exists V_eq_dec raw_csv cleaned_csv report_path d
   = Py.Raise Py.ValueError <->
   path_exists d cleaned_csv = false /\
   exists raw, csv_at d raw_csv = Some raw /\
               exists c, In c required_sorted /\
                         ~ In c (map lower (csv_columns raw))) /\
  (forall e,
      ensure_clean_csv_exists V_eq_dec raw_csv cleaned_csv report_path d
      = Py.Raise e ->
      e = Py.FileNotFoundError \/ e = Py.ValueError).
Proof.
  assert (Hmiss : forall cols,
             (exists c, In c required_sorted /\ ~ In c cols) <->
             missing_columns cols <> []).
  { intros cols. rewrite missing_columns_nil. split.
    - intros (c & Hc & Hn) H. exact (Hn (H c Hc)).
    - intros H.
      destruct (missing_columns cols) as [|c l] eqn:E.
      + exfalso. apply H. apply missing_columns_nil. exact E.
      + exists c.
        assert (Hin : In c (missing_columns cols)) by (rewrite E; left; reflexivity).
        unfold missing_columns in Hin. apply filter_In in Hin.
        destruct Hin as (Hc & Hn). split; [exact Hc|].
        intros Hin. apply has_column_In in Hin. rewrite Hin in Hn. discriminate. }
  rewrite !ensure_unfold.
  split; [intros ->; reflexivity|].
  split.
  { intros d' H.
    destruct (path_exists d cleaned_csv) eqn:Hc.
    - injection H as <-. rewrite ensure_unfold, Hc. reflexivity.
    - destruct (csv_at d raw_csv) as [raw|]; [|discriminate].
      destruct (missing_columns (map lower (csv_columns raw))); [|discriminate].
      cbv zeta in H. injection H as <-.
      rewrite ensure_unfold. unfold path_exists.
      cbn [csv_at write_report to_csv]. rewrite String.eqb_refl. reflexivity. }
  change (path_exists d raw_csv)
    with (match csv_at d raw_csv with Some _ => true | None => false end).
  destruct (path_exists d cleaned_csv).
  { split; [split; [discriminate|intros (H & _); discriminate]|].
    split; [split; [discriminate|intros (H & _); discriminate]|].
    intros e H. discriminate. }
  destruct (csv_at d raw_csv) as [raw|].
  2:{ split; [split; [auto|reflexivity]|].
      split; [split; [discriminate|intros (_ & raw & H & _); discriminate]|].
      intros e H. injection H as <-. left. reflexivity. }
  specialize (Hmiss (map lower (csv_columns raw))).
  destruct (missing_columns (map lower (csv_columns raw))) as [|c l].
  - cbv zeta.
    split; [split; [discriminate|intros (_ & H); discriminate]|].
    split; [|intros e H; discriminate].
    split; [discriminate|].
    intros (_ & raw' & E & Hex). injection E as <-.
    exfalso. apply (proj1 Hmiss Hex). reflexivity.
  - split; [split; [discriminate|intros (_ & H); discriminate]|].
    split; [|intros e H; injection H as <-; right; reflexivity].
    split; [|reflexivity]. intros _. split; [reflexivity|].
    exists raw. split; [reflexivity|]. apply Hmiss. discriminate.
Qed.

End Ensure.

Lemma sample_disk_cleaned_eq :
  ensure_clean_csv_exists Z.eq_dec default_raw_csv default_cleaned_csv
                          default_report_path sample_disk
  = Py.Done sample_disk_cleaned.
Proof. reflexivity. Qed.

Lemma ensure_clean_writes_complete_sorted_rows_witness :
  exists cleaned,
    csv_at sample_disk_cleaned default_cleaned_csv = Some cleaned /\
    NoDup (csv_rows cleaned) /\
    (In (sample_row (Some 3%Z) (Some 11%Z)) (csv_rows cleaned)).
Proof.
  destruct (ensure_clean_writes_complete_sorted_rows
              Z Z.eq_dec default_raw_csv default_cleaned_csv
              default_report_path sample_disk sample_disk_cleaned
              eq_refl sample_disk_cleaned_eq)
    as (raw & cleaned & Hraw & Hcl & _ & Hin & Hnd & _).
  exists cleaned. split; [exact Hcl|]. split; [exact Hnd|].
  apply Hin. injection Hraw as <-. split; [left; reflexivity|reflexivity].
Defined.

Lemma ensure_clean_report_counts_witness :
  exists rep,
    report_at sample_disk_cleaned default_report_path
    = Some (WrittenByEnsure rep) /\
    rep_after rep + rep_dropped rep <= rep_before rep.
Proof.
  destruct (ensure_clean_report_counts
              Z Z.eq_dec default_raw_csv default_cleaned_csv
              default_report_path sample_disk sample_disk_cleaned
              eq_refl sample_disk_cleaned_eq)
    as (raw & cleaned & rep & _ & _ & Hrep & _ & _ & Hle & _).
  exists rep. split; [exact Hrep|exact Hle].
Defined.

(** ** [clean_data.py] *)

Lemma Permutation_filter {A : Type} (f : A -> bool) (l l' : list A) :
  Permutation l l' -> Permutation (filter f l) (filter f l').
Proof.
  induction 1 as [|x l l' _ IH|x y l|l l' l'' _ IH1 _ IH2]; cbn [filter].
  - constructor.
  - destruct (f x); [constructor|]; exact IH.
  - destruct (f x), (f y); try reflexivity. apply perm_swap.
  - etransitivity; eassumption.
Qed.

Section CleanData.

Variable V : Type.

Lemma project_sorted (l : list (Row V)) :
  StronglySorted date_le l -> StronglySorted date_le (map project l).
Proof.
  induction 1 as [|a l Hs IH Ha]; cbn [map]; constructor; [exact IH|].
  rewrite Forall_forall in *. intros x Hx.
  apply in_map_iff in Hx. destruct Hx as (y & <- & Hy). exact (Ha y Hy).
Qed.

Lemma complete_project (r : Row V) : complete (project r) = complete r.
Proof. reflexivity. Qed.

Lemma min_date_sorted (a : Row V) (l : list (Row V)) :
  StronglySorted date_le (a :: l) ->
  Forall (fun r => has_date r = true) (a :: l) ->
  min_date (a :: l) = row_date a.
Proof.
  revert a; induction l as [|b l IH]; intros a Hs Hd.
  - cbn. apply Forall_inv in Hd. unfold has_date in Hd.
    destruct (row_date a); [reflexivity|discriminate].
  - apply StronglySorted_inv in Hs. destruct Hs as (Hs & Ha).
    change (min_date (a :: b :: l))
      with (date_min (row_date a) (min_date (b :: l))).
    rewrite (IH b Hs (Forall_inv_tail Hd)).
    apply Forall_inv in Ha. unfold date_le in Ha.
    destruct (row_date a) as [x|], (row_date b) as [y|]; cbn in Ha |- *;
      try congruence.
    apply Z.leb_le in Ha. f_equal. lia.
Qed.

Lemma max_date_sorted (a : Row V) (l : list (Row V)) :
  StronglySorted date_le (a :: l) ->
  Forall (fun r => has_date r = true) (a :: l) ->
  max_date (a :: l) = row_date (last (a :: l) a).
Proof.
  revert a; induction l as [|b l IH]; intros a Hs Hd.
  - cbn. apply Forall_inv in Hd. unfold has_date in Hd.
    destruct (row_date a); [reflexivity|discriminate].
  - apply StronglySorted_inv in Hs. destruct Hs as (Hs & Ha).
    change (max_date (a :: b :: l))
      with (date_max (row_date a) (max_date (b :: l))).
    rewrite (IH b Hs (Forall_inv_tail Hd)).
    rewrite (last_default (b :: l) b a) by discriminate.
    assert (Hin : In (last (b :: l) a) (b :: l)) by (apply last_In; discriminate).
    change (last (a :: b :: l) a) with (last (b :: l) a).
    rewrite Forall_forall in Ha. specialize (Ha _ Hin).
    assert (Hl : has_date (last (b :: l) a) = true).
    { apply Forall_inv_tail in Hd. rewrite Forall_forall in Hd. exact (Hd _ Hin). }
    apply Forall_inv in Hd. unfold has_date in Hd, Hl. unfold date_le in Ha.
    destruct (row_date a) as [x|]; [|discriminate].
    destruct (row_date (last (b :: l) a)) as [y|]; [|discriminate].
    cbn in Ha |- *. apply Z.leb_le in Ha. f_equal. lia.
Qed.

Lemma clean_data_unfold (d : Disk V) :
  clean_data_main d =
  match csv_at d default_raw_csv with
  | None => Py.Raise Py.FileNotFoundError
  | Some raw =>
      if negb (has_column "date"%string (csv_columns raw))
      then Py.Raise (Py.KeyError [ "date"%string ])
      else
        match filter (fun c => negb (has_column c (csv_columns raw)))
                     [ "open"; "high"; "low"; "close" ]%string with
        | (_ :: _) as absent => Py.Raise (Py.KeyError absent)
        | [] =>
            let df :=
              map project
                  (filter has_ohlc (sort_by_date (filter has_date (csv_rows raw))))
            in
            Py.Done
              (write_report
                 (to_csv d default_cleaned_csv
                         {| csv_columns :=
                              filter (fun c => has_column c (csv_columns raw))
                                     col_order;
                            csv_rows := df |})
                 default_report_path
                 (WrittenByCleanData
                    {| crep_start_date := min_date df;
                       crep_end_date := max_date df;
                       crep_days :=
                         match min_date df, max_date df with
                         | Some s, Some e => Some (e - s)%Z
                         | _, _ => None
                         end;
                       crep_before_rows := length (csv_rows raw);
                       crep_after_ohlc_rows :=
                         length (filter has_ohlc
                                   (sort_by_date (filter has_date (csv_rows raw))));
                       crep_rows_kept := length df |}))
        end
  end.
Proof.
  unfold clean_data_main, path_exists, read_csv.
  destruct (csv_at d default_raw_csv) as [raw|]; reflexivity.
Qed.

Lemma clean_rows_perm (rows : list (Row V)) :
  Permutation (filter has_ohlc (sort_by_date (filter has_date rows)))
              (filter complete rows).
Proof.
  rewrite <- filter_complete_parts.
  apply Permutation_filter. apply sort_by_date_perm.
Qed.

(** [clean_data.py] writes the rows of the raw file that have a date and
    the four prices, all of them, repeated rows included, in ascending date
    order, cut down to the columns of [col_order] that the header has. *)
Theorem clean_data_keeps_every_complete_row (d d' : Disk V) :
  clean_data_main d = Py.Done d' ->
  exists raw cleaned,
    csv_at d default_raw_csv = Some raw /\
    csv_at d' default_cleaned_csv = Some cleaned /\
    csv_columns cleaned
    = filter (fun c => has_column c (csv_columns raw)) col_order /\
    Permutation (csv_rows cleaned)
                (map project (filter complete (csv_rows raw))) /\
    StronglySorted date_le (csv_rows cleaned) /\
    Forall (fun r => complete r = true) (csv_rows cleaned).
Proof.
  intros H. rewrite clean_data_unfold in H.
  destruct (csv_at d default_raw_csv) as [raw|]; [|discriminate].
  destruct (negb (has_column "date"%string (csv_columns raw))); [discriminate|].
  destruct (filter (fun c => negb (has_column c (csv_columns raw)))
                   [ "open"; "high"; "low"; "close" ]%string); [|discriminate].
  cbv zeta in H. injection H as <-.
  eexists raw, _. split; [reflexivity|].
  cbn [csv_at write_report to_csv]. rewrite String.eqb_refl.
  split; [reflexivity|]. cbn [csv_columns csv_rows].
  split; [reflexivity|].
  split; [apply Permutation_map; apply clean_rows_perm|].
  split.
  - apply project_sorted. apply StronglySorted_filter. apply sort_by_date_sorted.
  - apply (Permutation_Forall
             (Permutation_sym (Permutation_map project (clean_rows_perm _)))).
    apply Forall_forall. intros r Hr.
    apply in_map_iff in Hr. destruct Hr as (y & <- & Hy).
    apply filter_In in Hy. rewrite complete_project. exact (proj2 Hy).
Qed.

(** Its report: the rows kept are the rows left after dropping bad prices,
    never more than the rows read; on an empty result the dates and the span
    are missing; otherwise the start and end dates are those of the first
    and last row written and the span is not negative. *)
Theorem clean_data_report (d d' : Disk V) :
  clean_data_main d = Py.Done d' ->
  exists raw cleaned rep,
    csv_at d default_raw_csv = Some raw /\
    csv_at d' default_cleaned_csv = Some cleaned /\
    report_at d' default_report_path = Some (WrittenByCleanData rep) /\
    crep_before_rows rep = length (csv_rows raw) /\
    crep_rows_kept rep = length (csv_rows cleaned) /\
    crep_after_ohlc_rows rep = crep_rows_kept rep /\
    crep_rows_kept rep <= crep_before_rows rep /\
    match csv_rows cleaned with
    | [] => crep_start_date rep = None /\ crep_end_date rep = None /\
            crep_days rep = None
    | first :: _ =>
        exists s e,
          row_date first = Some s /\
          row_date (last (csv_rows cleaned) first) = Some e /\
          crep_start_date rep = Some s /\ crep_end_date rep = Some e /\
          crep_days rep = Some (e - s)%Z /\ (0 <= e - s)%Z
    end.
Proof.
  intros H. rewrite clean_data_unfold in H.
  destruct (csv_at d default_raw_csv) as [raw|]; [|discriminate].
  destruct (negb (has_column "date"%string (csv_columns raw))); [discriminate|].
  destruct (filter (fun c => negb (has_column c (csv_columns raw)))
                   [ "open"; "high"; "low"; "close" ]%string); [|discriminate].
  cbv zeta in H. injection H as <-.
  eexists raw, _, _. split; [reflexivity|].
  cbn [csv_at report_at write_report to_csv]. rewrite !String.eqb_refl.
  split; [reflexivity|]. split; [reflexivity|].
  cbn [crep_before_rows crep_rows_kept crep_after_ohlc_rows crep_start_date
       crep_end_date crep_days csv_rows].
  split; [reflexivity|]. split; [reflexivity|].
  split; [now rewrite length_map|].
  split.
  { rewrite length_map, (Permutation_length (clean_rows_perm _)).
    apply filter_length_le. }
  set (df := map project
                 (filter has_ohlc (sort_by_date (filter has_date (csv_rows raw))))).
  assert (Hs : StronglySorted date_le df).
  { apply project_sorted. apply StronglySorted_filter. apply sort_by_date_sorted. }
  assert (Hd : Forall (fun r => has_date r = true) df).
  { apply Forall_forall. intros r Hr. unfold df in Hr.
    apply in_map_iff in Hr. destruct Hr as (y & <- & Hy).
    apply filter_In in Hy. destruct Hy as (Hy & _).
    apply (Permutation_in y (sort_by_date_perm V _)) in Hy.
    apply filter_In in Hy. exact (proj2 Hy). }
  destruct df as [|a l] eqn:Edf.
  - cbn. auto.
  - rewrite (min_date_sorted a l Hs Hd), (max_date_sorted a l Hs Hd).
    assert (Ha : has_date a = true) by (apply (Forall_inv Hd)).
    assert (Hl : has_date (last (a :: l) a) = true).
    { rewrite Forall_forall in Hd. apply Hd. apply last_In. discriminate. }
    unfold has_date in Ha, Hl.
    destruct (row_date a) as [s|] eqn:Es; [|discriminate].
    destruct (row_date (last (a :: l) a)) as [e|] eqn:Ee; [|discriminate].
    exists s, e. repeat split; try reflexivity.
    destruct l as [|b l].
    + cbn in Ee. rewrite Es in Ee. injection Ee as <-. lia.
    + apply StronglySorted_inv in Hs. destruct Hs as (_ & Hfa).
      rewrite Forall_forall in Hfa.
      assert (Hin : In (last (a :: b :: l) a) (b :: l)).
      { change (last (a :: b :: l) a) with (last (b :: l) a).
        apply last_In. discriminate. }
      specialize (Hfa _ Hin). unfold date_le in Hfa. rewrite Es, Ee in Hfa.
      cbn in Hfa. apply Z.leb_le in Hfa. lia.
Qed.

End CleanData.

Lemma clean_data_keeps_every_complete_row_witness :
  exists cleaned,
    csv_at sample_disk_after_clean_data default_cleaned_csv = Some cleaned /\
    length (csv_rows cleaned) = 3.
Proof.
  destruct (clean_data_keeps_every_complete_row
              Z sample_disk_lower sample_disk_after_clean_data eq_refl)
    as (raw & cleaned & Hraw & Hcl & _ & Hperm & _).
  exists cleaned. split; [exact Hcl|].
  rewrite (Permutation_length Hperm). injection Hraw as <-. reflexivity.
Defined.

Lemma clean_data_report_witness :
  exists rep,
    report_at sample_disk_after_clean_data default_report_path
    = Some (WrittenByCleanData rep) /\
    crep_rows_kept rep <= crep_before_rows rep.
Proof.
  destruct (clean_data_report
              Z sample_disk_lower sample_disk_after_clean_data eq_refl)
    as (raw & cleaned & rep & _ & _ & Hrep & _ & _ & _ & Hle & _).
  exists rep. split; [exact Hrep|exact Hle].
Defined.

Section CleanDataHeader.

Variable V : Type.

(** [clean_data.py] finishes exactly when the raw file exists and its header
    holds [date], [open], [high], [low] and [close] as written, in lower
    case; otherwise it fails with [FileNotFoundError] or [KeyError] and
    writes nothing. *)
Theorem clean_data_finishes_iff_header_exact (d : Disk V) :
  ((exists d', clean_data_main d = Py.Done d') <->
   exists raw,
     csv_at d default_raw_csv = Some raw /\
     forall c, In c [ "date"; "open"; "high"; "low"; "close" ]%string ->
               In c (csv_columns raw)) /\
  (forall e, clean_data_main d = Py.Raise e ->
             e = Py.FileNotFoundError \/ exists ks, e = Py.KeyError ks).
Proof.
  rewrite clean_data_unfold.
  destruct (csv_at d default_raw_csv) as [raw|].
  2:{ split.
      - split; [intros (d' & H); discriminate|intros (raw & H & _); discriminate].
      - intros e H. injection H as <-. left. reflexivity. }
  destruct (has_column "date"%string (csv_columns raw)) eqn:Hdate; cbn [negb].
  2:{ split.
      - split; [intros (d' & H); discriminate|].
        intros (raw' & E & Hall). injection E as <-.
        assert (Hin : In "date"%string (csv_columns raw))
          by (apply Hall; left; reflexivity).
        apply has_column_In in Hin. congruence.
      - intros e H. injection H as <-. right. eexists. reflexivity. }
  destruct (filter (fun c => negb (has_column c (csv_columns raw)))
                   [ "open"; "high"; "low"; "close" ]%string) as [|k ks] eqn:Ef.
  - cbv zeta. split; [|intros e H; discriminate].
    split; [|intros _; eexists; reflexivity].
    intros _. exists raw. split; [reflexivity|].
    intros c [<-|Hc]; [apply has_column_In; exact Hdate|].
    apply has_column_In.
    destruct (has_column c (csv_columns raw)) eqn:Hc'; [reflexivity|].
    assert (Hin : In c (filter (fun c => negb (has_column c (csv_columns raw)))
                               [ "open"; "high"; "low"; "close" ]%string))
      by (apply filter_In; split; [exact Hc|rewrite Hc'; reflexivity]).
    rewrite Ef in Hin. contradiction.
  - split; [|intros e H; injection H as <-; right; eexists; reflexivity].
    split; [intros (d' & H); discriminate|].
    intros (raw' & E & Hall). injection E as <-. exfalso.
    assert (Hin : In k (filter (fun c => negb (has_column c (csv_columns raw)))
                               [ "open"; "high"; "low"; "close" ]%string))
      by (rewrite Ef; left; reflexivity).
    apply filter_In in Hin. destruct Hin as (Hk & Hn).
    assert (Hk' : In k (csv_columns raw)) by (apply Hall; right; exact Hk).
    apply has_column_In in Hk'. rewrite Hk' in Hn. discriminate.
Qed.

End CleanDataHeader.

(** ** Loading the frame of the run *)

Section LoadFrame.

Variable V : Type.
Variable V_eq_dec : forall x y : V, {x = y} + {x <> y}.
Variable dayfirst : CsvFile V -> nat -> option Z.

Lemma load_frame_unfold (data_file : String.string) (d : Disk V) :
  load_frame V_eq_dec dayfirst data_file d =
  match ensure_clean_csv_exists V_eq_dec default_raw_csv default_cleaned_csv
                                default_report_path d with
  | Py.Raise e => Py.Raise e
  | Py.Done d1 =>
      match csv_at d1 data_file with
      | None => Py.Raise Py.FileNotFoundError
      | Some df =>
          if forallb (fun c => has_column c (map lower (csv_columns df)))
                     [ "date"; "open"; "high"; "low"; "close" ]%string
          then Py.Done (d1, {| csv_columns := map lower (csv_columns df);
                               csv_rows :=
                                 sort_by_date (read_dayfirst dayfirst df) |})
          else Py.Raise Py.ValueError
      end
  end.
Proof.
  unfold load_frame, read_csv.
  destruct (ensure_clean_csv_exists V_eq_dec default_raw_csv default_cleaned_csv
                                    default_report_path d) as [d1|e];
    [|reflexivity].
  cbn [Py.bind]. destruct (csv_at d1 data_file); reflexivity.
Qed.

(** The second reading changes dates only: with the dates taken away the
    rows are the rows of the file, in the order of the file. *)
Lemma read_dayfirst_cells (f : CsvFile V) :
  map (with_date None) (read_dayfirst dayfirst f) =
  map (with_date None) (csv_rows f).
Proof.
  unfold read_dayfirst. generalize 0.
  induction (csv_rows f) as [|r l IH]; intros start; [reflexivity|].
  cbn [length seq combine map]. f_equal. apply IH.
Qed.

Lemma length_read_dayfirst (f : CsvFile V) :
  length (read_dayfirst dayfirst f) = length (csv_rows f).
Proof.
  rewrite <- (length_map (with_date None) (read_dayfirst dayfirst f)).
  rewrite read_dayfirst_cells. apply length_map.
Qed.

(** Before the run reads its data file it calls [ensure_clean_csv_exists]
    on the default paths: when neither default file exists the run fails with
    [FileNotFoundError] whatever the data file of the configuration, even one
    that exists; and if the default cleaned file was there, nothing was
    cleaned.  When it succeeds, the frame is the data file with a lower-cased
    header holding the five required columns, its dates read again day first
    and its rows in ascending order of those dates: every row of the file is
    in the frame with its cells, rows whose date did not read included, but
    the dates, and so the order, are those of the second reading. *)
Theorem load_frame_outcomes (data_file : String.string) (d : Disk V) :
  (path_exists d default_cleaned_csv = false ->
   path_exists d default_raw_csv = false ->
   load_frame V_eq_dec dayfirst data_file d = Py.Raise Py.FileNotFoundError) /\
  (forall d1 f,
      load_frame V_eq_dec dayfirst data_file d = Py.Done (d1, f) ->
      ensure_clean_csv_exists V_eq_dec default_raw_csv default_cleaned_csv
                              default_report_path d = Py.Done d1 /\
      (path_exists d default_cleaned_csv = true -> d1 = d) /\
      exists df,
        csv_at d1 data_file = Some df /\
        csv_columns f = map lower (csv_columns df) /\
        Permutation (csv_rows f) (read_dayfirst dayfirst df) /\
        Permutation (map (with_date None) (csv_rows f))
                    (map (with_date None) (csv_rows df)) /\
        length (csv_rows f) = length (csv_rows df) /\
        StronglySorted date_le (csv_rows f) /\
        (forall c, In c [ "date"; "open"; "high"; "low"; "close" ]%string ->
                   In c (csv_columns f))).
Proof.
  rewrite load_frame_unfold. split.
  - intros Hc Hr. rewrite ensure_unfold, Hc.
    unfold path_exists in Hr.
    destruct (csv_at d default_raw_csv); [discriminate|reflexivity].
  - intros d1 f H.
    destruct (ensure_clean_csv_exists V_eq_dec default_raw_csv
                default_cleaned_csv default_report_path d) as [d1'|e] eqn:E;
      [|discriminate].
    destruct (csv_at d1' data_file) as [df|] eqn:Edf; [|discriminate].
    destruct (forallb (fun c => has_column c (map lower (csv_columns df)))
                      [ "date"; "open"; "high"; "low"; "close" ]%string)
      eqn:Hcols; [|discriminate].
    injection H as <- <-.
    split; [reflexivity|]. split.
    { intros Hc. rewrite ensure_unfold, Hc in E. congruence. }
    exists df. split; [exact Edf|]. cbn [csv_columns csv_rows].
    pose proof (sort_by_date_perm V (read_dayfirst dayfirst df)) as Hperm.
    split; [reflexivity|]. split; [exact Hperm|].
    split.
    { rewrite <- read_dayfirst_cells. apply Permutation_map. exact Hperm. }
    split.
    { rewrite (Permutation_length Hperm). apply length_read_dayfirst. }
    split; [apply sort_by_date_sorted|].
    intros c Hc. apply has_column_In.
    rewrite forallb_forall in Hcols. exact (Hcols c Hc).
Qed.

End LoadFrame.

Lemma load_frame_outcomes_witness :
  exists f,
    load_frame Z.eq_dec sample_dayfirst default_cleaned_csv sample_disk
    = Py.Done (sample_disk_cleaned, f) /\
    length (csv_rows f) = 2 /\
    In "close"%string (csv_columns f) /\
    In (sample_row (Some 61%Z) (Some 11%Z)) (csv_rows f).
Proof.
  eexists. split; [reflexivity|].
  destruct (proj2 (load_frame_outcomes Z Z.eq_dec sample_dayfirst
                     default_cleaned_csv sample_disk) _ _ eq_refl)
    as (_ & _ & df & Hdf & _ & Hperm & _ & Hlen & _ & Hcols).
  vm_compute in Hdf. injection Hdf as <-.
  split; [exact Hlen|]. split.
  - apply Hcols. right. right. right. right. left. reflexivity.
  - apply (Permutation_in _ (Permutation_sym Hperm)).
    right. left. reflexivity.
Defined.

(** ** The quantity *)

Lemma step_quantity q q' bars sig_series st st' i :
  same_state st st' ->
  match step q bars sig_series st i, step q' bars sig_series st' i with
  | Ok a, Ok b => same_state a b
  | Err e, Err e' => e = e'
  | _, _ => False
  end.
Proof.
  destruct st as [p ep ed ei os], st' as [p' ep' ed' ei' os'].
  intros (Hp & Hep & Hed & Hei & Hos). cbn in Hp, Hep, Hed, Hei, Hos. subst.
  unfold step. cbn [position st_entry_price st_entry_dt st_entry_idx orders].
  destruct (iloc sig_series i) as [s|e]; cbn [bind]; [|reflexivity].
  destruct (iloc bars (i + 1)) as [nb|e]; cbn [bind]; [|reflexivity].
  destruct ((p' =? 0)%Z && (s =? 1)%Z).
  - repeat split; cbn; auto.
  - destruct ((p' =? 1)%Z && (s =? -1)%Z).
    + destruct (float_of ep') as [x|e]; cbn [bind]; [|reflexivity].
      repeat split; cbn; auto.
      apply Forall2_app; [exact Hos|]. constructor; [reflexivity|constructor].
    + repeat split; cbn; auto.
Qed.

Lemma for_each_quantity q q' bars sig_series idxs :
  forall st st',
    same_state st st' ->
    match for_each (step q bars sig_series) idxs st,
          for_each (step q' bars sig_series) idxs st' with
    | Ok a, Ok b => same_state a b
    | Err e, Err e' => e = e'
    | _, _ => False
    end.
Proof.
  induction idxs as [|i idxs IH]; intros st st' H; cbn [for_each]; [exact H|].
  pose proof (step_quantity q q' bars sig_series st st' i H) as Hs.
  destruct (step q bars sig_series st i) as [a|e],
           (step q' bars sig_series st' i) as [b|e'];
    cbn [bind]; try contradiction; [|exact Hs].
  apply IH. exact Hs.
Qed.

Lemma insert_by_same_facts o o' l l' :
  same_facts o o' -> Forall2 same_facts l l' ->
  Forall2 same_facts (insert_by o l) (insert_by o' l').
Proof.
  intros Ho H. induction H as [|h h' l l' Hh Hl IH]; cbn [insert_by].
  - constructor; [exact Ho|constructor].
  - assert (E : entry_dt o = entry_dt o')
      by (unfold same_facts, trade_facts in Ho; congruence).
    assert (E' : entry_dt h = entry_dt h')
      by (unfold same_facts, trade_facts in Hh; congruence).
    rewrite E, E'.
    destruct (key_leb (entry_dt o') (entry_dt h')).
    + constructor; [exact Ho|]. constructor; assumption.
    + constructor; assumption.
Qed.

Lemma assemble_same_facts l l' :
  Forall2 same_facts l l' -> Forall2 same_facts (assemble l) (assemble l').
Proof.
  intros H.
  assert (Hs : Forall2 same_facts (sort_values l) (sort_values l')).
  { induction H as [|h h' l l' Hh _ IH]; cbn; [constructor|].
    apply insert_by_same_facts; assumption. }
  destruct H; [constructor|exact Hs].
Qed.

(** The quantity decides nothing but itself and the pnl: with another
    quantity, positive or not, the run makes the same trades, row for row,
    at the same dates and prices and over the same number of bars. *)
Theorem quantity_changes_only_qty_and_pnl
        (fast slow q q' : Z) (bars : list Bar) (ledger : list Order) :
  run_sma_crossover fast slow q bars = Ok ledger ->
  exists ledger',
    run_sma_crossover fast slow q' bars = Ok ledger' /\
    Forall2 (fun o o' => trade_facts o = trade_facts o' /\
                         qty o = q /\ qty o' = q')
            ledger ledger'.
Proof.
  intros H.
  destruct (run_Ok_inv _ _ _ _ _ H) as (Hf & Hs & st & _ & _ & E & _ & ->).
  destruct (run_valid fast slow q' bars Hf Hs) as (st' & _ & _ & E' & _ & R').
  exists (assemble (flush q' st')). split; [exact R'|].
  assert (Hst : same_state st st').
  { pose proof (for_each_quantity q q' bars
                  (signal (indicators_of fast slow bars))
                  (seq 0 (length bars - 1)) init_state init_state) as Hfe.
    unfold simulate in E, E'. rewrite E, E' in Hfe. apply Hfe.
    repeat split. constructor. }
  assert (Hfl : Forall2 same_facts (flush q st) (flush q' st')).
  { destruct Hst as (Hp & Hep & Hed & _ & Hos). unfold flush. rewrite <- Hp.
    destruct (position st =? 1)%Z; [|exact Hos].
    apply Forall2_app; [exact Hos|]. constructor; [|constructor].
    unfold same_facts, trade_facts, open_row. cbn. congruence. }
  pose proof (assemble_same_facts _ _ Hfl) as Ha.
  assert (Hq : forall q0 l, run_sma_crossover fast slow q0 bars = Ok l ->
                            Forall (fun o => qty o = q0) l).
  { intros q0 l Hl. apply Forall_forall. intros o Ho.
    destruct (ledger_row _ _ _ _ _ _ Hl Ho) as (t & Ht & _ & _).
    destruct (trade_at_entry _ _ _ _ Ht) as (_ & _ & _ & _ & Hqty). exact Hqty. }
  pose proof (Hq q _ H) as H1. pose proof (Hq q' _ R') as H2.
  clear - Ha H1 H2.
  induction Ha as [|o o' l l' Ho _ IH]; [constructor|].
  constructor.
  - split; [exact Ho|]. split; [exact (Forall_inv H1)|exact (Forall_inv H2)].
  - apply IH; [exact (Forall_inv_tail H1)|exact (Forall_inv_tail H2)].
Qed.

Lemma quantity_changes_only_qty_and_pnl_witness :
  exists ledger',
    run_sma_crossover 2 3 (-5) scenario = Ok ledger' /\
    Forall2 (fun o o' => trade_facts o = trade_facts o' /\
                         qty o = 10%Z /\ qty o' = (-5)%Z)
            [scenario_trade] ledger'.
Proof.
  exact (quantity_changes_only_qty_and_pnl 2 3 10 (-5) scenario
                                           [scenario_trade] eq_refl).
Defined.
